(** * Felicia Store: persistence, checkout, admin directory, sync and
      customer aggregation of [server.js], embedded in Rocq.

    The handlers of [server.js] work on JSON documents, so the embedding
    does too: request bodies, catalog entries, orders and admin accounts are
    [value]s, numbers are IEEE binary64 floats (the kernel's primitive
    floats), and the coercions the handlers rely on ([||], [!], [Number],
    [*], [+=], optional chaining, [Map]) are written out, with the
    TypeError each of them can throw.  The handlers
    are the callbacks of the routes; of the middlewares in front of
    them, [blockAdminRoute] and [requireAdminApi] are embedded and the
    rate limiters are not.  The sync script, the dashboard's aggregations
    and the storefront's subtotal come after the handlers. *)

From Stdlib Require Import PrimFloat FloatOps Ascii String List ZArith Lia Bool.
From Stdlib Require Uint63.
From Stdlib Require Import DecimalString DecimalZ.
Import ListNotations.

Set Implicit Arguments.
#[local] Set Warnings "-register-all".

Local Open Scope string_scope.
Local Open Scope list_scope.

(* ===================================================================== *)
(** ** JavaScript values *)
(* ===================================================================== *)

(** A parsed object is the list of its own properties, each name once, in
    insertion order. *)
Inductive value : Type :=
  | VUndefined
  | VNull
  | VBool (b : bool)
  | VNum (n : float)
  | VStr (s : string)
  | VArr (elems : list value)
  | VObj (props : list (string * value)).

(** What a handler can end in besides a value: a thrown exception.  The
    payload only names the kind; messages are not compared anywhere. *)
Inductive exn : Type :=
  | TypeError
  | StorageError
  | BcryptError
  | NetworkError.

Inductive result (A : Type) : Type :=
  | Ok (a : A)
  | Throw (e : exn).

Arguments Ok {A} a.
Arguments Throw {A} e.

Definition bind {A B : Type} (r : result A) (k : A -> result B) : result B :=
  match r with
  | Ok a => k a
  | Throw e => Throw e
  end.

Notation "x <- r ;; k" := (bind r (fun x => k))
  (at level 61, r at next level, right associativity).

(** The built-ins of the JavaScript runtime and of [bcryptjs] that the
    handlers call and whose results are not computed here. *)
Class Runtime : Type := {
  (** [String.prototype.toLowerCase] *)
  toLowerCase : string -> string;
  (** [Number(s)] for a string [s] *)
  StringToNumber : string -> float;
  (** [String(n)] for a number [n] *)
  NumberToString : float -> string;
  (** [toString()] of an array or of a plain object when that call
      returns, the primitive that [Number(o)] and [o + x] start from *)
  ObjectToString : value -> string;
  (** [n.toFixed(2)] for a number [n] *)
  toFixed2 : float -> string;
  (** [bcrypt.hash(password, 10)], with the salt the library drew *)
  bcrypt_hash : string -> string -> string;
  (** [bcrypt.compare(password, hash)] *)
  bcrypt_compare : string -> string -> bool;
  (** [s.replace(/^Bearer\s+/i, '')] *)
  stripBearer : string -> string;
  (** [e.message] of a caught exception *)
  message : exn -> string
}.

(** [!!n] for a number: false for [0], [-0] and [NaN]. *)
Definition truthy_num (n : float) : bool :=
  negb (is_zero n || is_nan n).

(** ToBoolean. *)
Definition truthy (v : value) : bool :=
  match v with
  | VUndefined | VNull => false
  | VBool b => b
  | VNum n => truthy_num n
  | VStr s => negb (s =? "")
  | VArr _ | VObj _ => true
  end.

(** [a || b] *)
Definition js_or (a b : value) : value :=
  if truthy a then a else b.

Fixpoint assoc (k : string) (props : list (string * value)) : option value :=
  match props with
  | [] => None
  | (k', v) :: rest => if k' =? k then Some v else assoc k rest
  end.

(** [v.k] for a [v] that is neither [undefined] nor [null].  The property
    names the server reads are never an index, [length] or a method, so a
    primitive or an array has none of them. *)
Definition prop (v : value) (k : string) : value :=
  match v with
  | VObj props =>
      match assoc k props with
      | Some x => x
      | None => VUndefined
      end
  | _ => VUndefined
  end.

Definition nullish (v : value) : bool :=
  match v with
  | VUndefined | VNull => true
  | _ => false
  end.

(** [v.k]: a TypeError on [undefined] and [null]. *)
Definition get (v : value) (k : string) : result value :=
  if nullish v then Throw TypeError else Ok (prop v k).

(** [v?.k] *)
Definition get_opt (v : value) (k : string) : value :=
  if nullish v then VUndefined else prop v k.

(** [Array.isArray(v)] *)
Definition isArray (v : value) : bool :=
  match v with
  | VArr _ => true
  | _ => false
  end.

(** Whether the conversion of [v] to a primitive returns.  A plain object
    gets its [toString] from [Object.prototype] unless it has a property
    of its own under that name; in a parsed document such a property
    holds data, which cannot be called, and as the inherited [valueOf]
    returns the object itself the conversion finds no primitive and
    throws a TypeError.  The [toString] of an array is its [join], which
    converts every element that is neither [undefined] nor [null]. *)
Fixpoint convertible (v : value) : bool :=
  match v with
  | VObj props =>
      match assoc "toString" props with
      | Some _ => false
      | None => true
      end
  | VArr elems => forallb convertible elems
  | _ => true
  end.

Section Coercions.
Context {RT : Runtime}.

(** The primitive the conversion gives when it returns. *)
Definition primitive_of (v : value) : value :=
  match v with
  | VArr _ | VObj _ => VStr (ObjectToString v)
  | _ => v
  end.

(** ToPrimitive. *)
Definition ToPrimitive (v : value) : result value :=
  if convertible v then Ok (primitive_of v) else Throw TypeError.

(** ToNumber of a primitive. *)
Definition to_number (p : value) : float :=
  match p with
  | VUndefined => nan
  | VNull => 0%float
  | VBool b => if b then 1%float else 0%float
  | VNum n => n
  | VStr s => StringToNumber s
  | VArr _ | VObj _ => nan
  end.

(** ToString of a primitive. *)
Definition to_string (p : value) : string :=
  match p with
  | VUndefined => "undefined"
  | VNull => "null"
  | VBool b => if b then "true" else "false"
  | VNum n => NumberToString n
  | VStr s => s
  | VArr _ | VObj _ => ""
  end.

(** ToNumber, which is [Number(v)] and what [*] applies to an operand. *)
Definition ToNumber (v : value) : result float :=
  p <- ToPrimitive v ;;
  Ok (to_number p).

(** ToString, which is [String(v)] and what a template literal applies
    to a substitution. *)
Definition ToString (v : value) : result string :=
  p <- ToPrimitive v ;;
  Ok (to_string p).

Definition is_string (v : value) : bool :=
  match v with
  | VStr _ => true
  | _ => false
  end.

(** [+] on two primitives. *)
Definition add_primitives (pa pb : value) : value :=
  if is_string pa || is_string pb
  then VStr (to_string pa ++ to_string pb)
  else VNum (to_number pa + to_number pb)%float.

(** [a + b]: the left operand is converted first. *)
Definition js_add (a b : value) : result value :=
  pa <- ToPrimitive a ;;
  pb <- ToPrimitive b ;;
  Ok (add_primitives pa pb).

(** [Number(v)] and [String(v)] when the conversion returns. *)
Definition number_of (v : value) : float := to_number (primitive_of v).
Definition text_of (v : value) : string := to_string (primitive_of v).

(** [v.toFixed(2)] as a method call on an arbitrary value: only a number
    has the method. *)
Definition call_toFixed (v : value) : result string :=
  match v with
  | VNum n => Ok (toFixed2 n)
  | _ => Throw TypeError
  end.

(** [s.toLowerCase()] as a method call on an arbitrary value: only a
    string has the method. *)
Definition call_toLowerCase (v : value) : result value :=
  match v with
  | VStr s => Ok (VStr (toLowerCase s))
  | _ => Throw TypeError
  end.

(** [v?.toLowerCase?.()]: [undefined] when [v] is nullish or has no such
    property; a TypeError when the property is there and is not callable
    (a parsed object can only hold data under that name). *)
Definition opt_call_toLowerCase (v : value) : result value :=
  match v with
  | VStr s => Ok (VStr (toLowerCase s))
  | VObj props =>
      match assoc "toLowerCase" props with
      | Some x => if nullish x then Ok VUndefined else Throw TypeError
      | None => Ok VUndefined
      end
  | _ => Ok VUndefined
  end.
End Coercions.

(** SameValueZero, the key equality of [Map].  Two objects are the same
    key only when they are the same object, and the keys compared here
    always come from two different parses. *)
Definition same_value_zero (a b : value) : bool :=
  match a, b with
  | VUndefined, VUndefined => true
  | VNull, VNull => true
  | VBool x, VBool y => Bool.eqb x y
  | VNum x, VNum y => (x =? y)%float || (is_nan x && is_nan y)
  | VStr x, VStr y => (x =? y)%string
  | _, _ => false
  end.

(** [===] on the values compared here (strings and [undefined]). *)
Definition strict_eq (a b : value) : bool :=
  match a, b with
  | VUndefined, VUndefined => true
  | VNull, VNull => true
  | VBool x, VBool y => Bool.eqb x y
  | VNum x, VNum y => (x =? y)%float
  | VStr x, VStr y => (x =? y)%string
  | _, _ => false
  end.

(* ===================================================================== *)
(** ** [Map] *)
(* ===================================================================== *)

(** A [Map] keeps its entries in insertion order; [set] on a key already
    present replaces the value in place. *)
Definition jsmap (V : Type) : Type := list (value * V).

Fixpoint map_get {V : Type} (m : jsmap V) (k : value) : option V :=
  match m with
  | [] => None
  | (k', v) :: rest => if same_value_zero k' k then Some v else map_get rest k
  end.

Fixpoint map_set {V : Type} (m : jsmap V) (k : value) (v : V) : jsmap V :=
  match m with
  | [] => [(k, v)]
  | (k', v') :: rest =>
      if same_value_zero k' k then (k', v) :: rest
      else (k', v') :: map_set rest k v
  end.

(** [new Map(pairs)] *)
Definition map_of_pairs {V : Type} (pairs : list (value * V)) : jsmap V :=
  fold_left (fun m kv => map_set m (fst kv) (snd kv)) pairs [].

(** [Array.from(m.values())] *)
Definition map_values {V : Type} (m : jsmap V) : list V := map snd m.

(* ===================================================================== *)
(** ** JSON text *)
(* ===================================================================== *)

(** What [JSON.parse(JSON.stringify(v, null, 2))] gives back: a number
    that is not finite becomes [null], [-0] becomes [0], an [undefined]
    array element becomes [null] and an [undefined] property is left
    out. *)
Fixpoint json_clean (v : value) : value :=
  match v with
  | VUndefined => VNull
  | VNull => VNull
  | VBool b => VBool b
  | VNum n =>
      if is_finite n then VNum (if is_zero n then 0%float else n) else VNull
  | VStr s => VStr s
  | VArr elems => VArr (map json_clean elems)
  | VObj props =>
      VObj ((fix clean_props (ps : list (string * value)) :=
               match ps with
               | [] => []
               | (k, x) :: rest =>
                   match x with
                   | VUndefined => clean_props rest
                   | _ => (k, json_clean x) :: clean_props rest
                   end
               end) props)
  end.

(* ===================================================================== *)
(** ** RecordStore: the data files and the blob store *)
(* ===================================================================== *)

(** A file of the data directory: missing, holding the text of a JSON
    document (an empty file reads as [null]), or there but failing to read
    or to parse. *)
Inductive file_state : Type :=
  | FileAbsent
  | FileHolds (doc : value)
  | FileUnreadable.

(** An object of the blob store: not found, holding a document, or not
    served (transport error, a status other than 200, an empty or
    unparsable body). *)
Inductive blob_state : Type :=
  | BlobMissing
  | BlobHolds (doc : value)
  | BlobUnavailable.

Inductive file_path : Type :=
  | PRODUCTS_FILE
  | ORDERS_FILE
  | ADMINS_FILE.

(** ['felicia-orders.json'] and ['felicia-admin-users.json'] *)
Inductive blob_path : Type :=
  | ORDERS_BLOB
  | ADMINS_BLOB.

(** Everything outside the process that the handlers read or write.
    [fs_writable] and [blob_writable] say whether [fs.writeFileSync] and
    [blob.put] go through or throw. *)
Record world : Type := {
  products_file : file_state;
  orders_file : file_state;
  admins_file : file_state;
  fs_writable : bool;
  orders_blob : blob_state;
  admins_blob : blob_state;
  blob_writable : bool
}.

(** The environment variables read at start-up, and whether
    [require('@vercel/blob')] succeeded. *)
Record config : Type := {
  BLOB_READ_WRITE_TOKEN : option string;
  blob_sdk : bool;
  VERCEL : option string;
  PRODUCTION_URL : option string;
  DASHBOARD_SYNC_SECRET : option string;
  SMTP_HOST : option string;
  SMTP_USER : option string;
  SMTP_PASS : option string
}.

(** An environment variable as a value: [undefined] when unset. *)
Definition env (x : option string) : value :=
  match x with
  | Some s => VStr s
  | None => VUndefined
  end.

(** [USE_BLOB = !!BLOB_TOKEN] *)
Definition USE_BLOB (cfg : config) : bool :=
  truthy (env (BLOB_READ_WRITE_TOKEN cfg)).

(** [blobGet] and [blobPut] are assigned together, inside [if (USE_BLOB)],
    when the [require] did not throw. *)
Definition blobGet (cfg : config) : bool := USE_BLOB cfg && blob_sdk cfg.
Definition blobPut (cfg : config) : bool := USE_BLOB cfg && blob_sdk cfg.

Definition file_of (w : world) (p : file_path) : file_state :=
  match p with
  | PRODUCTS_FILE => products_file w
  | ORDERS_FILE => orders_file w
  | ADMINS_FILE => admins_file w
  end.

Definition set_file (w : world) (p : file_path) (st : file_state) : world :=
  match p with
  | PRODUCTS_FILE =>
      {| products_file := st; orders_file := orders_file w;
         admins_file := admins_file w; fs_writable := fs_writable w;
         orders_blob := orders_blob w; admins_blob := admins_blob w;
         blob_writable := blob_writable w |}
  | ORDERS_FILE =>
      {| products_file := products_file w; orders_file := st;
         admins_file := admins_file w; fs_writable := fs_writable w;
         orders_blob := orders_blob w; admins_blob := admins_blob w;
         blob_writable := blob_writable w |}
  | ADMINS_FILE =>
      {| products_file := products_file w; orders_file := orders_file w;
         admins_file := st; fs_writable := fs_writable w;
         orders_blob := orders_blob w; admins_blob := admins_blob w;
         blob_writable := blob_writable w |}
  end.

Definition blob_of (w : world) (p : blob_path) : blob_state :=
  match p with
  | ORDERS_BLOB => orders_blob w
  | ADMINS_BLOB => admins_blob w
  end.

Definition set_blob (w : world) (p : blob_path) (st : blob_state) : world :=
  match p with
  | ORDERS_BLOB =>
      {| products_file := products_file w; orders_file := orders_file w;
         admins_file := admins_file w; fs_writable := fs_writable w;
         orders_blob := st; admins_blob := admins_blob w;
         blob_writable := blob_writable w |}
  | ADMINS_BLOB =>
      {| products_file := products_file w; orders_file := orders_file w;
         admins_file := admins_file w; fs_writable := fs_writable w;
         orders_blob := orders_blob w; admins_blob := st;
         blob_writable := blob_writable w |}
  end.

(** [readJson(filePath, fallback)], always called with a fallback.  The
    whole body sits in a [try]: a missing file is created from the
    fallback (and when that write throws, the [catch] returns the fallback
    all the same); a file that cannot be read or parsed gives the
    fallback. *)
Definition readJson (p : file_path) (fallback : value) (w : world)
  : value * world :=
  match file_of w p with
  | FileAbsent =>
      if fs_writable w
      then (fallback, set_file w p (FileHolds (json_clean fallback)))
      else (fallback, w)
  | FileHolds doc => (doc, w)
  | FileUnreadable => (fallback, w)
  end.

(** [JSON.stringify(data, null, 2)] has no text for [undefined]: it
    returns [undefined]. *)
Definition has_json_text (data : value) : bool :=
  match data with
  | VUndefined => false
  | _ => true
  end.

(** [writeJson(filePath, data)]: the [catch] logs and returns.
    [fs.writeFileSync] throws when it is given [undefined] for the data,
    as it does when the file cannot be written. *)
Definition writeJson (p : file_path) (data : value) (w : world) : world :=
  if has_json_text data && fs_writable w
  then set_file w p (FileHolds (json_clean data))
  else w.

(** [readBlobJson(pathname, fallback)] *)
Definition readBlobJson (cfg : config) (p : blob_path) (fallback : value)
  (w : world) : value :=
  if negb (blobGet cfg) then fallback
  else match blob_of w p with
       | BlobHolds doc => doc
       | BlobMissing | BlobUnavailable => fallback
       end.

(** [writeBlobJson(pathname, data)]: the [catch] logs and throws again.
    [put] throws when it is given no body, as it does when the store
    refuses the upload. *)
Definition writeBlobJson (cfg : config) (p : blob_path) (data : value)
  (w : world) : result unit * world :=
  if negb (blobPut cfg) then (Ok tt, w)
  else if has_json_text data && blob_writable w
       then (Ok tt, set_blob w p (BlobHolds (json_clean data)))
       else (Throw StorageError, w).

(* ===================================================================== *)
(** ** PersistenceGateway *)
(* ===================================================================== *)

Definition readOrders (cfg : config) (w : world) : value * world :=
  if USE_BLOB cfg && blobGet cfg
  then (readBlobJson cfg ORDERS_BLOB (VArr []) w, w)
  else readJson ORDERS_FILE (VArr []) w.

Definition writeOrders (cfg : config) (orders : value) (w : world)
  : result unit * world :=
  if USE_BLOB cfg && blobPut cfg
  then writeBlobJson cfg ORDERS_BLOB orders w
  else (Ok tt, writeJson ORDERS_FILE orders w).

Definition readAdmins (cfg : config) (w : world) : value * world :=
  if USE_BLOB cfg && blobGet cfg
  then (readBlobJson cfg ADMINS_BLOB (VArr []) w, w)
  else readJson ADMINS_FILE (VArr []) w.

Definition writeAdmins (cfg : config) (admins : value) (w : world)
  : result unit * world :=
  if USE_BLOB cfg && blobPut cfg
  then writeBlobJson cfg ADMINS_BLOB admins w
  else (Ok tt, writeJson ADMINS_FILE admins w).

(** What a handler leaves the client with: a response, or nothing when
    the [async] handler rejected outside any [try]. *)
Inductive reply : Type :=
  | Reply (status : Z) (body : value)
  | Unhandled (e : exn).

Definition error_body (msg : string) : value :=
  VObj [("error", VStr msg)].

(** The two clock reads of a handler: [Date.now()] and
    [new Date().toISOString()]. *)
Record clock : Type := {
  now : Z;
  iso : string
}.

(** [`${n}`] for an integer-valued number. *)
Definition decimal (n : Z) : string :=
  NilEmpty.string_of_int (Z.to_int n).

(* ===================================================================== *)
(** ** [escapeHtml] of the server *)
(* ===================================================================== *)

(** [s.replace(/c/g, by)] for a single character [c]. *)
Fixpoint replace_all (c : ascii) (by_ : string) (s : string) : string :=
  match s with
  | EmptyString => EmptyString
  | String x rest =>
      if Ascii.eqb x c then by_ ++ replace_all c by_ rest
      else String x (replace_all c by_ rest)
  end.

Section Escaping.
Context {RT : Runtime}.

(** [escapeHtml(str)]: [String(str)], then the four replacements in the
    order of the source. *)
Definition escapeHtml (str : value) : result string :=
  if nullish str then Ok ""
  else
    text <- ToString str ;;
    Ok (replace_all "034"%char "&quot;"
          (replace_all ">"%char "&gt;"
             (replace_all "<"%char "&lt;"
                (replace_all "&"%char "&amp;" text)))).
End Escaping.

(* ===================================================================== *)
(** ** OrderLedger: [POST /api/checkout] *)
(* ===================================================================== *)

(** What the handler did: the response, the order handed to
    [sendOrderConfirmationEmail] (when the handler got that far), and the
    world it leaves.  What the mail transport does with the order is
    not part of it. *)
Record outcome : Type := {
  response : reply;
  notified : option value;
  after : world
}.

Definition respond (r : reply) (w : world) : outcome :=
  {| response := r; notified := None; after := w |}.

Section Checkout.
Context {RT : Runtime}.

(** [products.map((p) => [p.id, p])] *)
Fixpoint product_pairs (products : list value)
  : result (list (value * value)) :=
  match products with
  | [] => Ok []
  | p :: rest =>
      id <- get p "id" ;;
      pairs <- product_pairs rest ;;
      Ok ((id, p) :: pairs)
  end.

(** [new Map(products.map(...))]; [products.map] is a TypeError when
    the catalog file does not hold an array. *)
Definition build_product_map (products : value) : result (jsmap value) :=
  match products with
  | VArr ps => pairs <- product_pairs ps ;; Ok (map_of_pairs pairs)
  | _ => Throw TypeError
  end.

(** [productMap.get(id)] *)
Definition lookup_product (productMap : jsmap value) (id : value) : value :=
  match map_get productMap id with
  | Some p => p
  | None => VUndefined
  end.

(** [Number(item.quantity) || 1] *)
Definition coerce_quantity (q : value) : result float :=
  n <- ToNumber q ;;
  Ok (if truthy_num n then n else 1%float).

(** The object pushed on [items]. *)
Definition line_item (item product : value) (quantity lineTotal : float)
  : value :=
  VObj [ ("productId", prop product "id");
         ("name", prop product "name");
         ("category", prop product "category");
         ("price", prop product "price");
         ("quantity", VNum quantity);
         ("size", js_or (prop item "size")
                    (js_or (prop product "size") (VStr "Medium")));
         ("color", js_or (prop item "color")
                     (js_or (prop product "color") (VStr "")));
         ("lineTotal", VNum lineTotal) ].

(** The [for (const item of cartItems)] loop, with its two
    accumulators. *)
Fixpoint resolve_items (productMap : jsmap value) (cart : list value)
  (total : float) (items : list value) : result (float * list value) :=
  match cart with
  | [] => Ok (total, items)
  | item :: rest =>
      id <- get item "productId" ;;
      let product := lookup_product productMap id in
      if negb (truthy product)
      then resolve_items productMap rest total items
      else
        quantity <- coerce_quantity (prop item "quantity") ;;
        price <- ToNumber (prop product "price") ;;
        let lineTotal := (price * quantity)%float in
        resolve_items productMap rest (total + lineTotal)%float
          (items ++ [line_item item product quantity lineTotal])
  end.

(** [const { cartItems, customer } = req.body || {}] *)
Definition request_fields (body : value) : value * value :=
  let b := js_or body (VObj []) in
  (prop b "cartItems", prop b "customer").

(** [!customer || !customer.name || !customer.email || !customer.address] *)
Definition customer_incomplete (customer : value) : bool :=
  negb (truthy customer)
  || negb (truthy (prop customer "name"))
  || negb (truthy (prop customer "email"))
  || negb (truthy (prop customer "address")).

(** Where the handler stands when it reaches [await readOrders()]. *)
Inductive prepared : Type :=
  | Respond (r : reply)
  | Proceed (total : float) (items : list value) (customer : value).

(** The handler up to [await readOrders()]. *)
Definition checkout_prepare (body : value) (w : world) : prepared * world :=
  let (cartItems, customer) := request_fields body in
  match cartItems with
  | VArr ((_ :: _) as cart) =>
      if customer_incomplete customer
      then (Respond (Reply 400
              (error_body "Missing required customer information.")), w)
      else
        let (products, w1) := readJson PRODUCTS_FILE (VArr []) w in
        match build_product_map products with
        | Throw e => (Respond (Unhandled e), w1)
        | Ok productMap =>
            match resolve_items productMap cart 0%float [] with
            | Throw e => (Respond (Unhandled e), w1)
            | Ok (_, []) =>
                (Respond (Reply 400
                   (error_body "Cart items are invalid.")), w1)
            | Ok (total, items) => (Proceed total items customer, w1)
            end
        end
  | _ => (Respond (Reply 400 (error_body "Cart is empty.")), w)
  end.

(** [`ORD-${Date.now()}`] *)
Definition order_id (clk : clock) : string :=
  "ORD-" ++ decimal (now clk).

Definition make_order (clk : clock) (total : float) (items : list value)
  (customer : value) : value :=
  VObj [ ("id", VStr (order_id clk));
         ("createdAt", VStr (iso clk));
         ("total", VNum total);
         ("items", VArr items);
         ("customer",
           VObj [ ("name", prop customer "name");
                  ("email", prop customer "email");
                  ("phone", js_or (prop customer "phone") (VStr ""));
                  ("address", prop customer "address");
                  ("city", js_or (prop customer "city") (VStr ""));
                  ("postalCode",
                    js_or (prop customer "postalCode") (VStr ""));
                  ("country", js_or (prop customer "country") (VStr "")) ])
       ].

(** [orders.push(order)]: a TypeError when what was read is no array. *)
Definition push (orders order : value) : result value :=
  match orders with
  | VArr l => Ok (VArr (l ++ [order]))
  | _ => Throw TypeError
  end.

Definition placed_body (clk : clock) : value :=
  VObj [ ("success", VBool true);
         ("orderId", VStr (order_id clk));
         ("message", VStr "Order placed successfully!") ].

(** From the moment [await readOrders()] delivers to the call of
    [writeOrders]: the identifier is drawn, the order built and pushed
    on the array that was read. *)
Definition checkout_append (clk : clock) (total : float)
  (items : list value) (customer : value) (orders : value)
  : result (value * value) :=
  let order := make_order clk total items customer in
  orders' <- push orders order ;;
  Ok (order, orders').

(** [getMailTransporter()] returns a transporter: the three variables
    are set. *)
Definition mail_configured (cfg : config) : bool :=
  truthy (env (SMTP_HOST cfg)) && truthy (env (SMTP_USER cfg))
  && truthy (env (SMTP_PASS cfg)).

(** [l.map(f)] for a callback that can throw: the first exception ends
    the call. *)
Fixpoint each {A B : Type} (f : A -> result B) (l : list A)
  : result (list B) :=
  match l with
  | [] => Ok []
  | x :: rest =>
      y <- f x ;;
      ys <- each f rest ;;
      Ok (y :: ys)
  end.

(** [v.map(f)] on an arbitrary value: only an array has the method. *)
Definition call_map {B : Type} (v : value) (f : value -> result B)
  : result (list B) :=
  match v with
  | VArr l => each f l
  | _ => Throw TypeError
  end.

(** [buildOrderEmailText(order)].  What is kept of the text is what the
    template literals substitute, in the order they convert it: the
    mail goes to the transport and nothing looks at it again. *)
Definition buildOrderEmailText (order : value) : result (list string) :=
  items <- get order "items" ;;
  lines <- call_map items
             (fun i =>
                item_name <- get i "name" ;;
                name <- ToString item_name ;;
                quantity <- ToString (prop i "quantity") ;;
                lineTotal <- call_toFixed (prop i "lineTotal") ;;
                Ok [name; quantity; lineTotal]) ;;
  customer <- get order "customer" ;;
  customer_name <- get customer "name" ;;
  name <- ToString customer_name ;;
  id <- ToString (prop order "id") ;;
  total <- call_toFixed (prop order "total") ;;
  Ok (name :: id :: concat lines ++ [total]).

(** [buildOrderEmailHtml(order)], kept the same way. *)
Definition buildOrderEmailHtml (order : value) : result (list string) :=
  items <- get order "items" ;;
  rows <- call_map items
            (fun i =>
               item_name <- get i "name" ;;
               name <- escapeHtml item_name ;;
               quantity <- ToString (prop i "quantity") ;;
               price <- call_toFixed (prop i "price") ;;
               lineTotal <- call_toFixed (prop i "lineTotal") ;;
               Ok [name; quantity; price; lineTotal]) ;;
  customer <- get order "customer" ;;
  customer_name <- get customer "name" ;;
  name <- escapeHtml customer_name ;;
  id <- escapeHtml (prop order "id") ;;
  total <- call_toFixed (prop order "total") ;;
  Ok (name :: id :: concat rows ++ [total]).

(** [sendOrderConfirmationEmail(order)], as far as the handler waits for
    it: the subject, the text and the HTML are built before
    [transporter.sendMail] is called, and what the transport does with
    them comes back through its callback, after the response. *)
Definition sendOrderConfirmationEmail (cfg : config) (order : value)
  : result unit :=
  if negb (mail_configured cfg) then Ok tt
  else
    customer <- get order "customer" ;;
    if negb (truthy (get_opt customer "email")) then Ok tt
    else
      subject <- ToString (prop order "id") ;;
      text <- buildOrderEmailText order ;;
      html <- buildOrderEmailHtml order ;;
      Ok tt.

(** From [await writeOrders(orders)] to the response. *)
Definition checkout_write (cfg : config) (clk : clock)
  (order orders' : value) (w : world) : outcome :=
  match writeOrders cfg orders' w with
  | (Throw e, w3) => respond (Unhandled e) w3
  | (Ok _, w3) =>
      match sendOrderConfirmationEmail cfg order with
      | Throw e =>
          {| response := Unhandled e; notified := Some order; after := w3 |}
      | Ok _ =>
          {| response := Reply 200 (placed_body clk);
             notified := Some order;
             after := w3 |}
      end
  end.

(** The handler from [await readOrders()] on, nothing else touching
    the store in between. *)
Definition checkout_commit (cfg : config) (clk : clock) (total : float)
  (items : list value) (customer : value) (w : world) : outcome :=
  let (orders, w2) := readOrders cfg w in
  match checkout_append clk total items customer orders with
  | Throw e => respond (Unhandled e) w2
  | Ok (order, orders') => checkout_write cfg clk order orders' w2
  end.

(** [app.post('/api/checkout', ...)], run without another request in
    between. *)
Definition checkout (cfg : config) (clk : clock) (body : value) (w : world)
  : outcome :=
  match checkout_prepare body w with
  | (Respond r, w1) => respond r w1
  | (Proceed total items customer, w1) =>
      checkout_commit cfg clk total items customer w1
  end.
End Checkout.

(* ===================================================================== *)
(** ** Requests in flight *)
(* ===================================================================== *)

(** With the blob store behind the gateway, [await readOrders()] and
    [await writeOrders(orders)] are network round trips: the handler is
    suspended there and other requests run.  A request in flight is at one
    of those two points, or has not started, or is done. *)
Inductive stage : Type :=
  | Arrived (body : value)
  | Reading (total : float) (items : list value) (customer : value)
  | Writing (clk : clock) (order orders' : value)
  | Settled (r : reply) (mail : option value).

Section InFlight.
Context {RT : Runtime}.

(** One request runs from where it is suspended to its next
    suspension.  The clock is the one read in that stretch. *)
Definition advance (cfg : config) (clk : clock) (s : stage) (w : world)
  : stage * world :=
  match s with
  | Arrived body =>
      match checkout_prepare body w with
      | (Respond r, w1) => (Settled r None, w1)
      | (Proceed total items customer, w1) =>
          (Reading total items customer, w1)
      end
  | Reading total items customer =>
      let (orders, w2) := readOrders cfg w in
      match checkout_append clk total items customer orders with
      | Throw e => (Settled (Unhandled e) None, w2)
      | Ok (order, orders') => (Writing clk order orders', w2)
      end
  | Writing clk0 order orders' =>
      let o := checkout_write cfg clk0 order orders' w in
      (Settled (response o) (notified o), after o)
  | Settled _ _ => (s, w)
  end.

Fixpoint replace_nth {A : Type} (i : nat) (x : A) (l : list A) : list A :=
  match l, i with
  | [], _ => []
  | _ :: rest, O => x :: rest
  | y :: rest, S j => y :: replace_nth j x rest
  end.

(** The event loop resumes request [i]. *)
Definition resume (cfg : config) (st : world * list stage)
  (ev : nat * clock) : world * list stage :=
  let (w, reqs) := st in
  let (i, clk) := ev in
  match nth_error reqs i with
  | None => st
  | Some s =>
      let (s', w') := advance cfg clk s w in
      (w', replace_nth i s' reqs)
  end.

Definition run (cfg : config) (schedule : list (nat * clock))
  (st : world * list stage) : world * list stage :=
  fold_left (resume cfg) schedule st.

(** Requests handled one after the other, each to its response. *)
Fixpoint place_all (cfg : config) (reqs : list (clock * value)) (w : world)
  : list outcome * world :=
  match reqs with
  | [] => ([], w)
  | (clk, body) :: rest =>
      let o := checkout cfg clk body w in
      let (os, w') := place_all cfg rest (after o) in
      (o :: os, w')
  end.
End InFlight.

(** The order ledger as the gateway reads it. *)
Definition ledger (cfg : config) (w : world) : value :=
  fst (readOrders cfg w).

(** The admin directory as the gateway reads it. *)
Definition directory (cfg : config) (w : world) : value :=
  fst (readAdmins cfg w).

(** Whether a write through the gateway reaches the backing store: the
    blob store has to take the upload, or else the data directory has to
    be writable. *)
Definition writes_land (cfg : config) (w : world) : bool :=
  if USE_BLOB cfg && blobPut cfg then blob_writable w else fs_writable w.

(** The response a request in flight has got, if any. *)
Definition answered (s : stage) : option reply :=
  match s with
  | Settled r _ => Some r
  | _ => None
  end.

(** Every order of [old] that has a string for an identifier is still
    in [stored], at the same place and under the same identifier. *)
Definition keeps_ids (old stored : list value) : Prop :=
  forall (i : nat) (x : value) (id : string),
    nth_error old i = Some x ->
    prop x "id" = VStr id ->
    exists y, nth_error stored i = Some y /\ prop y "id" = VStr id.

Definition elements (v : value) : list value :=
  match v with
  | VArr l => l
  | _ => []
  end.

(** The identifiers in a ledger. *)
Definition ids (v : value) : list value :=
  map (fun o => prop o "id") (elements v).

(* ===================================================================== *)
(** ** AdminDirectory: [POST /api/admin/signup], [POST /api/admin/login] *)
(* ===================================================================== *)

(** [req.session]: the admin identifier it carries, and whether
    [req.session.save] exists and calls back with an error. *)
Record session : Type := {
  adminUserId : value;
  save_fails : bool
}.

Record admin_outcome : Type := {
  admin_response : reply;
  admin_session : session;
  admin_after : world
}.

Section AdminDirectory.
Context {RT : Runtime}.

(** [admins.find((a) => a.email.toLowerCase() === email.toLowerCase())] *)
Fixpoint find_by_email (admins : list value) (email : value)
  : result (option value) :=
  match admins with
  | [] => Ok None
  | a :: rest =>
      ae <- get a "email" ;;
      la <- call_toLowerCase ae ;;
      le <- call_toLowerCase email ;;
      if strict_eq la le then Ok (Some a) else find_by_email rest email
  end.

Definition find_admin (admins email : value) : result value :=
  match admins with
  | VArr l =>
      found <- find_by_email l email ;;
      Ok (match found with Some a => a | None => VUndefined end)
  | _ => Throw TypeError
  end.

(** [bcrypt.hash(password, 10)]: rejects unless given a string. *)
Definition hash_password (password : value) (salt : string)
  : result string :=
  match password with
  | VStr p => Ok (bcrypt_hash p salt)
  | _ => Throw BcryptError
  end.

(** [bcrypt.compare(password, admin.passwordHash)]: rejects unless
    given two strings. *)
Definition compare_password (password hash : value) : result bool :=
  match password, hash with
  | VStr p, VStr h => Ok (bcrypt_compare p h)
  | _, _ => Throw BcryptError
  end.

(** [req.session.adminUserId = admin.id] and the save that follows. *)
Definition establish (id : value) (s : session) (w : world)
  : admin_outcome :=
  let s' := {| adminUserId := id; save_fails := save_fails s |} in
  {| admin_response :=
       if save_fails s
       then Reply 500 (error_body "Session error. Please try again.")
       else Reply 200 (VObj [("success", VBool true)]);
     admin_session := s';
     admin_after := w |}.

Definition admin_respond (r : reply) (s : session) (w : world)
  : admin_outcome :=
  {| admin_response := r; admin_session := s; admin_after := w |}.

Definition make_admin (clk : clock) (name email : value)
  (passwordHash : string) : value :=
  VObj [ ("id", VStr ("admin-" ++ decimal (now clk)));
         ("name", name);
         ("email", email);
         ("passwordHash", VStr passwordHash);
         ("createdAt", VStr (iso clk)) ].

(** [const { name, email, password } = req.body || {}] *)
Definition signup_fields (body : value) : value * value * value :=
  let b := js_or body (VObj []) in
  (prop b "name", prop b "email", prop b "password").

(** [const { email, password } = req.body || {}] *)
Definition credentials (body : value) : value * value :=
  let b := js_or body (VObj []) in
  (prop b "email", prop b "password").

(** The handler of [POST /api/admin/signup]. *)
Definition signup (cfg : config) (clk : clock) (salt : string)
  (body : value) (s : session) (w : world) : admin_outcome :=
  let '(name, email, password) := signup_fields body in
  if negb (truthy name) || negb (truthy email) || negb (truthy password)
  then admin_respond
         (Reply 400 (error_body "Name, email and password are required."))
         s w
  else
    let (admins, w1) := readAdmins cfg w in
    match find_admin admins email with
    | Throw e => admin_respond (Unhandled e) s w1
    | Ok existing =>
        if truthy existing
        then admin_respond
               (Reply 409
                  (error_body "An account with this email already exists."))
               s w1
        else
          match hash_password password salt with
          | Throw e => admin_respond (Unhandled e) s w1
          | Ok passwordHash =>
              let admin := make_admin clk name email passwordHash in
              match push admins admin with
              | Throw e => admin_respond (Unhandled e) s w1
              | Ok admins' =>
                  match writeAdmins cfg admins' w1 with
                  | (Throw e, w2) => admin_respond (Unhandled e) s w2
                  | (Ok _, w2) => establish (prop admin "id") s w2
                  end
              end
          end
    end.

(** The handler of [POST /api/admin/login]. *)
Definition login (cfg : config) (body : value) (s : session) (w : world)
  : admin_outcome :=
  let (email, password) := credentials body in
  if negb (truthy email) || negb (truthy password)
  then admin_respond
         (Reply 400 (error_body "Email and password are required.")) s w
  else
    let (admins, w1) := readAdmins cfg w in
    match find_admin admins email with
    | Throw e => admin_respond (Unhandled e) s w1
    | Ok admin =>
        if negb (truthy admin)
        then admin_respond
               (Reply 401 (error_body "Invalid email or password.")) s w1
        else
          match compare_password password (prop admin "passwordHash") with
          | Throw e => admin_respond (Unhandled e) s w1
          | Ok matches =>
              if negb matches
              then admin_respond
                     (Reply 401 (error_body "Invalid email or password."))
                     s w1
              else establish (prop admin "id") s w1
          end
    end.
(** The identity of an account: its email, lowercased. *)
Definition email_key (a : value) : option string :=
  match prop a "email" with
  | VStr e => Some (toLowerCase e)
  | _ => None
  end.

(** The invariant of the directory: every account has an email, and no
    two accounts have emails that are equal once lowercased. *)
Definition directory_ok (admins : list value) : Prop :=
  Forall (fun a => email_key a <> None) admins
  /\ NoDup (map email_key admins).

(** The predicate of [admins.find] on a well-formed account. *)
Definition same_email (e : string) (a : value) : bool :=
  match email_key a with
  | Some k => (k =? toLowerCase e)%string
  | None => false
  end.
End AdminDirectory.

(* ===================================================================== *)
(** ** SyncProtocol: [GET /api/dashboard-sync] and
       [POST /api/admin/sync-from-production] *)
(* ===================================================================== *)

(** What [await fetch(url)] resolved to, as far as the handler looks at
    it: [response.ok], [response.status], and what [response.text()] and
    [response.json()] give. *)
Record http_response : Type := {
  ok : bool;
  status : Z;
  text : result string;
  json : result value
}.

(** [s.replace(/\/+$/, '')] *)
Fixpoint strip_trailing_slashes (s : string) : string :=
  match s with
  | EmptyString => EmptyString
  | String c rest =>
      let rest' := strip_trailing_slashes rest in
      if (rest' =? "") && (Ascii.eqb c "/"%char) then EmptyString
      else String c rest'
  end.

(** [n] as a JavaScript number, for an array length. *)
Definition num_of_nat (n : nat) : float :=
  of_uint63 (Uint63.of_Z (Z.of_nat n)).

Section Sync.
Context {RT : Runtime}.

Definition or_text (s fallback : string) : string :=
  if s =? "" then fallback else s.

(** The handler of [GET /api/dashboard-sync]; [query_secret] is
    [req.query.secret] and [authorization] the header of that name. *)
Definition dashboard_sync (cfg : config) (query_secret : value)
  (authorization : option string) (w : world) : reply * world :=
  let secret := env (DASHBOARD_SYNC_SECRET cfg) in
  let header := match authorization with
                | Some h => h
                | None => ""
                end in
  let provided := js_or query_secret (VStr (stripBearer header)) in
  if negb (truthy secret) || negb (strict_eq provided secret)
  then (Reply 401 (error_body "Unauthorized"), w)
  else
    let (orders, w1) := readOrders cfg w in
    let (admins, w2) := readAdmins cfg w1 in
    (Reply 200 (VObj [ ("orders", js_or orders (VArr []));
                       ("admins", js_or admins (VArr [])) ]), w2).

(** [Array.isArray(x) ? x : []] *)
Definition array_or_empty (x : value) : value :=
  if isArray x then x else VArr [].

(** The [catch] of the import: [{ error: e.message || 'Sync failed' }]. *)
Definition sync_failed (e : exn) : reply :=
  Reply 500 (error_body (or_text (message e) "Sync failed")).

(** The handler of [POST /api/admin/sync-from-production]; [fetched] is
    what [await fetch(url)] gave, a thrown error included. *)
Definition sync_from_production (cfg : config)
  (fetched : result http_response) (w : world) : reply * world :=
  if strict_eq (env (VERCEL cfg)) (VStr "1")
  then (Reply 400 (error_body
          "Sync from production is only available when running the dashboard locally."),
        w)
  else
    let baseUrl :=
      strip_trailing_slashes
        (match PRODUCTION_URL cfg with Some u => u | None => "" end) in
    let secret := env (DASHBOARD_SYNC_SECRET cfg) in
    if (baseUrl =? "") || negb (truthy secret)
    then (Reply 400 (error_body
            "Set PRODUCTION_URL and DASHBOARD_SYNC_SECRET in .env.local to sync from production."),
          w)
    else
      match fetched with
      | Throw e => (sync_failed e, w)
      | Ok resp =>
          if negb (ok resp)
          then match text resp with
               | Throw e => (sync_failed e, w)
               | Ok t =>
                   (Reply (status resp) (error_body (or_text t "Sync failed")),
                    w)
               end
          else
            match json resp with
            | Throw e => (sync_failed e, w)
            | Ok data =>
                match get data "orders" with
                | Throw e => (sync_failed e, w)
                | Ok fetched_orders =>
                    let orders := array_or_empty fetched_orders in
                    let admins := array_or_empty (prop data "admins") in
                    match writeOrders cfg orders w with
                    | (Throw e, w1) => (sync_failed e, w1)
                    | (Ok _, w1) =>
                        match writeAdmins cfg admins w1 with
                        | (Throw e, w2) => (sync_failed e, w2)
                        | (Ok _, w2) =>
                            (Reply 200
                               (VObj [ ("success", VBool true);
                                       ("orders",
                                         VNum (num_of_nat
                                                 (length (elements orders))));
                                       ("admins",
                                         VNum (num_of_nat
                                                 (length (elements admins))))
                                     ]),
                             w2)
                        end
                    end
                end
            end
      end.
End Sync.

(* ===================================================================== *)
(** ** CustomerAggregator: the fold of [GET /api/export-customers] *)
(* ===================================================================== *)

(** The object kept per email in [byEmail]. *)
Record customer : Type := {
  c_name : value;
  c_email : value;
  c_phone : value;
  c_address : value;
  c_city : value;
  c_postalCode : value;
  c_country : value;
  c_orders : float;
  c_totalSpend : value
}.

Section Customers.
Context {RT : Runtime}.

(** [order.customer?.email?.toLowerCase?.()] *)
Definition order_email (order : value) : result value :=
  cust <- get order "customer" ;;
  opt_call_toLowerCase (get_opt cust "email").

(** [order.customer?.f] *)
Definition customer_field (order : value) (f : string) : value :=
  get_opt (prop order "customer") f.

(** The object literal on the right of [byEmail.get(email) || ...]. *)
Definition fresh (email order : value) : customer :=
  {| c_name := js_or (customer_field order "name") (VStr "");
     c_email := email;
     c_phone := js_or (customer_field order "phone") (VStr "");
     c_address := js_or (customer_field order "address") (VStr "");
     c_city := js_or (customer_field order "city") (VStr "");
     c_postalCode := js_or (customer_field order "postalCode") (VStr "");
     c_country := js_or (customer_field order "country") (VStr "");
     c_orders := 0%float;
     c_totalSpend := VNum 0%float |}.

(** [if (!existing.f && order.customer?.f) existing.f = order.customer.f] *)
Definition backfill (current : value) (order : value) (f : string) : value :=
  if negb (truthy current) && truthy (customer_field order f)
  then customer_field order f
  else current.

(** [order.total || 0] *)
Definition order_total (order : value) : value :=
  js_or (prop order "total") (VNum 0%float).

(** The updates of one loop turn on [existing]; the [+=] on
    [totalSpend] is the one that can throw. *)
Definition absorb (existing : customer) (order : value) : result customer :=
  totalSpend <- js_add (c_totalSpend existing) (order_total order) ;;
  Ok {| c_name := backfill (c_name existing) order "name";
        c_email := c_email existing;
        c_phone := backfill (c_phone existing) order "phone";
        c_address := backfill (c_address existing) order "address";
        c_city := backfill (c_city existing) order "city";
        c_postalCode := backfill (c_postalCode existing) order "postalCode";
        c_country := backfill (c_country existing) order "country";
        c_orders := (c_orders existing + 1)%float;
        c_totalSpend := totalSpend |}.

(** The [for (const order of orders)] loop. *)
Fixpoint aggregate_loop (orders : list value) (byEmail : jsmap customer)
  : result (jsmap customer) :=
  match orders with
  | [] => Ok byEmail
  | order :: rest =>
      email <- order_email order ;;
      if negb (truthy email) then aggregate_loop rest byEmail
      else
        let existing := match map_get byEmail email with
                        | Some c => c
                        | None => fresh email order
                        end in
        updated <- absorb existing order ;;
        aggregate_loop rest (map_set byEmail email updated)
  end.

(** [customers], from the orders that were read. *)
Definition aggregate (orders : list value) : result (list customer) :=
  byEmail <- aggregate_loop orders [] ;;
  Ok (map_values byEmail).

(** The handler up to [const customers = ...]; the PDF that follows is
    drawn from that list. *)
Definition export_customers (cfg : config) (w : world)
  : result (list customer) * world :=
  let (raw, w1) := readOrders cfg w in
  (aggregate (elements (if isArray raw then raw else VArr [])), w1).

(** *** The aggregation as the specification words it *)

(** The orders of one customer: those whose lowercased email is [k]. *)
Definition has_email (k : string) (order : value) : bool :=
  match order_email order with
  | Ok (VStr e) => (e =? k)%string
  | _ => false
  end.

Definition orders_of (k : string) (orders : list value) : list value :=
  filter (has_email k) orders.

(** The non-empty lowercased emails of the orders, in scan order. *)
Definition emails (orders : list value) : list string :=
  flat_map (fun o => match order_email o with
                     | Ok (VStr e) => if (e =? "")%string then [] else [e]
                     | _ => []
                     end) orders.

(** The distinct entries of a list, each where it first occurs. *)
Definition first_seen (l : list string) : list string :=
  fold_left (fun seen e => if existsb (String.eqb e) seen then seen
                           else seen ++ [e]) l [].

(** The first non-empty value in scan order, the empty string when
    there is none. *)
Definition first_non_empty (vals : list value) : value :=
  match find truthy vals with
  | Some v => v
  | None => VStr ""
  end.

(** A count kept as a number: [n] increments of [0]. *)
Definition counted (n : nat) : float :=
  Nat.iter n (fun x => (x + 1)%float) 0%float.

(** A sum kept in scan order, from [0]: each total is added as the
    primitive it converts to. *)
Definition summed (totals : list value) : value :=
  fold_left (fun sum total => add_primitives sum (primitive_of total))
    totals (VNum 0%float).

(** The customer the specification derives from the orders of [k]. *)
Definition spec_customer (k : string) (group : list value) : customer :=
  let field f := first_non_empty (map (fun o => customer_field o f) group) in
  {| c_name := field "name";
     c_email := VStr k;
     c_phone := field "phone";
     c_address := field "address";
     c_city := field "city";
     c_postalCode := field "postalCode";
     c_country := field "country";
     c_orders := counted (length group);
     c_totalSpend := summed (map order_total group) |}.

(** [byEmail] as the specification has it after the orders scanned so
    far. *)
Definition by_email_after (done : list value) : jsmap customer :=
  map (fun k => (VStr k, spec_customer k (orders_of k done)))
    (first_seen (emails done)).

(** One customer per distinct email, in the order the emails first
    occur. *)
Definition spec_aggregate (orders : list value) : list customer :=
  map (fun k => spec_customer k (orders_of k orders))
    (first_seen (emails orders)).

(** An order the loop gets past: its customer's email can be read, and
    when there is an email the order's total converts to a primitive. *)
Definition aggregable (order : value) : Prop :=
  exists email : value,
    order_email order = Ok email
    /\ (truthy email = true -> convertible (order_total order) = true).
End Customers.

(* ===================================================================== *)
(** ** What the checkout loop computes, entry by entry *)
(* ===================================================================== *)

Definition is_object (v : value) : bool :=
  match v with
  | VObj _ => true
  | _ => false
  end.

Definition sum_floats (l : list float) : float :=
  fold_left PrimFloat.add l 0%float.

(** The [lineTotal]s of a list of line items. *)
Definition line_totals (items : list value) : list float :=
  map (fun li => match prop li "lineTotal" with
                 | VNum n => n
                 | _ => nan
                 end) items.

Section Lines.
Context {RT : Runtime}.

(** The entry resolves: [productMap.get(item.productId)] is truthy. *)
Definition accepted (productMap : jsmap value) (item : value) : bool :=
  truthy (lookup_product productMap (prop item "productId")).

(** [Number(q) || 1] when the conversion returns. *)
Definition quantity_of (q : value) : float :=
  if truthy_num (number_of q) then number_of q else 1%float.

(** Catalog price times coerced quantity. *)
Definition line_total (productMap : jsmap value) (item : value) : float :=
  (number_of (prop (lookup_product productMap (prop item "productId")) "price")
   * quantity_of (prop item "quantity"))%float.

(** The line item of a resolved entry. *)
Definition priced (productMap : jsmap value) (item : value) : value :=
  line_item item (lookup_product productMap (prop item "productId"))
    (quantity_of (prop item "quantity")) (line_total productMap item).

(** The loop gets past the entry: it is not [null] or [undefined], and
    when it resolves its quantity and the price of its product convert
    to numbers. *)
Definition priceable (productMap : jsmap value) (item : value) : bool :=
  negb (nullish item)
  && (negb (accepted productMap item)
      || convertible (prop item "quantity")
         && convertible
              (prop (lookup_product productMap (prop item "productId"))
                 "price")).

(** Two cart entries that agree on the four properties the loop reads;
    any other property, a [price] among them, may differ. *)
Definition same_order_fields (a b : value) : Prop :=
  nullish a = nullish b
  /\ prop a "productId" = prop b "productId"
  /\ prop a "quantity" = prop b "quantity"
  /\ prop a "size" = prop b "size"
  /\ prop a "color" = prop b "color".

(** The catalog as the handler reads it. *)
Definition catalog (w : world) : value :=
  fst (readJson PRODUCTS_FILE (VArr []) w).

(** The entry's product identifier is the identifier of an entry of
    the catalog, by the key equality of [Map]. *)
Definition listed (products : list value) (item : value) : bool :=
  existsb (fun p => same_value_zero (prop p "id") (prop item "productId"))
    products.
End Lines.

(* ===================================================================== *)
(** ** Integers among the numbers *)
(* ===================================================================== *)

(** The integer a number is, when it is one. *)
Definition integer_of (n : float) : option Z :=
  match Prim2SF n with
  | SpecFloat.S754_zero _ => Some 0%Z
  | SpecFloat.S754_finite s m e =>
      let mag :=
        if (0 <=? e)%Z then Some (Z.pos m * 2 ^ e)%Z
        else if (Z.pos m mod 2 ^ (- e) =? 0)%Z
             then Some (Z.pos m / 2 ^ (- e))%Z
             else None in
      match mag with
      | Some z => Some (if s then (- z)%Z else z)
      | None => None
      end
  | SpecFloat.S754_infinity _ | SpecFloat.S754_nan => None
  end.

Definition positive_integer (n : float) : bool :=
  match integer_of n with
  | Some z => (0 <? z)%Z
  | None => false
  end.

(* ===================================================================== *)
(** ** A runtime for running the handlers on concrete requests *)
(* ===================================================================== *)

(** The built-ins restricted to what the examples below feed them: ASCII
    letters for [toLowerCase], decimal digit strings for [Number],
    integers for [String] and [toFixed], flat arrays for [toString].
    [bcrypt] is
    replaced by a tagged concatenation of salt and password. *)
Module Reference.
Definition lower_char (c : ascii) : ascii :=
  let n := nat_of_ascii c in
  if (65 <=? n)%nat && (n <=? 90)%nat then ascii_of_nat (n + 32) else c.

Fixpoint lower (s : string) : string :=
  match s with
  | EmptyString => EmptyString
  | String c rest => String (lower_char c) (lower rest)
  end.

Fixpoint digits (s : string) (acc : Z) : option Z :=
  match s with
  | EmptyString => Some acc
  | String c rest =>
      let n := nat_of_ascii c in
      if (48 <=? n)%nat && (n <=? 57)%nat
      then digits rest (10 * acc + Z.of_nat (n - 48))%Z
      else None
  end.

Definition number_of_string (s : string) : float :=
  match digits s 0%Z with
  | Some z => of_uint63 (Uint63.of_Z z)
  | None => nan
  end.

Definition string_of_number (n : float) : string :=
  match integer_of n with
  | Some z => decimal z
  | None => "NaN"
  end.

Definition element_text (v : value) : string :=
  match v with
  | VUndefined | VNull => ""
  | VBool b => if b then "true" else "false"
  | VNum n => string_of_number n
  | VStr s => s
  | VArr _ => ""
  | VObj _ => "[object Object]"
  end.

Definition string_of_object (v : value) : string :=
  match v with
  | VArr l => String.concat "," (map element_text l)
  | VObj _ => "[object Object]"
  | _ => ""
  end.

(** Two decimals for an integer. *)
Definition fixed2 (n : float) : string :=
  match integer_of n with
  | Some z => decimal z ++ ".00"
  | None => "NaN"
  end.

Definition hash (password salt : string) : string :=
  "$2a$10$" ++ salt ++ "$" ++ password.

Fixpoint ends_with (suffix s : string) : bool :=
  (s =? suffix)
  || match s with
     | EmptyString => false
     | String _ rest => ends_with suffix rest
     end.

Definition compare (password hashed : string) : bool :=
  ends_with ("$" ++ password) hashed.

Definition is_space (c : ascii) : bool :=
  let n := nat_of_ascii c in
  (n =? 32)%nat || ((9 <=? n)%nat && (n <=? 13)%nat).

Fixpoint drop_spaces (s : string) : string :=
  match s with
  | String c rest => if is_space c then drop_spaces rest else s
  | EmptyString => s
  end.

Definition strip_bearer (s : string) : string :=
  if (lower (substring 0 6 s) =? "bearer")
     && match String.get 6 s with
        | Some c => is_space c
        | None => false
        end
  then drop_spaces (substring 6 (String.length s - 6) s)
  else s.

Definition message_of (e : exn) : string :=
  match e with
  | TypeError => "Cannot read properties of undefined"
  | StorageError => "Blob write failed"
  | BcryptError => "Illegal arguments"
  | NetworkError => "fetch failed"
  end.
End Reference.

#[export] Instance reference_runtime : Runtime := {|
  toLowerCase := Reference.lower;
  StringToNumber := Reference.number_of_string;
  NumberToString := Reference.string_of_number;
  ObjectToString := Reference.string_of_object;
  toFixed2 := Reference.fixed2;
  bcrypt_hash := Reference.hash;
  bcrypt_compare := Reference.compare;
  stripBearer := Reference.strip_bearer;
  message := Reference.message_of
|}.

(* ===================================================================== *)
(** ** Concrete requests *)
(* ===================================================================== *)

Module Demo.
(** Local files, no blob store, no sync configured. *)
Definition local_cfg : config :=
  {| BLOB_READ_WRITE_TOKEN := None; blob_sdk := false; VERCEL := None;
     PRODUCTION_URL := None; DASHBOARD_SYNC_SECRET := None;
     SMTP_HOST := None; SMTP_USER := None; SMTP_PASS := None |}.

(** The local files, and a mail transport. *)
Definition mail_cfg : config :=
  {| BLOB_READ_WRITE_TOKEN := None; blob_sdk := false; VERCEL := None;
     PRODUCTION_URL := None; DASHBOARD_SYNC_SECRET := None;
     SMTP_HOST := Some "smtp.shop.example"; SMTP_USER := Some "orders";
     SMTP_PASS := Some "secret" |}.

(** The blob store behind the gateway. *)
Definition blob_cfg : config :=
  {| BLOB_READ_WRITE_TOKEN := Some "vercel_blob_rw_token"; blob_sdk := true;
     VERCEL := Some "1"; PRODUCTION_URL := None;
     DASHBOARD_SYNC_SECRET := None;
     SMTP_HOST := None; SMTP_USER := None; SMTP_PASS := None |}.

Definition products : value :=
  VArr [ VObj [ ("id", VStr "p1"); ("name", VStr "Linen Shirt");
                ("category", VStr "tops"); ("price", VNum 10%float) ] ].

Definition shop : world :=
  {| products_file := FileHolds products;
     orders_file := FileHolds (VArr []);
     admins_file := FileHolds (VArr []);
     fs_writable := true;
     orders_blob := BlobHolds (VArr []);
     admins_blob := BlobHolds (VArr []);
     blob_writable := true |}.

Definition buyer : value :=
  VObj [ ("name", VStr "A"); ("email", VStr "a@x.com");
         ("address", VStr "1 Main St") ].

(** A cart of one entry for [p1] with the given quantity, carrying a
    price of its own. *)
Definition cart_of (quantity : value) : value :=
  VObj [ ("cartItems",
           VArr [ VObj [ ("productId", VStr "p1"); ("quantity", quantity);
                         ("price", VNum 0.5%float) ] ]);
         ("customer", buyer) ].

(** An entry for a product the catalog does not have, then one for
    [p1]. *)
Definition stale_cart : list value :=
  [ VObj [ ("productId", VStr "gone"); ("quantity", VNum 1%float) ];
    VObj [ ("productId", VStr "p1"); ("quantity", VNum 2%float) ] ].

Definition stale_body : value :=
  VObj [ ("cartItems", VArr stale_cart); ("customer", buyer) ].

(** The same shop on a disk that takes no writes, with one order
    already in the ledger. *)
Definition earlier_order : value :=
  VObj [ ("id", VStr "ORD-1700000000000"); ("total", VNum 5%float) ].

Definition read_only_shop : world :=
  {| products_file := FileHolds products;
     orders_file := FileHolds (VArr [earlier_order]);
     admins_file := FileHolds (VArr []);
     fs_writable := false;
     orders_blob := BlobHolds (VArr [earlier_order]);
     admins_blob := BlobHolds (VArr []);
     blob_writable := false |}.

(** A local dashboard set up to pull from the hosted shop. *)
Definition dashboard_cfg : config :=
  {| BLOB_READ_WRITE_TOKEN := None; blob_sdk := false; VERCEL := None;
     PRODUCTION_URL := Some "https://shop.example/";
     DASHBOARD_SYNC_SECRET := Some "s3cret";
     SMTP_HOST := None; SMTP_USER := None; SMTP_PASS := None |}.

Definition hosted_order : value :=
  VObj [ ("id", VStr "ORD-1714557600000"); ("total", VNum 20%float) ].

Definition hosted_admin : value :=
  VObj [ ("id", VStr "admin-1714000000000"); ("name", VStr "Ada");
         ("email", VStr "Ada@Shop.example");
         ("passwordHash", VStr "$2a$10$NaCl$correct horse") ].

(** What the hosted shop's export answered. *)
Definition export_response : http_response :=
  {| ok := true; status := 200; text := Ok "";
     json := Ok (VObj [ ("orders", VArr [hosted_order]);
                        ("admins", VArr [hosted_admin]) ]) |}.

(** The shop with one admin account on file. *)
Definition staffed_shop : world :=
  set_file shop ADMINS_FILE (FileHolds (VArr [hosted_admin])).

Definition signed_out : session :=
  {| adminUserId := VUndefined; save_fails := false |}.

Definition login_as (email password : string) : value :=
  VObj [ ("email", VStr email); ("password", VStr password) ].

Definition signup_as (name email password : string) : value :=
  VObj [ ("name", VStr name); ("email", VStr email);
         ("password", VStr password) ].

(** Two orders of the same customer, the second with a phone number and
    another name. *)
Definition first_order : value :=
  VObj [ ("id", VStr "ORD-1"); ("total", VNum 20%float);
         ("customer", VObj [ ("name", VStr "A"); ("email", VStr "a@x.com") ]) ].

Definition second_order : value :=
  VObj [ ("id", VStr "ORD-2"); ("total", VNum 30%float);
         ("customer", VObj [ ("name", VStr "Alice"); ("email", VStr "A@X.com");
                             ("phone", VStr "555-0100") ]) ].

Definition the_customer : customer :=
  {| c_name := VStr "A"; c_email := VStr "a@x.com";
     c_phone := VStr "555-0100"; c_address := VStr ""; c_city := VStr "";
     c_postalCode := VStr ""; c_country := VStr "";
     c_orders := 2%float; c_totalSpend := VNum 50%float |}.

(** Two checkouts arrive together. *)
Definition two_arrivals : list stage :=
  [ Arrived (VObj [ ("cartItems",
                      VArr [ VObj [ ("productId", VStr "p1");
                                    ("quantity", VNum 2%float) ] ]);
                    ("customer", buyer) ]);
    Arrived (VObj [ ("cartItems",
                      VArr [ VObj [ ("productId", VStr "p1");
                                    ("quantity", VNum 1%float) ] ]);
                    ("customer", buyer) ]) ].

Definition at_ms (t : Z) : clock :=
  {| now := t; iso := "2024-05-01T10:00:00.000Z" |}.

Definition line (quantity total : float) : value :=
  VObj [ ("productId", VStr "p1"); ("name", VStr "Linen Shirt");
         ("category", VStr "tops"); ("price", VNum 10%float);
         ("quantity", VNum quantity); ("size", VStr "Medium");
         ("color", VStr ""); ("lineTotal", VNum total) ].

(** Both requests start, both reads are served, then both writes. *)
Definition interleaved : list (nat * clock) :=
  [ (0%nat, at_ms 1714557600000); (1%nat, at_ms 1714557600000);
    (0%nat, at_ms 1714557600040); (1%nat, at_ms 1714557600041);
    (0%nat, at_ms 1714557600080); (1%nat, at_ms 1714557600081) ].

(** Each request runs to its response before the next one starts. *)
Definition one_by_one : list (nat * clock) :=
  [ (0%nat, at_ms 1714557600000); (0%nat, at_ms 1714557600040);
    (0%nat, at_ms 1714557600080); (1%nat, at_ms 1714557600081);
    (1%nat, at_ms 1714557600120); (1%nat, at_ms 1714557600160) ].

Definition order_of (t : Z) (quantity total : float) : value :=
  VObj [ ("id", VStr ("ORD-" ++ decimal t));
         ("createdAt", VStr "2024-05-01T10:00:00.000Z");
         ("total", VNum total);
         ("items", VArr [ line quantity total ]);
         ("customer",
           VObj [ ("name", VStr "A"); ("email", VStr "a@x.com");
                  ("phone", VStr ""); ("address", VStr "1 Main St");
                  ("city", VStr ""); ("postalCode", VStr "");
                  ("country", VStr "") ]) ].

(** The hosted shop: the blob store behind the gateway, and the secret
    the dashboard has. *)
Definition hosted_cfg : config :=
  {| BLOB_READ_WRITE_TOKEN := Some "vercel_blob_rw_token"; blob_sdk := true;
     VERCEL := Some "1"; PRODUCTION_URL := None;
     DASHBOARD_SYNC_SECRET := Some "s3cret";
     SMTP_HOST := None; SMTP_USER := None; SMTP_PASS := None |}.

Definition hosted_shop : world :=
  {| products_file := FileHolds products;
     orders_file := FileAbsent;
     admins_file := FileAbsent;
     fs_writable := false;
     orders_blob := BlobHolds (VArr [hosted_order]);
     admins_blob := BlobHolds (VArr [hosted_admin]);
     blob_writable := true |}.

(** A dashboard with another secret than the shop's. *)
Definition stranger_cfg : config :=
  {| BLOB_READ_WRITE_TOKEN := None; blob_sdk := false; VERCEL := None;
     PRODUCTION_URL := Some "https://shop.example";
     DASHBOARD_SYNC_SECRET := Some "guess";
     SMTP_HOST := None; SMTP_USER := None; SMTP_PASS := None |}.

(** The cart of the storefront after two clicks on the shirt. *)
Definition basket : list value :=
  [ VObj [ ("productId", VStr "p1"); ("name", VStr "Linen Shirt");
           ("price", VNum 10%float); ("quantity", VNum 2%float);
           ("size", VStr "Medium"); ("color", VStr "") ] ].

(** An order whose customer has an object where the email goes, and
    one whose total is an object with a [toString] of its own. *)
Definition unreadable_order : value :=
  VObj [ ("id", VStr "ORD-4"); ("total", VNum 5%float);
         ("customer",
           VObj [ ("name", VStr "C");
                  ("email", VObj [ ("toLowerCase", VNum 1%float) ]) ]) ].

Definition unsummable_order : value :=
  VObj [ ("id", VStr "ORD-5");
         ("total", VObj [ ("toString", VNum 1%float) ]);
         ("customer", VObj [ ("name", VStr "A"); ("email", VStr "a@x.com") ]) ].

(** An order whose customer has a number where the email goes. *)
Definition numbered_order : value :=
  VObj [ ("id", VStr "ORD-3"); ("total", VNum 5%float);
         ("customer", VObj [ ("name", VStr "B"); ("email", VNum 7%float) ]) ].

(** A shop whose one admin account was put on file without an
    identifier. *)
Definition unnumbered_shop : world :=
  set_file shop ADMINS_FILE
    (FileHolds (VArr [ VObj [ ("name", VStr "Ada");
                              ("email", VStr "Ada@Shop.example");
                              ("passwordHash",
                                VStr "$2a$10$NaCl$correct horse") ] ])).

(** The JSON text of an object of one string, [null] for the rest. *)
Definition json_text (v : value) : string :=
  match v with
  | VObj [(k, VStr s)] =>
      String "{"%char (String "034"%char k)
      ++ String "034"%char (String ":"%char (String "034"%char s))
      ++ String "034"%char "}"
  | _ => "null"
  end.
End Demo.

(** The properties [JSON.stringify] writes for an object: those that are
    not [undefined], each value as JSON text gives it back. *)
Fixpoint clean_props (ps : list (string * value)) : list (string * value) :=
  match ps with
  | [] => []
  | (k, x) :: rest =>
      match x with
      | VUndefined => clean_props rest
      | _ => (k, json_clean x) :: clean_props rest
      end
  end.

(** One character of the text, escaped on its own. *)
Definition escape_char (x : ascii) : string :=
  if Ascii.eqb x "&"%char then "&amp;"
  else if Ascii.eqb x "<"%char then "&lt;"
  else if Ascii.eqb x ">"%char then "&gt;"
  else if Ascii.eqb x "034"%char then "&quot;"
  else String x EmptyString.

Fixpoint escape_each (s : string) : string :=
  match s with
  | EmptyString => EmptyString
  | String x rest => escape_char x ++ escape_each rest
  end.

Fixpoint occurs (c : ascii) (s : string) : bool :=
  match s with
  | EmptyString => false
  | String x rest => Ascii.eqb x c || occurs c rest
  end.

(* ===================================================================== *)
(** ** The middlewares of the admin routes *)
(* ===================================================================== *)

(** The two environment variables behind [ADMIN_ENABLED]. *)
Record admin_env : Type := {
  ENABLE_ADMIN : option string;
  NODE_ENV : option string
}.

(** [ENABLE_ADMIN === 'true' || NODE_ENV !== 'production'] *)
Definition ADMIN_ENABLED (e : admin_env) : bool :=
  strict_eq (env (ENABLE_ADMIN e)) (VStr "true")
  || negb (strict_eq (env (NODE_ENV e)) (VStr "production")).

(** What the middlewares look at in a request. *)
Record request : Type := {
  req_hostname : option string;
  req_host : option string;
  req_path : string;
  req_xhr : bool;
  req_accept : option string
}.

(** [s.split(':')[0]] *)
Fixpoint before_colon (s : string) : string :=
  match s with
  | EmptyString => EmptyString
  | String c rest =>
      if Ascii.eqb c ":"%char then EmptyString
      else String c (before_colon rest)
  end.

(** [/needle/.test(s)] for a literal [needle] *)
Fixpoint contains (needle s : string) : bool :=
  String.prefix needle s
  || match s with
     | EmptyString => false
     | String _ rest => contains needle rest
     end.

(** [isLocalRequest(req)] *)
Definition isLocalRequest (req : request) : bool :=
  let host :=
    before_colon
      (match js_or (env (req_hostname req))
               (js_or (env (req_host req)) (VStr "")) with
       | VStr h => h
       | _ => ""
       end) in
  (host =? "localhost") || (host =? "127.0.0.1").

(** How a middleware ends: it calls [next()], it responds, or it
    redirects. *)
Inductive verdict : Type :=
  | Next
  | Stop (r : reply)
  | Redirect (url : string).

(** [blockAdminRoute] *)
Definition blockAdminRoute (e : admin_env) (req : request) : verdict :=
  if ADMIN_ENABLED e || isLocalRequest req then Next
  else if String.prefix "/api/" (req_path req)
          || req_xhr req
          || contains "application/json"
               (match req_accept req with Some a => a | None => "" end)
       then Stop (Reply 404 (error_body "Not found."))
       else Stop (Reply 404 (VStr "Not found")).

(** [requireAdminApi] *)
Definition requireAdminApi (s : session) : verdict :=
  if truthy (adminUserId s) then Next
  else Stop (Reply 401 (error_body "Not authenticated as admin.")).

(** [requireAdminPage] *)
Definition requireAdminPage (s : session) : verdict :=
  if truthy (adminUserId s) then Next else Redirect "/admin/login".

(** The handler of [POST /api/admin/logout]: the session is destroyed
    (or set to [null]), so the next request comes without an admin. *)
Definition logout (s : session) : reply * session :=
  (Reply 200 (VObj [("success", VBool true)]),
   {| adminUserId := VUndefined; save_fails := save_fails s |}).

(* ===================================================================== *)
(** ** The import fetching from the export, and the sync script *)
(* ===================================================================== *)

Section Wire.
Context {RT : Runtime}.

(** [JSON.stringify] of a response body, as [response.text()] returns
    it. *)
Variable stringify : value -> string.

(** What [fetch] resolves to when the origin's handler answered with
    [res.json(body)]: [response.json()] parses the text back.  A handler
    that rejected sends no answer, and the [fetch] fails. *)
Definition served (r : reply) : result http_response :=
  match r with
  | Reply st body =>
      Ok {| ok := (200 <=? st)%Z && (st <=? 299)%Z;
            status := st;
            text := Ok (stringify body);
            json := Ok (json_clean body) |}
  | Unhandled _ => Throw NetworkError
  end.

(** Whether the import gets as far as [await fetch(url)]. *)
Definition reaches_fetch (dest : config) : bool :=
  negb (strict_eq (env (VERCEL dest)) (VStr "1"))
  && negb (strip_trailing_slashes
             (match PRODUCTION_URL dest with Some u => u | None => "" end)
           =? "")
  && truthy (env (DASHBOARD_SYNC_SECRET dest)).

(** The import of the dashboard at [dest] run against the export of the
    shop at [origin]: the request carries the dashboard's secret in the
    query string, and the origin is only asked when the import gets to
    its [fetch]. *)
Definition pull (origin dest : config) (wo wd : world)
  : reply * world * world :=
  let (answer, wo') :=
    dashboard_sync origin (env (DASHBOARD_SYNC_SECRET dest)) None wo in
  let (r, wd') := sync_from_production dest (served answer) wd in
  (r, if reaches_fetch dest then wo' else wo, wd').
End Wire.

(** How [scripts/sync-from-production.js] ends. *)
Inductive script_end : Type :=
  | Exit1
  | Synced (orders admins : nat).

(** [fs.writeFileSync(path, JSON.stringify(data, null, 2))], outside any
    [try] of its own. *)
Definition writeFileSync (p : file_path) (data : value) (w : world)
  : result unit * world :=
  if has_json_text data && fs_writable w
  then (Ok tt, set_file w p (FileHolds (json_clean data)))
  else (Throw StorageError, w).

(** The script: [run()] after the check of the environment. *)
Definition sync_script (cfg : config) (fetched : result http_response)
  (w : world) : script_end * world :=
  let PRODUCTION_URL' :=
    strip_trailing_slashes
      (match PRODUCTION_URL cfg with Some u => u | None => "" end) in
  if (PRODUCTION_URL' =? "") || negb (truthy (env (DASHBOARD_SYNC_SECRET cfg)))
  then (Exit1, w)
  else
    match fetched with
    | Throw _ => (Exit1, w)
    | Ok res =>
        if negb (ok res) then (Exit1, w)
        else
          match json res with
          | Throw _ => (Exit1, w)
          | Ok data =>
              match get data "orders" with
              | Throw _ => (Exit1, w)
              | Ok fetched_orders =>
                  let orders := array_or_empty fetched_orders in
                  let admins := array_or_empty (prop data "admins") in
                  match writeFileSync ORDERS_FILE orders w with
                  | (Throw _, w1) => (Exit1, w1)
                  | (Ok _, w1) =>
                      match writeFileSync ADMINS_FILE admins w1 with
                      | (Throw _, w2) => (Exit1, w2)
                      | (Ok _, w2) =>
                          (Synced (length (elements orders))
                             (length (elements admins)), w2)
                      end
                  end
              end
          end
    end.

(* ===================================================================== *)
(** ** The dashboard's own aggregation: [aggregateCustomersFromOrders] *)
(* ===================================================================== *)

(** [existing.f = ...] on the object that [byEmail] holds under [k]: the
    entry is changed where it stands, unless the update throws. *)
Fixpoint map_update {V : Type} (m : jsmap V) (k : value)
  (f : V -> result V) : result (jsmap V) :=
  match m with
  | [] => Ok []
  | (k', v) :: rest =>
      if same_value_zero k' k
      then v' <- f v ;; Ok ((k', v') :: rest)
      else rest' <- map_update rest k f ;; Ok ((k', v) :: rest')
  end.

Section Dashboard.
Context {RT : Runtime}.

(** [(order.customer && order.customer.f)] *)
Definition guarded_field (order : value) (f : string) : value :=
  if truthy (prop order "customer") then prop (prop order "customer") f
  else prop order "customer".

(** [(order.customer && order.customer.email)
      ? order.customer.email.toLowerCase() : ''] *)
Definition dashboard_email (order : value) : result value :=
  cust <- get order "customer" ;;
  if truthy (if truthy cust then prop cust "email" else cust)
  then call_toLowerCase (prop cust "email")
  else Ok (VStr "").

Definition dashboard_fresh (email order : value) : customer :=
  {| c_name := js_or (guarded_field order "name") (VStr "");
     c_email := email;
     c_phone := js_or (guarded_field order "phone") (VStr "");
     c_address := js_or (guarded_field order "address") (VStr "");
     c_city := js_or (guarded_field order "city") (VStr "");
     c_postalCode := js_or (guarded_field order "postalCode") (VStr "");
     c_country := js_or (guarded_field order "country") (VStr "");
     c_orders := 0%float;
     c_totalSpend := VNum 0%float |}.

(** [if (!existing.f && order.customer && order.customer.f)
      existing.f = order.customer.f] *)
Definition dashboard_backfill (current : value) (order : value) (f : string)
  : value :=
  if negb (truthy current) && truthy (prop order "customer")
     && truthy (prop (prop order "customer") f)
  then prop (prop order "customer") f
  else current.

Definition dashboard_absorb (existing : customer) (order : value)
  : result customer :=
  totalSpend <- js_add (c_totalSpend existing) (order_total order) ;;
  Ok {| c_name := dashboard_backfill (c_name existing) order "name";
        c_email := c_email existing;
        c_phone := dashboard_backfill (c_phone existing) order "phone";
        c_address := dashboard_backfill (c_address existing) order "address";
        c_city := dashboard_backfill (c_city existing) order "city";
        c_postalCode :=
          dashboard_backfill (c_postalCode existing) order "postalCode";
        c_country := dashboard_backfill (c_country existing) order "country";
        c_orders := (c_orders existing + 1)%float;
        c_totalSpend := totalSpend |}.

(** The [for] loop: a new customer is put in the map first, then the
    object in the map is updated. *)
Fixpoint dashboard_loop (orders : list value) (byEmail : jsmap customer)
  : result (jsmap customer) :=
  match orders with
  | [] => Ok byEmail
  | order :: rest =>
      email <- dashboard_email order ;;
      if negb (truthy email) then dashboard_loop rest byEmail
      else
        let byEmail1 :=
          match map_get byEmail email with
          | Some _ => byEmail
          | None => map_set byEmail email (dashboard_fresh email order)
          end in
        byEmail2 <- map_update byEmail1 email
                      (fun c => dashboard_absorb c order) ;;
        dashboard_loop rest byEmail2
  end.

Definition aggregateCustomersFromOrders (orders : list value)
  : result (list customer) :=
  byEmail <- dashboard_loop orders [] ;;
  Ok (map_values byEmail).

(** The email of the order's customer is a string, or is falsy. *)
Definition email_is_text (order : value) : bool :=
  match prop (prop order "customer") "email" with
  | VStr _ => true
  | v => negb (truthy v)
  end.

(** *** [updateCustomersTable] and [updateStats] *)

(** [order.customer?.email?.toLowerCase()]: the call is not optional. *)
Definition called_email (order : value) : result value :=
  cust <- get order "customer" ;;
  let email := get_opt cust "email" in
  if nullish email then Ok VUndefined else call_toLowerCase email.

(** The loop of [updateCustomersTable]; its body is the one of the
    export, after another reading of the email. *)
Fixpoint table_loop (orders : list value) (byEmail : jsmap customer)
  : result (jsmap customer) :=
  match orders with
  | [] => Ok byEmail
  | order :: rest =>
      email <- called_email order ;;
      if negb (truthy email) then table_loop rest byEmail
      else
        let existing := match map_get byEmail email with
                        | Some c => c
                        | None => fresh email order
                        end in
        updated <- absorb existing order ;;
        table_loop rest (map_set byEmail email updated)
  end.

(** [customers] of [updateCustomersTable]: what it aggregates, before
    the rows are drawn. *)
Definition table_customers (orders : list value) : result (list customer) :=
  byEmail <- table_loop orders [] ;;
  Ok (map_values byEmail).

(** [{ count, total }] of [updateStats]. *)
Record tally : Type := {
  t_count : float;
  t_total : value
}.

(** What [{ count, total }] keeps of a customer of the table. *)
Definition tally_of (c : customer) : tally :=
  {| t_count := c_orders c; t_total := c_totalSpend c |}.

Definition tallies (byEmail : jsmap customer) : jsmap tally :=
  map (fun entry => (fst entry, tally_of (snd entry))) byEmail.

(** [orders.reduce((sum, order) => sum + (order.total || 0), 0)] *)
Fixpoint revenue (orders : list value) (sum : value) : result value :=
  match orders with
  | [] => Ok sum
  | order :: rest =>
      total <- get order "total" ;;
      sum' <- js_add sum (js_or total (VNum 0%float)) ;;
      revenue rest sum'
  end.

(** The loop of [updateStats] over [customersByEmail]. *)
Fixpoint stats_loop (orders : list value) (customersByEmail : jsmap tally)
  : result (jsmap tally) :=
  match orders with
  | [] => Ok customersByEmail
  | order :: rest =>
      email <- called_email order ;;
      if negb (truthy email) then stats_loop rest customersByEmail
      else
        let existing := match map_get customersByEmail email with
                        | Some c => c
                        | None => {| t_count := 0%float;
                                     t_total := VNum 0%float |}
                        end in
        total <- js_add (t_total existing) (order_total order) ;;
        stats_loop rest
          (map_set customersByEmail email
             {| t_count := (t_count existing + 1)%float; t_total := total |})
  end.

(** The four elements [updateStats] looks up: whether the page has
    them. *)
Record stat_cards : Type := {
  revenueEl : bool;
  ordersCountEl : bool;
  aovEl : bool;
  customersEl : bool
}.

(** The [textContent] each card was given, if any. *)
Record shown : Type := {
  shown_revenue : option string;
  shown_orders : option string;
  shown_aov : option string;
  shown_customers : option string
}.

(** [formatCurrency(value)] *)
Definition formatCurrency (v : value) : result string :=
  fixed <- call_toFixed v ;;
  Ok ("$" ++ fixed)%string.

(** [if (el) el.textContent = text]: the text is computed only when
    the element is there. *)
Definition set_text (el : bool) (text : result string)
  : result (option string) :=
  if el then t <- text ;; Ok (Some t) else Ok None.

(** [updateStats(orders)]: the figures, then the cards in the order of
    the source.  [totalRevenue] is the primitive the additions left, so
    the division converts it without a call that could throw. *)
Definition updateStats (page : stat_cards) (orders : list value)
  : result shown :=
  totalRevenue <- revenue orders (VNum 0%float) ;;
  let orderCount := length orders in
  let aov :=
    if (orderCount =? 0)%nat then 0%float
    else (to_number totalRevenue / num_of_nat orderCount)%float in
  customersByEmail <- stats_loop orders [] ;;
  revenue_text <- set_text (revenueEl page) (formatCurrency totalRevenue) ;;
  orders_text <- set_text (ordersCountEl page)
                   (Ok (NumberToString (num_of_nat orderCount) ++ " order"
                        ++ (if (orderCount =? 1)%nat then "" else "s"))%string) ;;
  aov_text <- set_text (aovEl page) (formatCurrency (VNum aov)) ;;
  customers_text <- set_text (customersEl page)
                      (Ok (NumberToString
                             (num_of_nat (length customersByEmail)))) ;;
  Ok {| shown_revenue := revenue_text;
        shown_orders := orders_text;
        shown_aov := aov_text;
        shown_customers := customers_text |}.

(** The email of the order's customer is a string, or is [undefined] or
    [null]. *)
Definition email_is_text_or_absent (order : value) : bool :=
  match prop (prop order "customer") "email" with
  | VStr _ => true
  | v => nullish v
  end.
End Dashboard.

(* ===================================================================== *)
(** ** The storefront: the subtotal it shows and the cart it submits *)
(* ===================================================================== *)

Section Storefront.
Context {RT : Runtime}.

(** [state.cart.reduce((sum, item) => sum + item.price * item.quantity, 0)];
    the sum starts as a number and stays one. *)
Fixpoint cart_sum (cart : list value) (sum : float) : result float :=
  match cart with
  | [] => Ok sum
  | item :: rest =>
      item_price <- get item "price" ;;
      price <- ToNumber item_price ;;
      quantity <- ToNumber (prop item "quantity") ;;
      cart_sum rest (sum + price * quantity)%float
  end.

Definition cartTotals (cart : list value) : result float :=
  cart_sum cart 0%float.

(** [state.cart.map((item) => ({ productId, quantity, size, color }))] *)
Fixpoint cart_entries (cart : list value) : result (list value) :=
  match cart with
  | [] => Ok []
  | item :: rest =>
      id <- get item "productId" ;;
      entries <- cart_entries rest ;;
      Ok (VObj [ ("productId", id);
                 ("quantity", prop item "quantity");
                 ("size", prop item "size");
                 ("color", prop item "color") ] :: entries)
  end.

(** The body of the checkout request as the server parses it. *)
Definition submitted (cart : list value) (customer : value) : result value :=
  entries <- cart_entries cart ;;
  Ok (json_clean (VObj [ ("cartItems", VArr entries);
                         ("customer", customer) ])).

(** A cart item that names a product of the catalog by a string, has a
    price that converts to the same number as that product's, and a
    quantity that is a finite number other than zero. *)
Definition as_listed (productMap : jsmap value) (item : value) : Prop :=
  (exists id : string, prop item "productId" = VStr id)
  /\ truthy (lookup_product productMap (prop item "productId")) = true
  /\ (exists price : float,
         ToNumber (prop item "price") = Ok price
         /\ ToNumber (prop (lookup_product productMap
                              (prop item "productId")) "price")
            = Ok price)
  /\ exists q : float,
       prop item "quantity" = VNum q
       /\ is_finite q = true /\ truthy_num q = true.
End Storefront.

(* ===================================================================== *)
(** * Properties *)
(* ===================================================================== *)

Unset Implicit Arguments.

Example integer_of_samples :
  integer_of 2%float = Some 2%Z
  /\ integer_of (-3)%float = Some (-3)%Z
  /\ integer_of 2.5%float = None
  /\ integer_of 1e21%float = Some (10 ^ 21)%Z.
Proof. vm_compute. repeat split. Qed.

Example strip_samples :
  strip_trailing_slashes "https://shop.example///" = "https://shop.example"
  /\ strip_trailing_slashes "///" = ""
  /\ strip_trailing_slashes "a/b" = "a/b".
Proof. repeat split. Qed.

Example bearer_samples :
  Reference.strip_bearer "Bearer  s3cret" = "s3cret"
  /\ Reference.strip_bearer "bearer" = "bearer"
  /\ Reference.strip_bearer "s3cret" = "s3cret".
Proof. repeat split. Qed.

(* --------------------------------------------------------------------- *)
(** ** Conversions *)
(* --------------------------------------------------------------------- *)

Section Conversions.
Context {RT : Runtime}.

Lemma ToPrimitive_cases (v : value) :
  ToPrimitive v
  = if convertible v then Ok (primitive_of v) else Throw TypeError.
Proof. reflexivity. Qed.

Lemma ToNumber_cases (v : value) :
  ToNumber v = if convertible v then Ok (number_of v) else Throw TypeError.
Proof. unfold ToNumber, ToPrimitive. destruct (convertible v); reflexivity. Qed.

Lemma ToString_cases (v : value) :
  ToString v = if convertible v then Ok (text_of v) else Throw TypeError.
Proof. unfold ToString, ToPrimitive. destruct (convertible v); reflexivity. Qed.

Lemma ToNumber_returns (v : value) (n : float) :
  ToNumber v = Ok n -> convertible v = true /\ n = number_of v.
Proof.
  rewrite ToNumber_cases. destruct (convertible v); [| discriminate].
  intros H. injection H as <-. split; reflexivity.
Qed.

Lemma coerce_quantity_cases (q : value) :
  coerce_quantity q
  = if convertible q then Ok (quantity_of q) else Throw TypeError.
Proof.
  unfold coerce_quantity, quantity_of. rewrite ToNumber_cases.
  destruct (convertible q); reflexivity.
Qed.

Lemma coerce_quantity_returns (q : value) (n : float) :
  coerce_quantity q = Ok n -> convertible q = true /\ n = quantity_of q.
Proof.
  rewrite coerce_quantity_cases. destruct (convertible q); [| discriminate].
  intros H. injection H as <-. split; reflexivity.
Qed.

(** What an addition returned is a primitive, and a primitive on the
    left never makes the next addition throw. *)
Lemma js_add_cases (a b : value) :
  js_add a b
  = if convertible a && convertible b
    then Ok (add_primitives (primitive_of a) (primitive_of b))
    else Throw TypeError.
Proof.
  unfold js_add, ToPrimitive.
  destruct (convertible a), (convertible b); reflexivity.
Qed.

Lemma add_primitives_primitive (pa pb : value) :
  convertible (add_primitives pa pb) = true
  /\ primitive_of (add_primitives pa pb) = add_primitives pa pb.
Proof.
  unfold add_primitives. destruct (is_string pa || is_string pb); split;
    reflexivity.
Qed.
End Conversions.

(* --------------------------------------------------------------------- *)
(** ** The checkout loop *)
(* --------------------------------------------------------------------- *)

Section CheckoutFacts.
Context {RT : Runtime}.

Lemma get_ok (v : value) (k : string) :
  nullish v = false -> get v k = Ok (prop v k).
Proof. unfold get. intros ->. reflexivity. Qed.

(** One turn of the loop on an entry it gets past. *)
Lemma resolve_items_step (pm : jsmap value) (item : value)
  (rest : list value) (total : float) (items : list value) :
  priceable pm item = true ->
  resolve_items pm (item :: rest) total items
  = if accepted pm item
    then resolve_items pm rest (total + line_total pm item)%float
           (items ++ [priced pm item])
    else resolve_items pm rest total items.
Proof.
  unfold priceable, accepted, priced, line_total. intros H.
  apply andb_prop in H. destruct H as [Hitem H].
  apply negb_true_iff in Hitem.
  cbn [resolve_items]. rewrite (get_ok _ _ Hitem). cbn [bind].
  destruct (truthy (lookup_product pm (prop item "productId")));
    [| reflexivity].
  cbn [negb orb] in *. apply andb_prop in H. destruct H as [Hq Hp].
  rewrite coerce_quantity_cases, Hq, ToNumber_cases, Hp. reflexivity.
Qed.

(** The loop, in closed form: the entries that resolve, in cart order,
    each priced from the catalog, and the running total. *)
Lemma resolve_items_closed (pm : jsmap value) (cart : list value) :
  Forall (fun item => priceable pm item = true) cart ->
  forall (total : float) (items : list value),
    resolve_items pm cart total items
    = Ok (fold_left PrimFloat.add
            (map (line_total pm) (filter (accepted pm) cart)) total,
          items ++ map (priced pm) (filter (accepted pm) cart)).
Proof.
  induction 1 as [| item rest Hitem _ IH]; intros total items.
  - cbn. rewrite app_nil_r. reflexivity.
  - rewrite (resolve_items_step pm item rest total items Hitem).
    cbn [filter]. destruct (accepted pm item); cbn [map fold_left].
    + rewrite IH, <- app_assoc. reflexivity.
    + apply IH.
Qed.

(** The loop returns only when it got past every entry. *)
Lemma resolve_items_returns (pm : jsmap value) (cart : list value) :
  forall (total : float) (items : list value) (r : float * list value),
    resolve_items pm cart total items = Ok r ->
    Forall (fun item => priceable pm item = true) cart.
Proof.
  induction cart as [| item rest IH]; intros total items r H.
  - constructor.
  - cbn [resolve_items] in H. unfold get in H.
    destruct (nullish item) eqn:E; [discriminate |]. cbn [bind] in H.
    destruct (truthy (lookup_product pm (prop item "productId"))) eqn:Ht;
      cbn [negb] in H.
    + rewrite coerce_quantity_cases in H.
      destruct (convertible (prop item "quantity")) eqn:Hq; [| discriminate].
      cbn [bind] in H. rewrite ToNumber_cases in H.
      destruct (convertible (prop (lookup_product pm
                                     (prop item "productId")) "price"))
        eqn:Hp; [| discriminate].
      cbn [bind] in H. constructor; [| eapply IH; exact H].
      unfold priceable, accepted. rewrite E, Ht, Hq, Hp. reflexivity.
    + constructor; [| eapply IH; exact H].
      unfold priceable, accepted. rewrite E, Ht. reflexivity.
Qed.

(** The loop throws nothing but a TypeError. *)
Lemma resolve_items_throws (pm : jsmap value) (cart : list value) :
  forall (total : float) (items : list value) (e : exn),
    resolve_items pm cart total items = Throw e -> e = TypeError.
Proof.
  induction cart as [| item rest IH]; intros total items e H;
    [discriminate |].
  cbn [resolve_items] in H. unfold get in H.
  destruct (nullish item); [injection H as <-; reflexivity |].
  cbn [bind] in H.
  destruct (negb (truthy (lookup_product pm (prop item "productId"))));
    [eapply IH; exact H |].
  rewrite coerce_quantity_cases in H.
  destruct (convertible (prop item "quantity"));
    [| injection H as <-; reflexivity].
  cbn [bind] in H. rewrite ToNumber_cases in H.
  destruct (convertible (prop (lookup_product pm (prop item "productId"))
                           "price"));
    [| injection H as <-; reflexivity].
  eapply IH; exact H.
Qed.

Lemma resolve_items_agree (pm : jsmap value) (cart cart' : list value) :
  Forall2 same_order_fields cart cart' ->
  forall (total : float) (items : list value),
    resolve_items pm cart' total items = resolve_items pm cart total items.
Proof.
  induction 1 as [| a b rest rest' Hab _ IH]; intros total items.
  - reflexivity.
  - destruct Hab as (Hn & Hid & Hq & Hs & Hc). cbn [resolve_items].
    unfold get. rewrite <- Hn. destruct (nullish a); [reflexivity |].
    cbn [bind]. rewrite <- Hid, <- Hq.
    destruct (negb _); [apply IH |].
    destruct (coerce_quantity (prop a "quantity")) as [q | e];
      [| reflexivity].
    cbn [bind].
    destruct (ToNumber _) as [price | e]; [| reflexivity].
    cbn [bind]. unfold line_item. rewrite <- Hs, <- Hc. apply IH.
Qed.

Lemma sum_line_totals_priced (pm : jsmap value) (kept : list value) :
  line_totals (map (priced pm) kept) = map (line_total pm) kept.
Proof.
  unfold line_totals. rewrite map_map. apply map_ext. reflexivity.
Qed.
End CheckoutFacts.

Section CheckoutTheorems.
Context {RT : Runtime}.

Lemma checkout_prepare_proceeds (body : value) (w w1 : world)
  (total : float) (items : list value) (customer : value) :
  checkout_prepare body w = (Proceed total items customer, w1) ->
  exists (cart : list value) (pm : jsmap value),
    request_fields body = (VArr cart, customer)
    /\ cart <> []
    /\ customer_incomplete customer = false
    /\ build_product_map (catalog w) = Ok pm
    /\ resolve_items pm cart 0%float [] = Ok (total, items)
    /\ items <> []
    /\ w1 = snd (readJson PRODUCTS_FILE (VArr []) w).
Proof.
  unfold checkout_prepare, catalog.
  destruct (request_fields body) as [cartItems cust].
  destruct cartItems as [| | | | | cart |]; try discriminate.
  destruct cart as [| item rest]; [discriminate |].
  destruct (customer_incomplete cust) eqn:Hc; [discriminate |].
  destruct (readJson PRODUCTS_FILE (VArr []) w) as [ps w'].
  destruct (build_product_map ps) as [pm |] eqn:Hpm; [| discriminate].
  destruct (resolve_items pm (item :: rest) 0%float []) as [[t its] |] eqn:Hr;
    [| discriminate].
  destruct its as [| li its]; [discriminate |].
  intros H. injection H as <- <- <- <-.
  exists (item :: rest), pm.
  split; [reflexivity |]. split; [discriminate |].
  split; [exact Hc |]. split; [exact Hpm |]. split; [exact Hr |].
  split; [discriminate | reflexivity].
Qed.

Lemma checkout_notified (cfg : config) (clk : clock) (body : value)
  (w : world) (order : value) :
  notified (checkout cfg clk body w) = Some order ->
  exists total items customer w1,
    checkout_prepare body w = (Proceed total items customer, w1)
    /\ order = make_order clk total items customer.
Proof.
  unfold checkout.
  destruct (checkout_prepare body w) as [[r | total items customer] w1];
    [discriminate |].
  unfold checkout_commit, checkout_append, checkout_write.
  destruct (readOrders cfg w1) as [orders w2].
  destruct (push orders _) as [orders' |]; [| discriminate]. cbn [bind].
  destruct (writeOrders cfg orders' w2) as [[[] |] w3]; [| discriminate].
  destruct (sendOrderConfirmationEmail cfg _); cbn [notified];
    intros H; injection H as <-;
    exists total, items, customer, w1; split; reflexivity.
Qed.

Lemma checkout_prepare_agree (body body' : value) (w : world)
  (cart cart' : list value) (customer : value) :
  request_fields body = (VArr cart, customer) ->
  request_fields body' = (VArr cart', customer) ->
  Forall2 same_order_fields cart cart' ->
  checkout_prepare body' w = checkout_prepare body w.
Proof.
  intros Hb Hb' Hagree. unfold checkout_prepare. rewrite Hb, Hb'.
  destruct Hagree as [| a b rest rest' Hab Hrest]; [reflexivity |].
  destruct (customer_incomplete customer); [reflexivity |].
  destruct (readJson PRODUCTS_FILE (VArr []) w) as [ps w'].
  destruct (build_product_map ps) as [pm |]; [| reflexivity].
  rewrite (resolve_items_agree pm (a :: rest) (b :: rest'));
    [reflexivity | constructor; assumption].
Qed.

(** C1. When the checkout places an order, the order's items are the cart
    entries that resolve against the catalog, in cart order; each line
    carries the catalog entry's price, the coerced quantity and their
    product as line total; the order total is the sum of the line totals
    (accumulated in cart order from 0); and a second request that differs
    from the first only in properties of the cart entries other than
    [productId], [quantity], [size] and [color] (a [price] supplied by the
    client, say) gets exactly the same outcome. *)
Theorem checkout_totals_from_catalog (cfg : config) (clk : clock)
  (body : value) (w : world) (order : value) :
  notified (checkout cfg clk body w) = Some order ->
  exists (cart : list value) (customer : value) (pm : jsmap value),
    request_fields body = (VArr cart, customer)
    /\ cart <> []
    /\ customer_incomplete customer = false
    /\ build_product_map (catalog w) = Ok pm
    /\ prop order "items" = VArr (map (priced pm) (filter (accepted pm) cart))
    /\ Forall
         (fun item =>
            let product := lookup_product pm (prop item "productId") in
            exists quantity price : float,
              coerce_quantity (prop item "quantity") = Ok quantity
              /\ ToNumber (prop product "price") = Ok price
              /\ prop (priced pm item) "price" = prop product "price"
              /\ prop (priced pm item) "quantity" = VNum quantity
              /\ prop (priced pm item) "lineTotal"
                 = VNum (price * quantity)%float)
         (filter (accepted pm) cart)
    /\ prop order "total"
       = VNum (sum_floats
                 (line_totals (map (priced pm) (filter (accepted pm) cart))))
    /\ (forall (body' : value) (cart' : list value),
           request_fields body' = (VArr cart', customer) ->
           Forall2 same_order_fields cart cart' ->
           checkout cfg clk body' w = checkout cfg clk body w).
Proof.
  intros Hplaced.
  destruct (checkout_notified _ _ _ _ _ Hplaced)
    as (total & items & customer & w1 & Hprep & ->).
  destruct (checkout_prepare_proceeds _ _ _ _ _ _ Hprep)
    as (cart & pm & Hfields & Hcart & Hcust & Hpm & Hres & _ & _).
  pose proof (resolve_items_returns _ _ _ _ _ Hres) as Hobj.
  rewrite (resolve_items_closed pm cart Hobj) in Hres.
  injection Hres as <- <-.
  exists cart, customer, pm. repeat split; try assumption.
  - apply Forall_forall. intros item Hin. cbv zeta.
    apply filter_In in Hin. destruct Hin as [Hin Hacc].
    pose proof (proj1 (Forall_forall _ cart) Hobj item Hin) as Hpass.
    unfold priceable in Hpass. rewrite Hacc in Hpass.
    apply andb_prop in Hpass. destruct Hpass as [_ Hpass].
    cbn [negb orb] in Hpass. apply andb_prop in Hpass.
    destruct Hpass as [Hq Hp].
    exists (quantity_of (prop item "quantity")),
      (number_of (prop (lookup_product pm (prop item "productId")) "price")).
    rewrite coerce_quantity_cases, Hq, ToNumber_cases, Hp.
    repeat split.
  - cbn. rewrite sum_line_totals_priced. reflexivity.
  - intros body' cart' Hfields' Hagree. unfold checkout.
    rewrite (checkout_prepare_agree body body' w cart cart' customer);
      auto.
Qed.
End CheckoutTheorems.

(** The specification's example: two of [p1] at 10 each, the cart entry
    carrying a price of 0.5 that goes unused. *)
Lemma checkout_totals_from_catalog_witness :
  notified (checkout Demo.local_cfg (Demo.at_ms 1714557600000)
              (Demo.cart_of (VNum 2%float)) Demo.shop)
  = Some (Demo.order_of 1714557600000 2%float 20%float)
  /\ exists (cart : list value) (customer : value) (pm : jsmap value),
       request_fields (Demo.cart_of (VNum 2%float)) = (VArr cart, customer)
       /\ build_product_map (catalog Demo.shop) = Ok pm
       /\ prop (Demo.order_of 1714557600000 2%float 20%float) "total"
          = VNum (sum_floats
                    (line_totals
                       (map (priced pm) (filter (accepted pm) cart)))).
Proof.
  assert (Hplaced :
            notified (checkout Demo.local_cfg (Demo.at_ms 1714557600000)
                        (Demo.cart_of (VNum 2%float)) Demo.shop)
            = Some (Demo.order_of 1714557600000 2%float 20%float))
    by (vm_compute; reflexivity).
  split; [exact Hplaced |].
  destruct (checkout_totals_from_catalog _ _ _ _ _ Hplaced)
    as (cart & customer & pm & Hf & _ & _ & Hpm & _ & _ & Htotal & _).
  exists cart, customer, pm. repeat split; assumption.
Defined.

(* --------------------------------------------------------------------- *)
(** ** Quantities *)
(* --------------------------------------------------------------------- *)

Lemma Forall2_map_right {A B : Type} (P : A -> B -> Prop) (f : A -> B)
  (l : list A) :
  (forall x, In x l -> P x (f x)) -> Forall2 P l (map f l).
Proof.
  induction l as [| x l IH]; intros H; simpl; constructor.
  - apply H. left. reflexivity.
  - apply IH. intros y Hy. apply H. right. exact Hy.
Qed.

Section Quantities.
Context {RT : Runtime}.

Lemma quantity_of_cases (q : value) :
  let n := number_of q in
  (is_nan n = true -> quantity_of q = 1%float)
  /\ (is_zero n = true -> quantity_of q = 1%float)
  /\ (is_nan n = false -> is_zero n = false -> quantity_of q = n)
  /\ truthy_num (quantity_of q) = true.
Proof.
  unfold quantity_of, truthy_num. cbv zeta.
  destruct (is_zero (number_of q)) eqn:Hz, (is_nan (number_of q)) eqn:Hn;
    cbn [orb negb]; repeat split; intros; try discriminate;
    try reflexivity; try rewrite Hz, Hn; reflexivity.
Qed.

(** C5, as the code has it.  The quantity of the line item built for a
    cart entry is [Number(item.quantity)] when that is neither [0] nor
    [NaN], and [1] otherwise: an absent, a non-numeric and a zero quantity
    all become [1], so no line item has a zero or [NaN] quantity.  Nothing
    else is checked: a negative or a fractional quantity is kept as it
    was submitted. *)
Theorem quantity_defaults_to_one (pm : jsmap value) (cart : list value)
  (total : float) (items : list value) :
  resolve_items pm cart 0%float [] = Ok (total, items) ->
  Forall2
    (fun item li =>
       let submitted := prop item "quantity" in
       exists n quantity : float,
         ToNumber submitted = Ok n
         /\ prop li "quantity" = VNum quantity
         /\ (submitted = VUndefined -> quantity = 1%float)
         /\ (is_nan n = true -> quantity = 1%float)
         /\ (is_zero n = true -> quantity = 1%float)
         /\ (is_nan n = false -> is_zero n = false -> quantity = n)
         /\ is_zero quantity = false
         /\ is_nan quantity = false)
    (filter (accepted pm) cart) items.
Proof.
  intros Hres.
  pose proof (resolve_items_returns _ _ _ _ _ Hres) as Hobj.
  rewrite (resolve_items_closed pm cart Hobj) in Hres.
  injection Hres as _ <-. cbn [app].
  apply Forall2_map_right. intros item Hin. cbv zeta.
  apply filter_In in Hin. destruct Hin as [Hin Hacc].
  pose proof (proj1 (Forall_forall _ cart) Hobj item Hin) as Hpass.
  unfold priceable in Hpass. rewrite Hacc in Hpass.
  apply andb_prop in Hpass. destruct Hpass as [_ Hpass].
  cbn [negb orb] in Hpass. apply andb_prop in Hpass.
  destruct Hpass as [Hq _].
  exists (number_of (prop item "quantity")),
    (quantity_of (prop item "quantity")).
  destruct (quantity_of_cases (prop item "quantity"))
    as (Hnan & Hzero & Hkeep & Htruthy).
  rewrite ToNumber_cases, Hq.
  split; [reflexivity |]. split; [reflexivity |].
  split; [intros Hu; apply Hnan; rewrite Hu; reflexivity |].
  split; [exact Hnan |]. split; [exact Hzero |]. split; [exact Hkeep |].
  unfold truthy_num in Htruthy.
  destruct (is_zero (quantity_of (prop item "quantity")));
    destruct (is_nan (quantity_of (prop item "quantity")));
    try discriminate. split; reflexivity.
Qed.
End Quantities.

(** An absent, a non-numeric and a zero quantity become 1; 3 stays 3. *)
Lemma quantity_defaults_to_one_witness :
  resolve_items
    [(VStr "p1", VObj [("id", VStr "p1"); ("price", VNum 10%float)])]
    [VObj [("productId", VStr "p1")];
     VObj [("productId", VStr "p1"); ("quantity", VStr "many")];
     VObj [("productId", VStr "p1"); ("quantity", VNum 0%float)];
     VObj [("productId", VStr "p1"); ("quantity", VNum 3%float)]]
    0%float []
  = Ok (60%float,
        map (fun q =>
               VObj [ ("productId", VStr "p1"); ("name", VUndefined);
                      ("category", VUndefined); ("price", VNum 10%float);
                      ("quantity", VNum q); ("size", VStr "Medium");
                      ("color", VStr "");
                      ("lineTotal", VNum (10 * q)%float) ])
          [1%float; 1%float; 1%float; 3%float])
  /\ Forall2
       (fun item li =>
          exists quantity : float,
            prop li "quantity" = VNum quantity /\ is_zero quantity = false)
       (filter
          (accepted
             [(VStr "p1", VObj [("id", VStr "p1"); ("price", VNum 10%float)])])
          [VObj [("productId", VStr "p1")];
           VObj [("productId", VStr "p1"); ("quantity", VStr "many")];
           VObj [("productId", VStr "p1"); ("quantity", VNum 0%float)];
           VObj [("productId", VStr "p1"); ("quantity", VNum 3%float)]])
       (map (fun q =>
               VObj [ ("productId", VStr "p1"); ("name", VUndefined);
                      ("category", VUndefined); ("price", VNum 10%float);
                      ("quantity", VNum q); ("size", VStr "Medium");
                      ("color", VStr "");
                      ("lineTotal", VNum (10 * q)%float) ])
          [1%float; 1%float; 1%float; 3%float]).
Proof.
  assert (Hres :
            resolve_items
              [(VStr "p1", VObj [("id", VStr "p1"); ("price", VNum 10%float)])]
              [VObj [("productId", VStr "p1")];
               VObj [("productId", VStr "p1"); ("quantity", VStr "many")];
               VObj [("productId", VStr "p1"); ("quantity", VNum 0%float)];
               VObj [("productId", VStr "p1"); ("quantity", VNum 3%float)]]
              0%float []
            = Ok (60%float,
                  map (fun q =>
                         VObj [ ("productId", VStr "p1"); ("name", VUndefined);
                                ("category", VUndefined);
                                ("price", VNum 10%float);
                                ("quantity", VNum q); ("size", VStr "Medium");
                                ("color", VStr "");
                                ("lineTotal", VNum (10 * q)%float) ])
                    [1%float; 1%float; 1%float; 3%float]))
    by (vm_compute; reflexivity).
  split; [exact Hres |].
  pose proof (quantity_defaults_to_one _ _ _ _ Hres) as H.
  eapply Forall2_impl; [| exact H].
  cbv beta zeta. intros item li (n & q & _ & Hq & _ & _ & _ & _ & Hz & _).
  exists q. split; assumption.
Defined.

(** C5 as worded fails: a quantity of [-3] and a quantity of [2.5] are
    both taken over into the order as they are, and the order is written
    to the ledger with them. *)
Lemma quantity_negative_or_fractional_kept :
  notified (checkout Demo.local_cfg (Demo.at_ms 1714557600000)
              (Demo.cart_of (VNum (-3)%float)) Demo.shop)
  = Some (Demo.order_of 1714557600000 (-3)%float (-30)%float)
  /\ ledger Demo.local_cfg
       (after (checkout Demo.local_cfg (Demo.at_ms 1714557600000)
                 (Demo.cart_of (VNum (-3)%float)) Demo.shop))
     = VArr [Demo.order_of 1714557600000 (-3)%float (-30)%float]
  /\ positive_integer (-3)%float = false
  /\ notified (checkout Demo.local_cfg (Demo.at_ms 1714557600000)
                 (Demo.cart_of (VNum 2.5%float)) Demo.shop)
     = Some (Demo.order_of 1714557600000 2.5%float 25%float)
  /\ positive_integer 2.5%float = false.
Proof. vm_compute. repeat split. Qed.

(* --------------------------------------------------------------------- *)
(** ** Unknown products *)
(* --------------------------------------------------------------------- *)

Lemma map_get_set {V : Type} (m : jsmap V) (k k' : value) (v x : V) :
  map_get (map_set m k v) k' = Some x -> x = v \/ map_get m k' = Some x.
Proof.
  induction m as [| [k0 v0] m IH]; simpl.
  - destruct (same_value_zero k k'); [| discriminate].
    intros H. injection H as <-. left. reflexivity.
  - destruct (same_value_zero k0 k) eqn:E0; simpl.
    + destruct (same_value_zero k0 k'); [| tauto].
      intros H. injection H as <-. left. reflexivity.
    + destruct (same_value_zero k0 k'); [tauto | exact IH].
Qed.

Lemma map_of_pairs_values {V : Type} (P : V -> Prop)
  (pairs : list (value * V)) :
  Forall (fun kv => P (snd kv)) pairs ->
  forall (k : value) (x : V), map_get (map_of_pairs pairs) k = Some x -> P x.
Proof.
  unfold map_of_pairs. intros Hpairs.
  enough (G : forall m : jsmap V,
             (forall k x, map_get m k = Some x -> P x) ->
             forall k x,
               map_get (fold_left (fun m kv => map_set m (fst kv) (snd kv))
                          pairs m) k = Some x -> P x).
  { apply G. intros k x H. discriminate H. }
  induction Hpairs as [| [k0 v0] pairs Hv _ IH]; intros m Hm; simpl.
  - exact Hm.
  - apply IH. intros k x H.
    destruct (map_get_set _ _ _ _ _ H) as [-> | H']; [exact Hv | eauto].
Qed.

Lemma find_app_or {A : Type} (P : A -> bool) (l1 l2 : list A) :
  find P (l1 ++ l2)
  = match find P l1 with
    | Some x => Some x
    | None => find P l2
    end.
Proof.
  induction l1 as [| x l1 IH]; [reflexivity |].
  cbn [app find]. destruct (P x); [reflexivity | exact IH].
Qed.

Lemma find_map_pair {A B : Type} (g : A -> B) (P : B -> bool) (l : list A) :
  find P (map g l) = option_map g (find (fun x => P (g x)) l).
Proof.
  induction l as [| x l IH]; [reflexivity |].
  cbn [map find]. destruct (P (g x)); [reflexivity | exact IH].
Qed.

Lemma same_value_zero_string (k k' : value) (id : string) :
  same_value_zero k' k = true ->
  same_value_zero k' (VStr id) = same_value_zero k (VStr id).
Proof.
  destruct k, k'; cbn; try discriminate; try reflexivity.
  intros H. apply String.eqb_eq in H. subst. reflexivity.
Qed.

Lemma map_get_set_string {V : Type} (m : jsmap V) (k : value) (v : V)
  (id : string) :
  map_get (map_set m k v) (VStr id)
  = if same_value_zero k (VStr id) then Some v else map_get m (VStr id).
Proof.
  induction m as [| [k' v'] m IH]; cbn [map_set map_get].
  - destruct (same_value_zero k (VStr id)); reflexivity.
  - destruct (same_value_zero k' k) eqn:E; cbn [map_get].
    + rewrite (same_value_zero_string k k' id E).
      destruct (same_value_zero k (VStr id)); reflexivity.
    + rewrite IH.
      destruct (same_value_zero k' (VStr id)) eqn:E';
        [| reflexivity].
      destruct (same_value_zero k (VStr id)) eqn:E''; [| reflexivity].
      exfalso. destruct k, k'; cbn in *; try discriminate.
      apply String.eqb_eq in E', E''. subst.
      rewrite String.eqb_refl in E. discriminate.
Qed.

Lemma map_of_pairs_last {V : Type} (pairs : list (value * V)) (id : string) :
  map_get (map_of_pairs pairs) (VStr id)
  = option_map snd
      (find (fun kv => same_value_zero (fst kv) (VStr id)) (rev pairs)).
Proof.
  unfold map_of_pairs.
  enough (G : forall m : jsmap V,
             map_get (fold_left (fun m kv => map_set m (fst kv) (snd kv))
                        pairs m) (VStr id)
             = match find (fun kv => same_value_zero (fst kv) (VStr id))
                       (rev pairs) with
               | Some kv => Some (snd kv)
               | None => map_get m (VStr id)
               end).
  { rewrite G. destruct (find _ (rev pairs)); reflexivity. }
  induction pairs as [| [k v] pairs IH]; intros m; [reflexivity |].
  cbn [fold_left rev fst snd]. rewrite IH, find_app_or.
  destruct (find _ (rev pairs)); [reflexivity |].
  cbn [find fst snd]. rewrite map_get_set_string.
  destruct (same_value_zero k (VStr id)); reflexivity.
Qed.

(** A key [get] finds in a map built by [set]s was set. *)
Lemma map_get_set_key {V : Type} (m : jsmap V) (k k' : value) (v x : V) :
  map_get (map_set m k v) k' = Some x ->
  same_value_zero k k' = true \/ exists y, map_get m k' = Some y.
Proof.
  induction m as [| [k0 v0] m IH]; cbn [map_set map_get].
  - destruct (same_value_zero k k'); [auto | discriminate].
  - destruct (same_value_zero k0 k); cbn [map_get].
    + destruct (same_value_zero k0 k'); [eauto | eauto].
    + destruct (same_value_zero k0 k'); [eauto | exact IH].
Qed.

Lemma map_of_pairs_keys {V : Type} (pairs : list (value * V)) (k : value)
  (x : V) :
  map_get (map_of_pairs pairs) k = Some x ->
  existsb (fun kv => same_value_zero (fst kv) k) pairs = true.
Proof.
  unfold map_of_pairs.
  enough (G : forall m : jsmap V,
             map_get (fold_left (fun m kv => map_set m (fst kv) (snd kv))
                        pairs m) k <> None ->
             existsb (fun kv => same_value_zero (fst kv) k) pairs = true
             \/ map_get m k <> None).
  { intros H. destruct (G []) as [Hin | Hm]; [congruence | exact Hin |].
    exfalso. apply Hm. reflexivity. }
  induction pairs as [| [k0 v0] pairs IH]; intros m H; [right; exact H |].
  cbn [fold_left fst snd existsb] in *.
  destruct (IH _ H) as [Hin | Hset].
  - left. rewrite Hin. apply orb_true_r.
  - destruct (map_get (map_set m k0 v0) k) as [y |] eqn:E; [| congruence].
    destruct (map_get_set_key _ _ _ _ _ E) as [-> | [z Hz]].
    + left. reflexivity.
    + right. congruence.
Qed.

Lemma existsb_through_map {A B : Type} (g : A -> B) (f : B -> bool)
  (l : list A) :
  existsb f (map g l) = existsb (fun x => f (g x)) l.
Proof.
  induction l as [| x l IH]; [reflexivity |].
  cbn [map existsb]. rewrite IH. reflexivity.
Qed.

Lemma existsb_find_rev {A : Type} (f : A -> bool) (l : list A) :
  existsb f l = match find f (rev l) with
                | Some _ => true
                | None => false
                end.
Proof.
  destruct (find f (rev l)) as [x |] eqn:E.
  - apply find_some in E. destruct E as [Hin Hx].
    apply existsb_exists. exists x. split; [| exact Hx].
    apply in_rev. exact Hin.
  - destruct (existsb f l) eqn:Ex; [| reflexivity].
    apply existsb_exists in Ex. destruct Ex as (x & Hin & Hx).
    apply in_rev in Hin. rewrite (find_none _ _ E x Hin) in Hx.
    discriminate.
Qed.

Section UnknownProducts.
Context {RT : Runtime}.

Lemma product_pairs_returns (ps : list value) (pairs : list (value * value)) :
  product_pairs ps = Ok pairs ->
  pairs = map (fun p => (prop p "id", p)) ps.
Proof.
  revert pairs. induction ps as [| p ps IH]; intros pairs; cbn.
  - intros H. injection H as <-. reflexivity.
  - unfold get. destruct (nullish p); [discriminate |]. cbn [bind].
    destruct (product_pairs ps) as [rest |]; [| discriminate].
    cbn [bind]. intros H. injection H as <-. rewrite (IH rest eq_refl).
    reflexivity.
Qed.

Lemma product_pairs_defined (ps : list value) :
  Forall (fun p => nullish p = false) ps ->
  product_pairs ps = Ok (map (fun p => (prop p "id", p)) ps).
Proof.
  induction 1 as [| p ps Hp _ IH]; cbn [product_pairs map]; [reflexivity |].
  rewrite (get_ok _ _ Hp), IH. reflexivity.
Qed.

(** What [productMap.get] gives for a string: the last entry of the
    catalog under that identifier. *)
Lemma lookup_last (ps : list value) (pm : jsmap value) (id : string) :
  build_product_map (VArr ps) = Ok pm ->
  lookup_product pm (VStr id)
  = match find (fun p => same_value_zero (prop p "id") (VStr id)) (rev ps) with
    | Some p => p
    | None => VUndefined
    end.
Proof.
  cbn [build_product_map].
  destruct (product_pairs ps) as [pairs |] eqn:E; [| discriminate].
  cbn [bind]. intros H. injection H as <-.
  unfold lookup_product.
  rewrite map_of_pairs_last, (product_pairs_returns ps pairs E).
  rewrite <- map_rev, find_map_pair. cbn [fst].
  destruct (find _ (rev ps)); reflexivity.
Qed.

(** An identifier no catalog entry has resolves to nothing. *)
Lemma unlisted_not_accepted (ps : list value) (pm : jsmap value)
  (item : value) :
  build_product_map (VArr ps) = Ok pm ->
  listed ps item = false ->
  accepted pm item = false.
Proof.
  cbn [build_product_map].
  destruct (product_pairs ps) as [pairs |] eqn:E; [| discriminate].
  cbn [bind]. intros H Hno. injection H as <-.
  unfold accepted, lookup_product.
  destruct (map_get (map_of_pairs pairs) (prop item "productId")) as [p |]
    eqn:Hget; [| reflexivity].
  apply map_of_pairs_keys in Hget.
  rewrite (product_pairs_returns ps pairs E), existsb_through_map in Hget.
  unfold listed in Hno. cbn [fst] in Hget. congruence.
Qed.

(** In a catalog of objects, an entry with a string for an identifier
    resolves exactly when some catalog entry has the identifier. *)
Lemma accepted_listed (ps : list value) (pm : jsmap value) (item : value)
  (id : string) :
  build_product_map (VArr ps) = Ok pm ->
  Forall (fun p => is_object p = true) ps ->
  prop item "productId" = VStr id ->
  accepted pm item = listed ps item.
Proof.
  intros Hpm Hps Hid. unfold accepted, listed.
  rewrite Hid, (lookup_last ps pm id Hpm), existsb_find_rev.
  destruct (find _ (rev ps)) as [p |] eqn:E; [| reflexivity].
  apply find_some in E. destruct E as [Hin _]. apply in_rev in Hin.
  pose proof (proj1 (Forall_forall _ ps) Hps p Hin) as Hobj.
  destruct p; try discriminate. reflexivity.
Qed.

Lemma filter_none {A : Type} (f : A -> bool) (l : list A) :
  filter f l = [] <-> Forall (fun x => f x = false) l.
Proof.
  induction l as [| x l IH]; simpl.
  - split; constructor.
  - destruct (f x) eqn:E; split; intros H.
    + discriminate.
    + inversion H; congruence.
    + constructor; [exact E | apply IH; exact H].
    + inversion H; apply IH; assumption.
Qed.

(** The loop does on a cart what it does on the entries of it that
    resolve: a skipped entry leaves nothing behind, not an error
    either. *)
Lemma resolve_items_skips (pm : jsmap value) (cart : list value) :
  Forall (fun item => nullish item = false) cart ->
  forall (total : float) (items : list value),
    resolve_items pm cart total items
    = resolve_items pm (filter (accepted pm) cart) total items.
Proof.
  induction 1 as [| item rest Hitem _ IH]; intros total items;
    [reflexivity |].
  cbn [filter resolve_items]. rewrite (get_ok _ _ Hitem). cbn [bind].
  unfold accepted at 1.
  destruct (truthy (lookup_product pm (prop item "productId"))) eqn:Ht;
    cbn [negb]; [| apply IH].
  cbn [resolve_items]. rewrite (get_ok _ _ Hitem). cbn [bind].
  rewrite Ht. cbn [negb].
  destruct (coerce_quantity (prop item "quantity")) as [q | e];
    [| reflexivity].
  cbn [bind]. destruct (ToNumber _) as [price | e]; [| reflexivity].
  cbn [bind]. apply IH.
Qed.

Lemma resolve_items_nothing (pm : jsmap value) (cart : list value) :
  Forall (fun item => nullish item = false) cart ->
  Forall (fun item => accepted pm item = false) cart ->
  forall (total : float) (items : list value),
    resolve_items pm cart total items = Ok (total, items).
Proof.
  intros Hcart Hnone total items.
  rewrite (resolve_items_skips pm cart Hcart).
  rewrite (proj2 (filter_none _ _) Hnone). reflexivity.
Qed.

Lemma checkout_commit_response (cfg : config) (clk : clock) (total : float)
  (items : list value) (customer : value) (w : world) :
  response (checkout_commit cfg clk total items customer w)
  = Reply 200 (placed_body clk)
  \/ exists e, response (checkout_commit cfg clk total items customer w)
               = Unhandled e.
Proof.
  unfold checkout_commit, checkout_append, checkout_write.
  destruct (readOrders cfg w) as [orders w2].
  destruct (push orders _) as [orders' | e]; cbn [bind].
  - destruct (writeOrders cfg orders' w2) as [[[] | e] w3]; cbn; eauto.
    destruct (sendOrderConfirmationEmail cfg _); cbn; eauto.
  - cbn. eauto.
Qed.

(** C6, as the code has it.  With a non-empty cart none of whose entries
    is [null] or [undefined], complete customer information and a catalog
    file that holds an array with no [null] in it: a cart entry whose
    product identifier no catalog entry has is skipped, and a skipped
    entry leaves nothing behind, neither a line item nor an error: the
    loop does on the whole cart what it does on the entries that
    resolve, and when it returns, its items are those entries, priced,
    in cart order.  The response is the 400 "Cart items are invalid."
    exactly when every entry was skipped.  In a catalog of objects an
    entry with a string for an identifier is skipped exactly when no
    catalog entry has that identifier. *)
Theorem unknown_products_are_dropped (cfg : config) (clk : clock)
  (body : value) (w : world) (cart : list value) (customer : value)
  (ps : list value) :
  request_fields body = (VArr cart, customer) ->
  cart <> [] ->
  customer_incomplete customer = false ->
  catalog w = VArr ps ->
  Forall (fun p => nullish p = false) ps ->
  Forall (fun item => nullish item = false) cart ->
  exists pm : jsmap value,
    build_product_map (catalog w) = Ok pm
    /\ (forall item, listed ps item = false -> accepted pm item = false)
    /\ (forall item id,
           Forall (fun p => is_object p = true) ps ->
           prop item "productId" = VStr id ->
           accepted pm item = listed ps item)
    /\ (forall total items,
           resolve_items pm cart total items
           = resolve_items pm (filter (accepted pm) cart) total items)
    /\ (forall total items,
           resolve_items pm cart 0%float [] = Ok (total, items) ->
           items = map (priced pm) (filter (accepted pm) cart))
    /\ (response (checkout cfg clk body w)
        = Reply 400 (error_body "Cart items are invalid.")
        <-> Forall (fun item => accepted pm item = false) cart).
Proof.
  intros Hfields Hcart Hcust Hcat Hps Hitems.
  set (pm := map_of_pairs (map (fun p => (prop p "id", p)) ps)).
  assert (Hpm : build_product_map (VArr ps) = Ok pm).
  { cbn [build_product_map]. rewrite (product_pairs_defined ps Hps).
    reflexivity. }
  assert (Hitems' : forall total items,
             resolve_items pm cart 0%float [] = Ok (total, items) ->
             items = map (priced pm) (filter (accepted pm) cart)).
  { intros total items Hres.
    pose proof (resolve_items_returns _ _ _ _ _ Hres) as Hpass.
    rewrite (resolve_items_closed pm cart Hpass) in Hres.
    injection Hres as _ <-. reflexivity. }
  exists pm. rewrite Hcat.
  split; [exact Hpm |].
  split; [intros item; apply (unlisted_not_accepted ps pm item Hpm) |].
  split; [intros item id Hobj Hid;
          apply (accepted_listed ps pm item id Hpm Hobj Hid) |].
  split; [apply (resolve_items_skips pm cart Hitems) |].
  split; [exact Hitems' |].
  unfold checkout, checkout_prepare. rewrite Hfields.
  destruct cart as [| item rest]; [contradiction |].
  rewrite Hcust. unfold catalog in Hcat.
  destruct (readJson PRODUCTS_FILE (VArr []) w) as [products w1].
  cbn [fst] in Hcat. subst products. rewrite Hpm.
  destruct (resolve_items pm (item :: rest) 0%float [])
    as [[total items] | e] eqn:Hres.
  - pose proof (Hitems' total items eq_refl) as ->.
    rewrite <- filter_none.
    destruct (filter (accepted pm) (item :: rest)) as [| kept more];
      cbn [map].
    + cbn. split; reflexivity.
    + split; [| discriminate].
      match goal with
      | |- context [checkout_commit ?c ?k ?t ?i ?u ?v] =>
          destruct (checkout_commit_response c k t i u v) as [H | [e H]];
          rewrite H; discriminate
      end.
  - cbn. split; [discriminate |].
    intros Hnone.
    rewrite (resolve_items_nothing pm (item :: rest) Hitems Hnone) in Hres.
    discriminate.
Qed.
End UnknownProducts.

(** A cart with one unknown and one known product. *)
Lemma unknown_products_are_dropped_witness :
  (request_fields Demo.stale_body = (VArr Demo.stale_cart, Demo.buyer)
   /\ Demo.stale_cart <> []
   /\ customer_incomplete Demo.buyer = false
   /\ catalog Demo.shop = Demo.products)
  /\ exists pm : jsmap value,
       build_product_map (catalog Demo.shop) = Ok pm
       /\ (forall item, listed (elements Demo.products) item = false ->
                        accepted pm item = false)
       /\ filter (accepted pm) Demo.stale_cart
          = [ VObj [ ("productId", VStr "p1"); ("quantity", VNum 2%float) ] ]
       /\ (response (checkout Demo.local_cfg (Demo.at_ms 1714557600000)
                       Demo.stale_body Demo.shop)
           = Reply 400 (error_body "Cart items are invalid.")
           <-> Forall (fun item => accepted pm item = false)
                 Demo.stale_cart).
Proof.
  split.
  - repeat split. discriminate.
  - destruct (unknown_products_are_dropped Demo.local_cfg
                (Demo.at_ms 1714557600000) Demo.stale_body Demo.shop
                Demo.stale_cart Demo.buyer (elements Demo.products))
      as (pm & Hpm & Hunlisted & _ & _ & _ & Hiff).
    + reflexivity.
    + discriminate.
    + reflexivity.
    + reflexivity.
    + repeat constructor.
    + repeat constructor.
    + exists pm. split; [exact Hpm |]. split; [exact Hunlisted |].
      split; [| exact Hiff].
      assert (E : Ok pm
                  = Ok [(VStr "p1",
                         VObj [ ("id", VStr "p1"); ("name", VStr "Linen Shirt");
                                ("category", VStr "tops");
                                ("price", VNum 10%float) ])])
        by (rewrite <- Hpm; reflexivity).
      injection E as ->. reflexivity.
Defined.

(** C6 as worded fails.  A [null] among the cart entries is not dropped:
    reading its [productId] throws, and the handler ends without a
    response although the catalog has no product for the entry.  And over
    a catalog file with a [null] in it, or one that holds no array, a
    cart of unknown products is not answered "Cart items are invalid."
    but ends in the same way. *)
Lemma null_entries_are_not_dropped :
  response (checkout Demo.local_cfg (Demo.at_ms 1714557600000)
              (VObj [ ("cartItems", VArr [ VNull ]); ("customer", Demo.buyer) ])
              Demo.shop)
  = Unhandled TypeError
  /\ response
       (checkout Demo.local_cfg (Demo.at_ms 1714557600000)
          (VObj [ ("cartItems", VArr [ VObj [ ("productId", VStr "gone") ] ]);
                  ("customer", Demo.buyer) ])
          (set_file Demo.shop PRODUCTS_FILE (FileHolds (VArr [ VNull ]))))
     = Unhandled TypeError
  /\ response
       (checkout Demo.local_cfg (Demo.at_ms 1714557600000)
          (VObj [ ("cartItems", VArr [ VObj [ ("productId", VStr "gone") ] ]);
                  ("customer", Demo.buyer) ])
          (set_file Demo.shop PRODUCTS_FILE (FileHolds (VObj []))))
     = Unhandled TypeError.
Proof. vm_compute. repeat split. Qed.

Example stale_entry_is_skipped :
  notified (checkout Demo.local_cfg (Demo.at_ms 1714557600000)
              Demo.stale_body Demo.shop)
  = Some (Demo.order_of 1714557600000 2%float 20%float).
Proof. vm_compute. reflexivity. Qed.

Example only_stale_entries_is_rejected :
  response (checkout Demo.local_cfg (Demo.at_ms 1714557600000)
              (VObj [ ("cartItems", VArr [ VObj [ ("productId", VStr "gone") ] ]);
                      ("customer", Demo.buyer) ])
              Demo.shop)
  = Reply 400 (error_body "Cart items are invalid.").
Proof. vm_compute. reflexivity. Qed.

(* --------------------------------------------------------------------- *)
(** ** The gateway: reads degrade, writes report or do not *)
(* --------------------------------------------------------------------- *)

Ltac gateway :=
  unfold ledger, directory, catalog, writes_land, readOrders, writeOrders,
    readAdmins, writeAdmins, readBlobJson, writeBlobJson, readJson, writeJson,
    blobGet, blobPut in *.

(** A read never throws, and a backing read that fails or finds nothing
    gives the empty array, file or blob alike. *)
Lemma failed_read_is_empty (cfg : config) (w : world) :
  ((USE_BLOB cfg && blob_sdk cfg = false) ->
   orders_file w = FileAbsent \/ orders_file w = FileUnreadable ->
   ledger cfg w = VArr [])
  /\ ((USE_BLOB cfg && blob_sdk cfg = true) ->
      orders_blob w = BlobMissing \/ orders_blob w = BlobUnavailable ->
      ledger cfg w = VArr [])
  /\ ((USE_BLOB cfg && blob_sdk cfg = false) ->
      admins_file w = FileAbsent \/ admins_file w = FileUnreadable ->
      directory cfg w = VArr [])
  /\ ((USE_BLOB cfg && blob_sdk cfg = true) ->
      admins_blob w = BlobMissing \/ admins_blob w = BlobUnavailable ->
      directory cfg w = VArr []).
Proof.
  gateway.
  destruct (USE_BLOB cfg), (blob_sdk cfg); cbn;
    repeat split; try discriminate; intros _ [H | H]; rewrite H;
    try reflexivity; destruct (fs_writable w); reflexivity.
Qed.

(** An upload the blob store refuses is thrown on to the caller, and
    nothing is stored. *)
Lemma blob_write_failure_is_thrown (cfg : config) (w : world) (data : value) :
  USE_BLOB cfg && blob_sdk cfg = true ->
  blob_writable w = false ->
  writeOrders cfg data w = (Throw StorageError, w)
  /\ writeAdmins cfg data w = (Throw StorageError, w).
Proof.
  gateway. intros Hb Hw.
  destruct (USE_BLOB cfg), (blob_sdk cfg); try discriminate. cbn.
  rewrite Hw, andb_false_r. split; reflexivity.
Qed.

(** A file write that fails is logged inside [writeJson] and not thrown:
    the caller gets the same normal return as after a write that went
    through. *)
Lemma file_write_failure_is_swallowed (cfg : config) (w : world)
  (data : value) :
  USE_BLOB cfg && blob_sdk cfg = false ->
  fs_writable w = false ->
  writeOrders cfg data w = (Ok tt, w)
  /\ writeAdmins cfg data w = (Ok tt, w).
Proof.
  gateway. intros Hb Hw.
  destruct (USE_BLOB cfg), (blob_sdk cfg); try discriminate; cbn;
    rewrite Hw, andb_false_r; split; reflexivity.
Qed.

(** C4, where the code departs from it.  On the local-file store, with a
    data directory that takes no writes, a valid checkout is answered with
    "Order placed successfully!" although the ledger still holds exactly
    what it held before; on the blob store the same failure is thrown to
    the handler and no success is reported. *)
Theorem local_write_failure_goes_unreported :
  let o := checkout Demo.local_cfg (Demo.at_ms 1714557600000)
             (Demo.cart_of (VNum 2%float)) Demo.read_only_shop in
  response o = Reply 200 (placed_body (Demo.at_ms 1714557600000))
  /\ after o = Demo.read_only_shop
  /\ ledger Demo.local_cfg (after o) = VArr [Demo.earlier_order]
  /\ response (checkout Demo.blob_cfg (Demo.at_ms 1714557600000)
                 (Demo.cart_of (VNum 2%float)) Demo.read_only_shop)
     = Unhandled StorageError.
Proof. vm_compute. repeat split. Qed.

(* --------------------------------------------------------------------- *)
(** ** Export and import *)
(* --------------------------------------------------------------------- *)

Section SyncTheorems.
Context {RT : Runtime}.

(** C10. With [DASHBOARD_SYNC_SECRET] unset (or set to the empty string)
    the export answers 401 "Unauthorized" to every request, whatever the
    query string and the [Authorization] header carry, and reads
    nothing. *)
Theorem export_refused_without_secret (cfg : config) (query_secret : value)
  (authorization : option string) (w : world) :
  DASHBOARD_SYNC_SECRET cfg = None \/ DASHBOARD_SYNC_SECRET cfg = Some "" ->
  dashboard_sync cfg query_secret authorization w
  = (Reply 401 (error_body "Unauthorized"), w).
Proof.
  unfold dashboard_sync. intros [H | H]; rewrite H; reflexivity.
Qed.

(** With a secret configured, the export serves exactly the requests
    that supply that very string. *)
Lemma export_serves_on_match (cfg : config) (secret : string)
  (authorization : option string) (w : world) :
  DASHBOARD_SYNC_SECRET cfg = Some secret ->
  secret <> "" ->
  exists w',
    dashboard_sync cfg (VStr secret) authorization w
    = (Reply 200 (VObj [ ("orders", js_or (ledger cfg w) (VArr []));
                         ("admins",
                           js_or (directory cfg (snd (readOrders cfg w)))
                             (VArr [])) ]),
       w').
Proof.
  intros Hs Hne. unfold dashboard_sync, ledger, directory. rewrite Hs.
  assert (Ht : truthy (VStr secret) = true).
  { cbn. destruct (String.eqb_spec secret ""); [contradiction | reflexivity]. }
  cbn [env]. unfold js_or at 1. rewrite Ht. cbn [strict_eq].
  rewrite String.eqb_refl. cbn [negb orb].
  destruct (readOrders cfg w) as [orders w1].
  cbn [fst snd]. destruct (readAdmins cfg w1) as [admins w2].
  exists w2. reflexivity.
Qed.

Lemma write_orders_lands (cfg : config) (w : world) (data : value) :
  has_json_text data = true ->
  writes_land cfg w = true ->
  exists w',
    writeOrders cfg data w = (Ok tt, w')
    /\ ledger cfg w' = json_clean data
    /\ directory cfg w' = directory cfg w
    /\ writes_land cfg w' = true.
Proof.
  gateway. intros Hdata Hw.
  destruct (USE_BLOB cfg), (blob_sdk cfg); cbn in *; rewrite Hdata, Hw;
    eexists; (split; [reflexivity |]); cbn; rewrite ?Hw;
    repeat split; try reflexivity;
    try (destruct (admins_file w); reflexivity);
    try (destruct (orders_file w); reflexivity);
    try (destruct (admins_blob w); reflexivity);
    destruct (orders_blob w); reflexivity.
Qed.

Lemma write_admins_lands (cfg : config) (w : world) (data : value) :
  has_json_text data = true ->
  writes_land cfg w = true ->
  exists w',
    writeAdmins cfg data w = (Ok tt, w')
    /\ directory cfg w' = json_clean data
    /\ ledger cfg w' = ledger cfg w
    /\ writes_land cfg w' = true.
Proof.
  gateway. intros Hdata Hw.
  destruct (USE_BLOB cfg), (blob_sdk cfg); cbn in *; rewrite Hdata, Hw;
    eexists; (split; [reflexivity |]); cbn; rewrite ?Hw;
    repeat split; try reflexivity;
    try (destruct (admins_file w); reflexivity);
    try (destruct (orders_file w); reflexivity);
    try (destruct (admins_blob w); reflexivity);
    destruct (orders_blob w); reflexivity.
Qed.

(** When the import reports success and both writes reached the store,
    the two collections are what the origin sent and nothing else. *)
Lemma import_replaces_collections (cfg : config) (resp : http_response)
  (data : value) (L D : list value) (w w' : world) :
  json resp = Ok data ->
  prop data "orders" = VArr L ->
  prop data "admins" = VArr D ->
  json_clean (VArr L) = VArr L ->
  json_clean (VArr D) = VArr D ->
  writes_land cfg w = true ->
  sync_from_production cfg (Ok resp) w
  = (Reply 200 (VObj [ ("success", VBool true);
                       ("orders", VNum (num_of_nat (length L)));
                       ("admins", VNum (num_of_nat (length D))) ]),
     w') ->
  ledger cfg w' = VArr L /\ directory cfg w' = VArr D.
Proof.
  intros Hjson HL HD HcL HcD Hland. unfold sync_from_production.
  destruct (strict_eq _ _); [discriminate |].
  destruct (_ || _); [discriminate |].
  destruct (negb (ok resp)).
  { destruct (text resp); discriminate. }
  rewrite Hjson. unfold get. destruct (nullish data) eqn:Hn.
  { destruct data; discriminate. }
  rewrite HL, HD. cbn [array_or_empty isArray].
  destruct (write_orders_lands cfg w (VArr L) eq_refl Hland)
    as (w1 & -> & Hl1 & Hd1 & Hland1).
  destruct (write_admins_lands cfg w1 (VArr D) eq_refl Hland1)
    as (w2 & -> & Hd2 & Hl2 & _).
  intros H. injection H as <-. rewrite Hl2, Hl1, Hd2. split; assumption.
Qed.
End SyncTheorems.

(** No secret configured; none supplied, then an empty one supplied. *)
Lemma export_refused_without_secret_witness :
  (DASHBOARD_SYNC_SECRET Demo.local_cfg = None
   \/ DASHBOARD_SYNC_SECRET Demo.local_cfg = Some "")
  /\ dashboard_sync Demo.local_cfg VUndefined None Demo.shop
     = (Reply 401 (error_body "Unauthorized"), Demo.shop)
  /\ dashboard_sync Demo.local_cfg (VStr "") (Some "Bearer ") Demo.shop
     = (Reply 401 (error_body "Unauthorized"), Demo.shop).
Proof.
  split; [left; reflexivity |].
  split; apply export_refused_without_secret; left; reflexivity.
Defined.

(** C3, where the code departs from it.  The dashboard runs on local
    files and the data directory takes no writes; the origin's export
    answered with one order and one admin.  The import answers
    [{success: true, orders: 1, admins: 1}] while the ledger still holds
    the order it held before and the directory is still empty. *)
Theorem import_success_without_replacement :
  sync_from_production Demo.dashboard_cfg (Ok Demo.export_response)
    Demo.read_only_shop
  = (Reply 200 (VObj [ ("success", VBool true);
                       ("orders", VNum 1%float);
                       ("admins", VNum 1%float) ]),
     Demo.read_only_shop)
  /\ ledger Demo.dashboard_cfg Demo.read_only_shop = VArr [Demo.earlier_order]
  /\ directory Demo.dashboard_cfg Demo.read_only_shop = VArr []
  /\ VArr [Demo.earlier_order] <> VArr [Demo.hosted_order].
Proof.
  repeat split; try (vm_compute; reflexivity). discriminate.
Qed.

Example import_replaces_on_writable_disk :
  let w' := snd (sync_from_production Demo.dashboard_cfg
                   (Ok Demo.export_response)
                   (set_file Demo.shop ORDERS_FILE
                      (FileHolds (VArr [Demo.earlier_order])))) in
  ledger Demo.dashboard_cfg w' = VArr [Demo.hosted_order]
  /\ directory Demo.dashboard_cfg w' = VArr [Demo.hosted_admin].
Proof. vm_compute. split; reflexivity. Qed.

(* --------------------------------------------------------------------- *)
(** ** The admin directory *)
(* --------------------------------------------------------------------- *)

Lemma NoDup_map_eq {A B : Type} (f : A -> B) (l : list A) (x y : A) :
  NoDup (map f l) -> In x l -> In y l -> f x = f y -> x = y.
Proof.
  induction l as [| a l IH]; simpl; intros Hnd Hx Hy Hf; [contradiction |].
  inversion Hnd as [| ? ? Hnotin Hnd']; subst.
  destruct Hx as [-> | Hx], Hy as [-> | Hy].
  - reflexivity.
  - exfalso. apply Hnotin. rewrite Hf. apply in_map. exact Hy.
  - exfalso. apply Hnotin. rewrite <- Hf. apply in_map. exact Hx.
  - apply IH; assumption.
Qed.

Section DirectoryFacts.
Context {RT : Runtime}.

Lemma email_key_object (a : value) :
  email_key a <> None -> is_object a = true.
Proof. destruct a; cbn; congruence. Qed.

(** On a directory whose accounts all have an email, [admins.find] does
    not throw and returns the first account with the same lowercased
    email. *)
Lemma find_by_email_first (admins : list value) (e : string) :
  Forall (fun a => email_key a <> None) admins ->
  find_by_email admins (VStr e) = Ok (find (same_email e) admins).
Proof.
  induction 1 as [| a admins Ha _ IH]; [reflexivity |].
  cbn [find_by_email find]. unfold same_email at 1.
  pose proof (email_key_object a Ha) as Hobj.
  unfold email_key in *. unfold get.
  destruct a; try discriminate. cbn [nullish bind].
  destruct (prop (VObj props) "email"); try congruence.
  cbn [call_toLowerCase bind strict_eq].
  destruct (toLowerCase s =? toLowerCase e)%string; [reflexivity | exact IH].
Qed.

Lemma same_email_none (admins : list value) (e : string) :
  ~ In (Some (toLowerCase e)) (map email_key admins) ->
  find (same_email e) admins = None.
Proof.
  intros Hnot.
  destruct (find (same_email e) admins) as [a |] eqn:E; [| reflexivity].
  apply find_some in E. destruct E as [Hin Hsame]. exfalso. apply Hnot.
  unfold same_email in Hsame.
  destruct (email_key a) as [k |] eqn:Hk; [| discriminate].
  apply String.eqb_eq in Hsame. subst k. rewrite <- Hk.
  apply in_map. exact Hin.
Qed.

Lemma same_email_some (admins : list value) (e : string) :
  In (Some (toLowerCase e)) (map email_key admins) ->
  exists a, find (same_email e) admins = Some a
            /\ In a admins /\ email_key a = Some (toLowerCase e).
Proof.
  intros Hin. apply in_map_iff in Hin. destruct Hin as (a0 & Hk0 & Hin0).
  destruct (find (same_email e) admins) as [a |] eqn:E.
  - exists a. apply find_some in E. destruct E as [Hin Hsame].
    unfold same_email in Hsame.
    destruct (email_key a) as [k |] eqn:Hk; [| discriminate].
    apply String.eqb_eq in Hsame. subst k. auto.
  - exfalso. pose proof (find_none _ _ E a0 Hin0) as Hn.
    unfold same_email in Hn. rewrite Hk0, String.eqb_refl in Hn.
    discriminate.
Qed.

Lemma read_admins_again (cfg : config) (w : world) :
  directory cfg (snd (readAdmins cfg w)) = directory cfg w
  /\ (snd (readAdmins cfg w) = w \/ directory cfg w = VArr []).
Proof.
  gateway.
  destruct (USE_BLOB cfg), (blob_sdk cfg); cbn; try (split; [reflexivity | left; reflexivity]);
    destruct (admins_file w) eqn:Hf; cbn; rewrite ?Hf; auto;
    destruct (fs_writable w) eqn:Hw; cbn; rewrite ?Hf, ?Hw; auto.
Qed.
End DirectoryFacts.

Section LoginTheorems.
Context {RT : Runtime}.

Lemma truthy_string (s : string) : s <> "" -> truthy (VStr s) = true.
Proof.
  intros H. cbn. destruct (String.eqb_spec s ""); [contradiction | reflexivity].
Qed.

Lemma login_unknown_email (cfg : config) (s : session) (w : world)
  (body : value) (admins : list value) (e p : string) :
  directory cfg w = VArr admins ->
  Forall (fun a => email_key a <> None) admins ->
  credentials body = (VStr e, VStr p) ->
  e <> "" -> p <> "" ->
  ~ In (Some (toLowerCase e)) (map email_key admins) ->
  login cfg body s w
  = admin_respond (Reply 401 (error_body "Invalid email or password.")) s
      (snd (readAdmins cfg w)).
Proof.
  intros Hdir Hwf Hcred He Hp Hunknown. unfold login. rewrite Hcred.
  rewrite (truthy_string e He), (truthy_string p Hp). cbn [negb orb].
  unfold directory in Hdir.
  destruct (readAdmins cfg w) as [v w1]. cbn [fst snd] in *. subst v.
  cbn [find_admin]. rewrite (find_by_email_first admins e Hwf).
  rewrite (same_email_none admins e Hunknown). reflexivity.
Qed.

Lemma login_wrong_password (cfg : config) (s : session) (w : world)
  (body : value) (admins : list value) (e p h : string) (a : value) :
  directory cfg w = VArr admins ->
  directory_ok admins ->
  credentials body = (VStr e, VStr p) ->
  e <> "" -> p <> "" ->
  In a admins ->
  email_key a = Some (toLowerCase e) ->
  prop a "passwordHash" = VStr h ->
  bcrypt_compare p h = false ->
  login cfg body s w
  = admin_respond (Reply 401 (error_body "Invalid email or password.")) s
      (snd (readAdmins cfg w)).
Proof.
  intros Hdir [Hwf Hnd] Hcred He Hp Hin Hkey Hhash Hcmp. unfold login.
  rewrite Hcred, (truthy_string e He), (truthy_string p Hp). cbn [negb orb].
  unfold directory in Hdir.
  destruct (readAdmins cfg w) as [v w1]. cbn [fst snd] in *. subst v.
  cbn [find_admin]. rewrite (find_by_email_first admins e Hwf).
  destruct (same_email_some admins e) as (a' & Hfind & Hin' & Hkey').
  { rewrite <- Hkey. apply in_map. exact Hin. }
  assert (a' = a) as ->.
  { apply (NoDup_map_eq email_key admins); congruence. }
  rewrite Hfind. cbn [bind].
  assert (Hobj : is_object a = true) by (apply email_key_object; congruence).
  destruct a; try discriminate. cbn [truthy negb].
  rewrite Hhash. cbn [compare_password]. rewrite Hcmp. reflexivity.
Qed.

(** C8, as the code has it. On a directory that satisfies its invariant
    and whose accounts have a string for a hash, when the email and the
    password of each request are non-empty strings, a login with an
    email no account has and a login with the email of an account and a
    password that [bcrypt.compare] finds wrong end the same way: the
    same 401 with the same body "Invalid email or password.", the
    session untouched, the same world. *)
Theorem login_failures_are_alike (cfg : config) (s : session) (w : world)
  (unknown known : value) (admins : list value) (e1 p1 e2 p2 h : string)
  (a : value) :
  directory cfg w = VArr admins ->
  directory_ok admins ->
  credentials unknown = (VStr e1, VStr p1) ->
  credentials known = (VStr e2, VStr p2) ->
  e1 <> "" -> p1 <> "" -> e2 <> "" -> p2 <> "" ->
  ~ In (Some (toLowerCase e1)) (map email_key admins) ->
  In a admins ->
  email_key a = Some (toLowerCase e2) ->
  prop a "passwordHash" = VStr h ->
  bcrypt_compare p2 h = false ->
  login cfg unknown s w = login cfg known s w
  /\ admin_response (login cfg unknown s w)
     = Reply 401 (error_body "Invalid email or password.")
  /\ admin_session (login cfg unknown s w) = s.
Proof.
  intros Hdir Hok Hc1 Hc2 He1 Hp1 He2 Hp2 Hunknown Hin Hkey Hhash Hcmp.
  rewrite (login_unknown_email cfg s w unknown admins e1 p1 Hdir
             (proj1 Hok) Hc1 He1 Hp1 Hunknown).
  rewrite (login_wrong_password cfg s w known admins e2 p2 h a Hdir Hok Hc2
             He2 Hp2 Hin Hkey Hhash Hcmp).
  repeat split.
Qed.
End LoginTheorems.

(** An unknown email against the email of Ada with a wrong password. *)
Lemma login_failures_are_alike_witness :
  login Demo.local_cfg (Demo.login_as "nobody@shop.example" "guess")
    Demo.signed_out Demo.staffed_shop
  = login Demo.local_cfg (Demo.login_as "ada@shop.example" "guess")
      Demo.signed_out Demo.staffed_shop
  /\ admin_response
       (login Demo.local_cfg (Demo.login_as "nobody@shop.example" "guess")
          Demo.signed_out Demo.staffed_shop)
     = Reply 401 (error_body "Invalid email or password.")
  /\ admin_session
       (login Demo.local_cfg (Demo.login_as "nobody@shop.example" "guess")
          Demo.signed_out Demo.staffed_shop)
     = Demo.signed_out.
Proof.
  apply (login_failures_are_alike Demo.local_cfg Demo.signed_out
           Demo.staffed_shop
           (Demo.login_as "nobody@shop.example" "guess")
           (Demo.login_as "ada@shop.example" "guess")
           [Demo.hosted_admin]
           "nobody@shop.example" "guess" "ada@shop.example" "guess"
           "$2a$10$NaCl$correct horse" Demo.hosted_admin).
  - reflexivity.
  - split.
    + repeat constructor. discriminate.
    + repeat constructor. intros [].
  - reflexivity.
  - reflexivity.
  - discriminate.
  - discriminate.
  - discriminate.
  - discriminate.
  - cbn. intros [H | []]. discriminate H.
  - left. reflexivity.
  - reflexivity.
  - reflexivity.
  - reflexivity.
Defined.

(** A password that is a number: with an email no account has the
    answer is the 401, with the email of Ada [bcrypt.compare] rejects and
    the handler has no answer. *)
Lemma login_failures_differ_for_a_number :
  admin_response
    (login Demo.local_cfg
       (VObj [ ("email", VStr "nobody@shop.example");
               ("password", VNum 5%float) ])
       Demo.signed_out Demo.staffed_shop)
  = Reply 401 (error_body "Invalid email or password.")
  /\ admin_response
       (login Demo.local_cfg
          (VObj [ ("email", VStr "ada@shop.example");
                  ("password", VNum 5%float) ])
          Demo.signed_out Demo.staffed_shop)
     = Unhandled BcryptError.
Proof. vm_compute. split; reflexivity. Qed.

Example login_with_the_password :
  admin_response
    (login Demo.local_cfg (Demo.login_as "ADA@shop.example" "correct horse")
       Demo.signed_out Demo.staffed_shop)
  = Reply 200 (VObj [("success", VBool true)])
  /\ adminUserId
       (admin_session
          (login Demo.local_cfg
             (Demo.login_as "ADA@shop.example" "correct horse")
             Demo.signed_out Demo.staffed_shop))
     = VStr "admin-1714000000000".
Proof. vm_compute. split; reflexivity. Qed.

Section SignupTheorems.
Context {RT : Runtime}.

(** Writing an object to JSON text and reading it back keeps every
    property that is not [undefined]. *)
Lemma json_clean_prop (props : list (string * value)) (k : string)
  (v : value) :
  assoc k props = Some v ->
  v <> VUndefined ->
  prop (json_clean (VObj props)) k = json_clean v.
Proof.
  induction props as [| [k' x] props IH]; [discriminate |].
  intros Hassoc Hv. cbn [assoc] in Hassoc.
  destruct (String.eqb_spec k' k) as [-> | Hne].
  - injection Hassoc as ->.
    destruct v; try congruence; cbn; rewrite String.eqb_refl; reflexivity.
  - specialize (IH Hassoc Hv).
    apply String.eqb_neq in Hne.
    destruct x; cbn in *; rewrite ?Hne; exact IH.
Qed.

Lemma email_key_clean (a : value) :
  email_key a <> None -> email_key (json_clean a) = email_key a.
Proof.
  intros Hk. pose proof (email_key_object a Hk) as Hobj.
  destruct a as [| | | | | | props]; try discriminate.
  unfold email_key in *.
  destruct (assoc "email" props) as [v |] eqn:E.
  - assert (Hp : prop (VObj props) "email" = v) by (cbn; rewrite E; reflexivity).
    rewrite Hp in *. destruct v; try congruence.
    rewrite (json_clean_prop props "email" (VStr s) E); [reflexivity | discriminate].
  - exfalso. apply Hk. cbn. rewrite E. reflexivity.
Qed.

Lemma write_admins_cases (cfg : config) (data : value) (w w' : world)
  (r : result unit) :
  writeAdmins cfg data w = (r, w') ->
  directory cfg w' = json_clean data \/ w' = w.
Proof.
  gateway.
  destruct (USE_BLOB cfg), (blob_sdk cfg), (has_json_text data); cbn;
    try destruct (blob_writable w); try destruct (fs_writable w) eqn:Hw;
    intros H; injection H as <- <-; cbn; rewrite ?Hw; auto.
Qed.

Lemma directory_ok_extended (admins : list value) (admin : value)
  (e : string) :
  directory_ok admins ->
  email_key admin = Some (toLowerCase e) ->
  find (same_email e) admins = None ->
  directory_ok (map json_clean (admins ++ [admin])).
Proof.
  intros [Hwf Hnd] Hkey Hfresh.
  assert (Hkeys : map email_key (map json_clean (admins ++ [admin]))
                  = map email_key admins ++ [Some (toLowerCase e)]).
  { rewrite map_map, map_app. cbn [map]. f_equal.
    - apply map_ext_in. intros a Hin. apply email_key_clean.
      exact (proj1 (Forall_forall _ admins) Hwf a Hin).
    - rewrite email_key_clean; congruence. }
  split.
  - apply Forall_forall. intros a' Hin. apply (in_map email_key) in Hin.
    rewrite Hkeys in Hin. apply in_app_or in Hin. destruct Hin as [Hin | Hin].
    + apply in_map_iff in Hin. destruct Hin as (a & Heq & Hin).
      rewrite <- Heq. exact (proj1 (Forall_forall _ admins) Hwf a Hin).
    + destruct Hin as [<- | []]. discriminate.
  - rewrite Hkeys. apply NoDup_app; [exact Hnd | repeat constructor; intros [] |].
    intros k Hin [<- | []]. apply in_map_iff in Hin.
    destruct Hin as (a & Hk & Hin).
    pose proof (find_none _ _ Hfresh a Hin) as Hn. unfold same_email in Hn.
    rewrite Hk, String.eqb_refl in Hn. discriminate.
Qed.

(** C7. On a directory that satisfies its invariant, a signup whose
    email equals an existing account's email once both are lowercased is
    answered 409 "An account with this email already exists." and leaves
    the world and the session as they were; and whatever a signup with a
    string for an email ends in, the directory read afterwards satisfies
    the invariant again. *)
Theorem signup_rejects_duplicate_email (cfg : config) (clk : clock)
  (salt : string) (body : value) (s : session) (w : world)
  (admins : list value) (name password : value) (e : string) :
  directory cfg w = VArr admins ->
  directory_ok admins ->
  signup_fields body = (name, VStr e, password) ->
  (truthy name = true -> truthy password = true -> e <> "" ->
   In (Some (toLowerCase e)) (map email_key admins) ->
   admin_response (signup cfg clk salt body s w)
   = Reply 409 (error_body "An account with this email already exists.")
   /\ admin_after (signup cfg clk salt body s w) = w
   /\ admin_session (signup cfg clk salt body s w) = s)
  /\ exists admins',
       directory cfg (admin_after (signup cfg clk salt body s w))
       = VArr admins'
       /\ directory_ok admins'.
Proof.
  intros Hdir Hok Hfields.
  pose proof (read_admins_again cfg w) as [Hagain Hsame].
  unfold signup. rewrite Hfields. unfold directory in Hdir.
  destruct (readAdmins cfg w) as [v w1] eqn:Hread.
  cbn [fst snd] in *. subst v. cbn [find_admin].
  assert (Hdir0 : directory cfg w = VArr admins)
    by (unfold directory; rewrite Hread; reflexivity).
  assert (Hdir1 : directory cfg w1 = VArr admins) by congruence.
  rewrite (find_by_email_first admins e (proj1 Hok)). cbn [bind].
  split.
  - intros Hname Hpass He Hdup.
    rewrite Hname, Hpass, (truthy_string e He). cbn [negb orb].
    destruct (same_email_some admins e Hdup) as (a & -> & Hin & Hkey).
    assert (Hobj : is_object a = true) by (apply email_key_object; congruence).
    destruct a; try discriminate. cbn.
    repeat split. destruct Hsame as [-> | Hempty]; [reflexivity |].
    exfalso. rewrite Hdir0 in Hempty. injection Hempty as ->. destruct Hin.
  - destruct (negb (truthy name) || negb (truthy (VStr e))
              || negb (truthy password)).
    { cbn. exists admins. auto. }
    destruct (find (same_email e) admins) as [a |] eqn:Hfind.
    { apply find_some in Hfind. destruct Hfind as [Hin _].
      assert (Hobj : is_object a = true).
      { apply email_key_object.
        exact (proj1 (Forall_forall _ admins) (proj1 Hok) a Hin). }
      destruct a; try discriminate. cbn. exists admins. auto. }
    cbn [truthy].
    destruct (hash_password password salt) as [h | err];
      [| cbn; exists admins; auto].
    cbn [push].
    destruct (writeAdmins cfg _ w1) as [r w2] eqn:Hwrite.
    assert (Hafter : directory cfg w2
                     = VArr (map json_clean
                               (admins ++ [make_admin clk name (VStr e) h]))
                     \/ w2 = w1).
    { exact (write_admins_cases cfg _ w1 w2 r Hwrite). }
    assert (Hend : exists admins',
               directory cfg w2 = VArr admins' /\ directory_ok admins').
    { destruct Hafter as [Hnew | ->]; [| exists admins; auto].
      eexists. split; [exact Hnew |].
      apply (directory_ok_extended admins _ e Hok); [reflexivity | exact Hfind]. }
    destruct r as [[] | err]; cbn; exact Hend.
Qed.
End SignupTheorems.

(** A signup with the email of Ada in capitals. *)
Lemma signup_rejects_duplicate_email_witness :
  (directory Demo.local_cfg Demo.staffed_shop = VArr [Demo.hosted_admin]
   /\ directory_ok [Demo.hosted_admin])
  /\ admin_response
       (signup Demo.local_cfg (Demo.at_ms 1714557600000) "NaCl"
          (Demo.signup_as "Eve" "ADA@SHOP.EXAMPLE" "open sesame")
          Demo.signed_out Demo.staffed_shop)
     = Reply 409 (error_body "An account with this email already exists.")
  /\ admin_after
       (signup Demo.local_cfg (Demo.at_ms 1714557600000) "NaCl"
          (Demo.signup_as "Eve" "ADA@SHOP.EXAMPLE" "open sesame")
          Demo.signed_out Demo.staffed_shop)
     = Demo.staffed_shop.
Proof.
  assert (Hok : directory_ok [Demo.hosted_admin]).
  { split; repeat constructor; [discriminate | intros []]. }
  split; [split; [reflexivity | exact Hok] |].
  destruct (signup_rejects_duplicate_email Demo.local_cfg
              (Demo.at_ms 1714557600000) "NaCl"
              (Demo.signup_as "Eve" "ADA@SHOP.EXAMPLE" "open sesame")
              Demo.signed_out Demo.staffed_shop [Demo.hosted_admin]
              (VStr "Eve") (VStr "open sesame") "ADA@SHOP.EXAMPLE"
              eq_refl Hok eq_refl)
    as [Hdup _].
  destruct Hdup as (Hreply & Hworld & _).
  - reflexivity.
  - reflexivity.
  - discriminate.
  - left. reflexivity.
  - split; assumption.
Defined.

Example signup_appends_a_new_account :
  directory Demo.local_cfg
    (admin_after
       (signup Demo.local_cfg (Demo.at_ms 1714557600000) "NaCl"
          (Demo.signup_as "Eve" "eve@shop.example" "open sesame")
          Demo.signed_out Demo.staffed_shop))
  = VArr [ Demo.hosted_admin;
           VObj [ ("id", VStr "admin-1714557600000"); ("name", VStr "Eve");
                  ("email", VStr "eve@shop.example");
                  ("passwordHash", VStr "$2a$10$NaCl$open sesame");
                  ("createdAt", VStr "2024-05-01T10:00:00.000Z") ] ].
Proof. vm_compute. reflexivity. Qed.

(* --------------------------------------------------------------------- *)
(** ** Customer aggregation *)
(* --------------------------------------------------------------------- *)

Lemma first_seen_snoc (l : list string) (e : string) :
  first_seen (l ++ [e])
  = if existsb (String.eqb e) (first_seen l) then first_seen l
    else first_seen l ++ [e].
Proof. unfold first_seen. rewrite fold_left_app. reflexivity. Qed.

Lemma existsb_eqb_In (e : string) (l : list string) :
  existsb (String.eqb e) l = true <-> In e l.
Proof.
  rewrite existsb_exists. split.
  - intros (x & Hin & Heq). apply String.eqb_eq in Heq. subst. exact Hin.
  - intros Hin. exists e. split; [exact Hin | apply String.eqb_refl].
Qed.

Lemma first_seen_In (l : list string) (k : string) :
  In k (first_seen l) <-> In k l.
Proof.
  induction l as [| e l IH] using rev_ind; [reflexivity |].
  rewrite first_seen_snoc, in_app_iff. cbn [In].
  destruct (existsb (String.eqb e) (first_seen l)) eqn:E.
  - apply existsb_eqb_In in E. rewrite IH. split; [tauto |].
    intros [H | [<- | []]]; [exact H | apply IH; exact E].
  - rewrite in_app_iff, IH. cbn [In]. tauto.
Qed.

Lemma first_seen_NoDup (l : list string) : NoDup (first_seen l).
Proof.
  induction l as [| e l IH] using rev_ind; [constructor |].
  rewrite first_seen_snoc.
  destruct (existsb (String.eqb e) (first_seen l)) eqn:E; [exact IH |].
  apply NoDup_app; [exact IH | repeat constructor; intros [] |].
  intros k Hin [<- | []].
  apply existsb_eqb_In in Hin. congruence.
Qed.

Section MapOnStrings.
Context {V : Type}.
Variable f : string -> V.

Lemma map_get_keyed (keys : list string) (e : string) :
  map_get (map (fun k => (VStr k, f k)) keys) (VStr e)
  = if existsb (String.eqb e) keys then Some (f e) else None.
Proof.
  induction keys as [| k keys IH]; [reflexivity |].
  cbn [map map_get same_value_zero existsb]. rewrite (String.eqb_sym e k).
  destruct (String.eqb_spec k e) as [-> | _]; [reflexivity | exact IH].
Qed.

Lemma map_set_new (keys : list string) (e : string) (v : V) :
  existsb (String.eqb e) keys = false ->
  map_set (map (fun k => (VStr k, f k)) keys) (VStr e) v
  = map (fun k => (VStr k, f k)) keys ++ [(VStr e, v)].
Proof.
  induction keys as [| k keys IH]; [reflexivity |].
  cbn [map map_set same_value_zero existsb app].
  rewrite (String.eqb_sym e k).
  destruct (k =? e)%string; [discriminate |].
  cbn [orb]. intros H. rewrite (IH H). reflexivity.
Qed.

Lemma map_set_old (keys : list string) (e : string) (v : V) :
  NoDup keys ->
  In e keys ->
  map_set (map (fun k => (VStr k, f k)) keys) (VStr e) v
  = map (fun k => (VStr k, if (k =? e)%string then v else f k)) keys.
Proof.
  induction 1 as [| k keys Hnotin _ IH]; [contradiction |].
  cbn [map map_set same_value_zero In].
  destruct (String.eqb_spec k e) as [-> | Hne].
  - intros _. f_equal. apply map_ext_in. intros k Hin.
    destruct (String.eqb_spec k e) as [-> | _]; [contradiction | reflexivity].
  - intros [-> | Hin]; [contradiction |]. rewrite (IH Hin). reflexivity.
Qed.
End MapOnStrings.

Section AggregationTheorems.
Context {RT : Runtime}.

Lemma order_email_cases (o v : value) :
  order_email o = Ok v -> v = VUndefined \/ exists e, v = VStr e.
Proof.
  unfold order_email, get. destruct (nullish o); [discriminate |].
  cbn [bind]. unfold opt_call_toLowerCase.
  destruct (get_opt (prop o "customer") "email"); intros H;
    try (injection H as <-; eauto; fail).
  destruct (assoc "toLowerCase" props) as [x |].
  - destruct (nullish x); [| discriminate]. injection H as <-. auto.
  - injection H as <-. auto.
Qed.

Lemma first_non_empty_snoc (vals : list value) (v : value) :
  first_non_empty (vals ++ [v])
  = if negb (truthy (first_non_empty vals)) && truthy v then v
    else first_non_empty vals.
Proof.
  unfold first_non_empty. induction vals as [| x vals IH]; cbn [app find].
  - destruct (truthy v); reflexivity.
  - destruct (truthy x) eqn:E; [rewrite E; reflexivity | exact IH].
Qed.

Lemma backfill_snoc (group : list value) (o : value) (f : string) :
  backfill (first_non_empty (map (fun o' => customer_field o' f) group)) o f
  = first_non_empty (map (fun o' => customer_field o' f) (group ++ [o])).
Proof.
  rewrite map_app. cbn [map]. rewrite first_non_empty_snoc. reflexivity.
Qed.

Lemma counted_succ (n : nat) : counted (n + 1) = (counted n + 1)%float.
Proof. rewrite Nat.add_1_r. reflexivity. Qed.

(** A sum that was kept is a primitive. *)
Lemma summed_primitive (totals : list value) :
  convertible (summed totals) = true
  /\ primitive_of (summed totals) = summed totals.
Proof.
  unfold summed.
  induction totals as [| t totals IH] using rev_ind;
    [split; reflexivity |].
  rewrite fold_left_app. cbn [fold_left]. apply add_primitives_primitive.
Qed.

(** One more order of the same customer. *)
Lemma absorb_snoc (k : string) (group : list value) (o : value) :
  convertible (order_total o) = true ->
  absorb (spec_customer k group) o = Ok (spec_customer k (group ++ [o])).
Proof.
  intros Hconv. unfold absorb, spec_customer.
  cbn [c_name c_email c_phone c_address c_city c_postalCode c_country
         c_orders c_totalSpend].
  destruct (summed_primitive (map order_total group)) as [Hsum Hprim].
  rewrite js_add_cases, Hsum, Hconv, Hprim. cbn [andb bind].
  rewrite !backfill_snoc, length_app, counted_succ.
  unfold summed. rewrite (map_app order_total), fold_left_app. reflexivity.
Qed.

(** The first order of a customer. *)
Lemma absorb_fresh (k : string) (o : value) :
  convertible (order_total o) = true ->
  absorb (fresh (VStr k) o) o = Ok (spec_customer k [o]).
Proof.
  intros Hconv.
  assert (H : forall f,
             backfill (js_or (customer_field o f) (VStr "")) o f
             = first_non_empty [customer_field o f]).
  { intros f. unfold backfill, js_or, first_non_empty. cbn [find].
    destruct (truthy (customer_field o f)) eqn:E; [rewrite E |]; reflexivity. }
  unfold absorb, fresh, spec_customer. cbn [c_name c_email c_phone c_address
    c_city c_postalCode c_country c_orders c_totalSpend map length].
  rewrite js_add_cases, Hconv. cbn [convertible andb bind].
  rewrite !H. reflexivity.
Qed.

(** The [+=] on the total is the only place where [absorb] throws. *)
Lemma absorb_returns (c c' : customer) (o : value) :
  absorb c o = Ok c' -> convertible (order_total o) = true.
Proof.
  unfold absorb. rewrite js_add_cases.
  destruct (convertible (c_totalSpend c)); [| discriminate].
  destruct (convertible (order_total o)); [reflexivity | discriminate].
Qed.

Lemma has_email_of (o : value) (e k : string) :
  order_email o = Ok (VStr e) -> has_email k o = (e =? k)%string.
Proof. unfold has_email. intros ->. reflexivity. Qed.

Lemma orders_of_snoc (k : string) (done : list value) (o : value) :
  orders_of k (done ++ [o])
  = orders_of k done ++ (if has_email k o then [o] else []).
Proof. unfold orders_of. rewrite filter_app. reflexivity. Qed.

Lemma emails_snoc (done : list value) (o : value) :
  emails (done ++ [o]) = emails done ++ emails [o].
Proof. unfold emails. rewrite flat_map_app. reflexivity. Qed.

Lemma emails_nonempty (orders : list value) (k : string) :
  In k (emails orders) <->
  k <> "" /\ exists o, In o orders /\ order_email o = Ok (VStr k).
Proof.
  unfold emails. rewrite in_flat_map. split.
  - intros (o & Hin & Hk).
    destruct (order_email o) as [[| | | | e | |] |] eqn:E; try contradiction.
    destruct (String.eqb_spec e "") as [-> | Hne]; [contradiction |].
    destruct Hk as [<- | []]. eauto.
  - intros (Hne & o & Hin & E). exists o. split; [exact Hin |].
    rewrite E. destruct (String.eqb_spec k ""); [contradiction |].
    left. reflexivity.
Qed.

Lemma orders_of_unseen (k : string) (done : list value) :
  k <> "" -> ~ In k (emails done) -> orders_of k done = [].
Proof.
  intros Hne Hnot. unfold orders_of. apply filter_none.
  apply Forall_forall. intros o Hin. unfold has_email.
  destruct (order_email o) as [[| | | | e | |] |] eqn:E; try reflexivity.
  destruct (String.eqb_spec e k) as [-> | _]; [| reflexivity].
  exfalso. apply Hnot. apply emails_nonempty. eauto.
Qed.

Lemma scan_skips (done : list value) (o : value) (email : value) :
  order_email o = Ok email ->
  truthy email = false ->
  by_email_after (done ++ [o]) = by_email_after done.
Proof.
  intros Hemail Hfalsy. unfold by_email_after.
  assert (Hnone : emails [o] = []).
  { unfold emails. cbn [flat_map]. rewrite Hemail.
    destruct email; try reflexivity. cbn in Hfalsy.
    destruct (s =? "")%string; [reflexivity | discriminate]. }
  rewrite emails_snoc, Hnone, app_nil_r.
  apply map_ext_in. intros k Hk. f_equal. f_equal.
  rewrite orders_of_snoc.
  assert (Hne : k <> "").
  { apply (proj1 (first_seen_In _ _)) in Hk.
    apply (proj1 (emails_nonempty _ _)) in Hk. tauto. }
  unfold has_email. rewrite Hemail.
  destruct email; try (apply app_nil_r). cbn in Hfalsy.
  destruct (String.eqb_spec s "") as [-> | _]; [| discriminate].
  destruct (String.eqb_spec "" k) as [<- | _];
    [contradiction | apply app_nil_r].
Qed.

Lemma scan_absorbs (done : list value) (o : value) (e : string) :
  order_email o = Ok (VStr e) ->
  e <> "" ->
  convertible (order_total o) = true ->
  exists updated : customer,
    absorb (match map_get (by_email_after done) (VStr e) with
            | Some c => c
            | None => fresh (VStr e) o
            end) o = Ok updated
    /\ map_set (by_email_after done) (VStr e) updated
       = by_email_after (done ++ [o]).
Proof.
  intros Hemail Hne Hconv. unfold by_email_after.
  assert (Hone : emails [o] = [e]).
  { unfold emails. cbn [flat_map]. rewrite Hemail.
    destruct (String.eqb_spec e ""); [contradiction | reflexivity]. }
  rewrite emails_snoc, Hone, first_seen_snoc, map_get_keyed.
  destruct (existsb (String.eqb e) (first_seen (emails done))) eqn:Hseen.
  - rewrite (absorb_snoc e (orders_of e done) o Hconv).
    eexists. split; [reflexivity |].
    rewrite map_set_old;
      [| apply first_seen_NoDup | apply existsb_eqb_In; exact Hseen].
    apply map_ext. intros k. f_equal.
    rewrite orders_of_snoc, (has_email_of o e k Hemail), (String.eqb_sym e k).
    destruct (String.eqb_spec k e) as [-> | _].
    + reflexivity.
    + rewrite app_nil_r. reflexivity.
  - rewrite (absorb_fresh e o Hconv).
    eexists. split; [reflexivity |].
    rewrite (map_set_new _ _ _ _ Hseen), map_app. cbn [map]. f_equal.
    + apply map_ext_in. intros k Hk. f_equal. f_equal.
      rewrite orders_of_snoc, (has_email_of o e k Hemail).
      destruct (String.eqb_spec e k) as [<- | _]; [| symmetry; apply app_nil_r].
      apply (proj2 (existsb_eqb_In _ _)) in Hk. congruence.
    + f_equal. f_equal.
      rewrite orders_of_snoc, (has_email_of o e e Hemail), String.eqb_refl.
      rewrite orders_of_unseen; [reflexivity | exact Hne |].
      intros Hin. apply (proj2 (first_seen_In _ _)) in Hin.
      apply (proj2 (existsb_eqb_In _ _)) in Hin. congruence.
Qed.

Lemma aggregate_loop_scans (rest : list value) :
  Forall aggregable rest ->
  forall done : list value,
    aggregate_loop rest (by_email_after done)
    = Ok (by_email_after (done ++ rest)).
Proof.
  induction 1 as [| o rest (email & Hemail & Htotal) _ IH]; intros done.
  - rewrite app_nil_r. reflexivity.
  - cbn [aggregate_loop]. rewrite Hemail. cbn [bind].
    replace (done ++ o :: rest) with ((done ++ [o]) ++ rest)
      by (rewrite <- app_assoc; reflexivity).
    destruct (truthy email) eqn:Htruthy; cbn [negb].
    + destruct (order_email_cases o email Hemail) as [-> | [e ->]];
        [discriminate |].
      destruct (scan_absorbs done o e Hemail) as (updated & -> & Hset);
        [intros ->; discriminate | exact (Htotal eq_refl) |].
      cbn [bind]. rewrite Hset. apply IH.
    + rewrite <- (scan_skips done o email Hemail Htruthy). apply IH.
Qed.

(** The loop returns only on orders it can get past. *)
Lemma aggregate_loop_returns (orders : list value) :
  forall byEmail byEmail' : jsmap customer,
    aggregate_loop orders byEmail = Ok byEmail' ->
    Forall aggregable orders.
Proof.
  induction orders as [| o orders IH]; intros byEmail byEmail' H;
    [constructor |].
  cbn [aggregate_loop] in H.
  destruct (order_email o) as [email | e] eqn:Hemail; [| discriminate].
  cbn [bind] in H.
  destruct (truthy email) eqn:Htruthy; cbn [negb] in H.
  - destruct (absorb _ o) as [updated | e] eqn:Habsorb; [| discriminate].
    cbn [bind] in H. constructor; [| eapply IH; exact H].
    exists email. split; [exact Hemail |].
    intros _. exact (absorb_returns _ _ _ Habsorb).
  - constructor; [| eapply IH; exact H].
    exists email. split; [exact Hemail |]. congruence.
Qed.

Lemma NoDup_map_VStr (keys : list string) :
  NoDup keys -> NoDup (map VStr keys).
Proof.
  induction 1 as [| k keys Hnotin _ IH]; cbn [map]; constructor; [| exact IH].
  intros Hin. apply in_map_iff in Hin. destruct Hin as (k' & Heq & Hin).
  injection Heq as ->. contradiction.
Qed.

(** C9, as the code has it.  The aggregation returns a list exactly for
    the order lists in which every customer email can be read and every
    total of an order that has an email converts to a primitive.  For
    such a list it returns one customer per distinct non-empty lowercased
    email, in the order the emails first occur; the customer of an email
    has as order count one increment of 0 per order of that email, as
    total spend the totals of those orders ([0] for a missing one) added
    up in scan order from 0, and in each of name, phone, address, city,
    postal code and country the first non-empty value among those orders
    in scan order (the empty string when there is none). *)
Theorem aggregate_groups_by_email (orders : list value) :
  (Forall aggregable orders ->
   aggregate orders = Ok (spec_aggregate orders)
   /\ NoDup (map c_email (spec_aggregate orders))
   /\ (forall k : string,
          In (VStr k) (map c_email (spec_aggregate orders))
          <-> k <> ""
              /\ exists o, In o orders /\ order_email o = Ok (VStr k)))
  /\ (forall customers : list customer,
         aggregate orders = Ok customers -> Forall aggregable orders).
Proof.
  split.
  - intros Hread.
    assert (Hkeys : map c_email (spec_aggregate orders)
                    = map VStr (first_seen (emails orders))).
    { unfold spec_aggregate. rewrite map_map. reflexivity. }
    split; [| split].
    + unfold aggregate.
      change (@nil (value * customer)) with (by_email_after []).
      rewrite (aggregate_loop_scans orders Hread []). cbn [bind app].
      unfold map_values, by_email_after, spec_aggregate. rewrite map_map.
      reflexivity.
    + rewrite Hkeys. apply NoDup_map_VStr, first_seen_NoDup.
    + intros k. rewrite Hkeys, <- emails_nonempty, <- first_seen_In.
      rewrite in_map_iff. split.
      * intros (k' & Heq & Hin). injection Heq as ->. exact Hin.
      * intros Hin. exists k. auto.
  - intros customers. unfold aggregate.
    destruct (aggregate_loop orders []) as [byEmail | e] eqn:Hloop;
      [| discriminate].
    intros _. exact (aggregate_loop_returns orders [] byEmail Hloop).
Qed.
End AggregationTheorems.

(** The specification's example: totals 20 and 30 for one email. *)
Lemma aggregate_groups_by_email_witness :
  Forall aggregable [Demo.first_order; Demo.second_order]
  /\ aggregate [Demo.first_order; Demo.second_order] = Ok [Demo.the_customer].
Proof.
  assert (Hread : Forall aggregable [Demo.first_order; Demo.second_order]).
  { repeat constructor; eexists; split; reflexivity. }
  split; [exact Hread |].
  rewrite (proj1 (proj1 (aggregate_groups_by_email _) Hread)).
  vm_compute. reflexivity.
Defined.

(** C9 as worded fails: the aggregation has no result for an order list
    with a customer email that is an object holding something under
    [toLowerCase] (a checkout stores such an email as it came), nor for
    one with a total that is an object holding something under
    [toString]; the two orders of [a@x.com] next to it are not
    aggregated either. *)
Lemma aggregate_has_no_result :
  aggregate [Demo.first_order; Demo.unreadable_order; Demo.second_order]
  = Throw TypeError
  /\ aggregate [Demo.first_order; Demo.unsummable_order]
     = Throw TypeError.
Proof. vm_compute. split; reflexivity. Qed.

(** A later order never overwrites a field that is already filled, and
    the scan order decides: the other way round the name is the other
    one. *)
Example aggregate_depends_on_scan_order :
  aggregate [Demo.second_order; Demo.first_order]
  = Ok [ {| c_name := VStr "Alice"; c_email := VStr "a@x.com";
            c_phone := VStr "555-0100"; c_address := VStr "";
            c_city := VStr ""; c_postalCode := VStr "";
            c_country := VStr ""; c_orders := 2%float;
            c_totalSpend := VNum 50%float |} ].
Proof. vm_compute. reflexivity. Qed.

(* --------------------------------------------------------------------- *)
(** ** Checkouts one after the other, and checkouts interleaved *)
(* --------------------------------------------------------------------- *)

Lemma decimal_injective (a b : Z) : decimal a = decimal b -> a = b.
Proof.
  unfold decimal. intros H.
  apply (f_equal NilEmpty.int_of_string) in H.
  rewrite !NilEmpty.isi in H. injection H as H.
  apply (f_equal Z.of_int) in H. rewrite !DecimalZ.of_to in H. exact H.
Qed.

Lemma keeps_ids_refl (l : list value) : keeps_ids l l.
Proof. intros i x id Hx Hid. eauto. Qed.

Lemma keeps_ids_trans (a b c : list value) :
  keeps_ids a b -> keeps_ids b c -> keeps_ids a c.
Proof.
  intros Hab Hbc i x id Hx Hid.
  destruct (Hab i x id Hx Hid) as (y & Hy & Hidy). eauto.
Qed.

Section SequentialCheckouts.
Context {RT : Runtime}.

Lemma id_survives_json (x : value) (id : string) :
  prop x "id" = VStr id -> prop (json_clean x) "id" = VStr id.
Proof.
  destruct x as [| | | | | | props]; try discriminate.
  intros H. cbn [prop] in H.
  destruct (assoc "id" props) as [v |] eqn:E; [| discriminate]. subst v.
  rewrite (json_clean_prop props "id" (VStr id) E); [reflexivity | discriminate].
Qed.

Lemma keeps_ids_appended (old : list value) (order : value) :
  keeps_ids old (map json_clean (old ++ [order])).
Proof.
  intros i x id Hx Hid. exists (json_clean x). split.
  - rewrite nth_error_map, nth_error_app1, Hx; [reflexivity |].
    apply nth_error_Some. congruence.
  - apply id_survives_json. exact Hid.
Qed.

Lemma read_products_keeps (cfg : config) (w : world) :
  ledger cfg (snd (readJson PRODUCTS_FILE (VArr []) w)) = ledger cfg w
  /\ writes_land cfg (snd (readJson PRODUCTS_FILE (VArr []) w))
     = writes_land cfg w.
Proof.
  gateway. cbn [file_of].
  destruct (products_file w); cbn; try (split; reflexivity).
  destruct (fs_writable w) eqn:Hw; cbn; rewrite ?Hw;
    destruct (USE_BLOB cfg && (USE_BLOB cfg && blob_sdk cfg));
    try (split; reflexivity);
    destruct (orders_file w); split; reflexivity.
Qed.

Lemma read_orders_again (cfg : config) (w : world) :
  ledger cfg (snd (readOrders cfg w)) = ledger cfg w
  /\ writes_land cfg (snd (readOrders cfg w)) = writes_land cfg w.
Proof.
  gateway.
  destruct (USE_BLOB cfg), (blob_sdk cfg); cbn; try (split; reflexivity);
    destruct (orders_file w) eqn:Hf; cbn; rewrite ?Hf; auto;
    destruct (fs_writable w) eqn:Hw; cbn; rewrite ?Hf, ?Hw; auto.
Qed.

Lemma checkout_prepare_responds (body : value) (w w1 : world) (r : reply) :
  checkout_prepare body w = (Respond r, w1) ->
  (exists b, r = Reply 400 b) \/ (exists e, r = Unhandled e).
Proof.
  unfold checkout_prepare.
  destruct (request_fields body) as [cartItems customer].
  destruct cartItems as [| | | | | cart |];
    try (intros H; injection H as <- _; eauto; fail).
  destruct cart as [| item rest]; [intros H; injection H as <- _; eauto |].
  destruct (customer_incomplete customer);
    [intros H; injection H as <- _; eauto |].
  destruct (readJson PRODUCTS_FILE (VArr []) w) as [ps w'].
  destruct (build_product_map ps) as [pm | e];
    [| intros H; injection H as <- _; eauto].
  destruct (resolve_items pm (item :: rest) 0%float []) as [[t its] | e];
    [| intros H; injection H as <- _; eauto].
  destruct its; [intros H; injection H as <- _; eauto | discriminate].
Qed.

(** A checkout that is answered with success, on a store that takes the
    write, leaves the ledger one order longer, the new order last. *)
Lemma checkout_placed (cfg : config) (clk : clock) (body : value) (w : world)
  (old : list value) (b : value) :
  response (checkout cfg clk body w) = Reply 200 b ->
  writes_land cfg w = true ->
  ledger cfg w = VArr old ->
  exists order,
    prop order "id" = VStr (order_id clk)
    /\ ledger cfg (after (checkout cfg clk body w))
       = VArr (map json_clean (old ++ [order]))
    /\ writes_land cfg (after (checkout cfg clk body w)) = true.
Proof.
  intros Hreply Hland Hledger. unfold checkout in *.
  destruct (checkout_prepare body w) as [[r | total items customer] w1] eqn:Hprep.
  { cbn in Hreply. subst r.
    destruct (checkout_prepare_responds _ _ _ _ Hprep) as [[b' H] | [e H]];
      discriminate. }
  destruct (checkout_prepare_proceeds _ _ _ _ _ _ Hprep)
    as (cart & pm & _ & _ & _ & _ & _ & _ & ->).
  destruct (read_products_keeps cfg w) as [Hl1 Hw1].
  set (w1 := snd (readJson PRODUCTS_FILE (VArr []) w)) in *.
  destruct (read_orders_again cfg w1) as [Hl2 Hw2].
  unfold checkout_commit in *.
  assert (Horders : fst (readOrders cfg w1) = VArr old)
    by (fold (ledger cfg w1); congruence).
  destruct (readOrders cfg w1) as [orders w2]. cbn [fst snd] in *.
  subst orders. cbn [checkout_append push bind] in *.
  assert (Hland2 : writes_land cfg w2 = true) by congruence.
  destruct (write_orders_lands cfg w2
              (VArr (old ++ [make_order clk total items customer]))
              eq_refl Hland2)
    as (w3 & Hwrite & Hl3 & _ & Hw3).
  unfold checkout_write in *. rewrite Hwrite in *.
  exists (make_order clk total items customer).
  destruct (sendOrderConfirmationEmail cfg _); cbn [after];
    (split; [reflexivity |]); split; assumption.
Qed.
End SequentialCheckouts.

Section OneAfterTheOther.
Context {RT : Runtime}.

(** Run alone, the three stretches of a request are the handler. *)
Lemma advance_alone (cfg : config) (clk : clock) (body : value) (w : world) :
  let (s1, w1) := advance cfg clk (Arrived body) w in
  let (s2, w2) := advance cfg clk s1 w1 in
  let (s3, w3) := advance cfg clk s2 w2 in
  s3 = Settled (response (checkout cfg clk body w))
         (notified (checkout cfg clk body w))
  /\ w3 = after (checkout cfg clk body w).
Proof.
  unfold checkout. cbn [advance].
  destruct (checkout_prepare body w) as [[r | total items customer] w1].
  { cbn. split; reflexivity. }
  cbn [advance]. unfold checkout_commit.
  destruct (readOrders cfg w1) as [orders w2].
  destruct (checkout_append clk total items customer orders)
    as [[order orders'] | e]; cbn; split; reflexivity.
Qed.

Lemma order_ids_distinct (reqs : list (clock * value)) :
  NoDup (map (fun r => now (fst r)) reqs) ->
  NoDup (map (fun r => order_id (fst r)) reqs).
Proof.
  induction reqs as [| r reqs IH]; cbn [map]; intros H; [constructor |].
  inversion H as [| ? ? Hnotin Hrest]; subst. constructor; [| auto].
  intros Hin. apply Hnotin. apply in_map_iff in Hin.
  destruct Hin as (r' & Heq & Hin). apply in_map_iff. exists r'.
  split; [| exact Hin]. unfold order_id in Heq.
  apply decimal_injective. cbn in Heq. injection Heq as Heq. exact Heq.
Qed.

(** C2, as the code has it.  Nothing serializes the read-modify-write
    cycles.  When N checkouts are handled one after the other, each to
    its response before the next one reads, on a store that takes the
    writes, and all N are answered with success at pairwise different
    clock readings, the ledger ends N orders longer: every order that
    was there keeps its place and identifier, the new orders follow in
    the order of the requests, and their identifiers are pairwise
    different. *)
Theorem sequential_checkouts_all_recorded (cfg : config)
  (reqs : list (clock * value)) (w : world) (old : list value) :
  writes_land cfg w = true ->
  ledger cfg w = VArr old ->
  NoDup (map (fun r => now (fst r)) reqs) ->
  Forall (fun o => exists b, response o = Reply 200 b)
    (fst (place_all cfg reqs w)) ->
  exists stored : list value,
    ledger cfg (snd (place_all cfg reqs w)) = VArr stored
    /\ length stored = length old + length reqs
    /\ keeps_ids old stored
    /\ (forall (j : nat) (r : clock * value),
           nth_error reqs j = Some r ->
           exists y, nth_error stored (length old + j) = Some y
                     /\ prop y "id" = VStr (order_id (fst r)))
    /\ NoDup (map (fun r => order_id (fst r)) reqs).
Proof.
  intros Hland Hledger Hclocks Hall.
  enough (G : exists stored : list value,
             ledger cfg (snd (place_all cfg reqs w)) = VArr stored
             /\ length stored = length old + length reqs
             /\ keeps_ids old stored
             /\ (forall (j : nat) (r : clock * value),
                    nth_error reqs j = Some r ->
                    exists y, nth_error stored (length old + j) = Some y
                              /\ prop y "id" = VStr (order_id (fst r)))).
  { destruct G as (stored & H1 & H2 & H3 & H4). exists stored.
    repeat split; try assumption. apply order_ids_distinct. exact Hclocks. }
  clear Hclocks. revert w old Hland Hledger Hall.
  induction reqs as [| [clk body] rest IH]; intros w old Hland Hledger Hall.
  - exists old. cbn. rewrite Nat.add_0_r.
    repeat split; [exact Hledger | apply keeps_ids_refl |].
    intros [| j] r H; discriminate H.
  - cbn [place_all] in *.
    destruct (place_all cfg rest (after (checkout cfg clk body w)))
      as [os w'] eqn:Hrest.
    cbn [fst snd] in *. inversion Hall as [| ? ? [b Hb] Hos]; subst.
    destruct (checkout_placed cfg clk body w old b Hb Hland Hledger)
      as (order & Hid & Hledger1 & Hland1).
    specialize (IH (after (checkout cfg clk body w))
                  (map json_clean (old ++ [order])) Hland1 Hledger1).
    rewrite Hrest in IH. cbn [fst snd] in IH.
    destruct (IH Hos) as (stored & Hstored & Hlen & Hkeeps & Hnew).
    rewrite length_map, length_app in Hlen, Hnew. cbn [length] in Hlen, Hnew.
    exists stored. split; [exact Hstored |].
    split; [cbn [length]; lia |].
    split.
    + eapply keeps_ids_trans; [apply keeps_ids_appended | exact Hkeeps].
    + intros [| j] r Hr.
      * injection Hr as <-. cbn [fst]. rewrite Nat.add_0_r.
        apply (Hkeeps (length old) (json_clean order)).
        -- rewrite nth_error_map, nth_error_app2, Nat.sub_diag by lia.
           reflexivity.
        -- apply id_survives_json. exact Hid.
      * destruct (Hnew j r Hr) as (y & Hy & Hidy). exists y.
        split; [| exact Hidy].
        replace (length old + S j) with (length old + 1 + j) by lia.
        exact Hy.
Qed.
End OneAfterTheOther.

(** Two checkouts one millisecond apart, one after the other. *)
Lemma sequential_checkouts_all_recorded_witness :
  (writes_land Demo.blob_cfg Demo.shop = true
   /\ ledger Demo.blob_cfg Demo.shop = VArr [])
  /\ exists stored : list value,
       ledger Demo.blob_cfg
         (snd (place_all Demo.blob_cfg
                 [ (Demo.at_ms 1714557600000, Demo.cart_of (VNum 2%float));
                   (Demo.at_ms 1714557600001, Demo.cart_of (VNum 1%float)) ]
                 Demo.shop))
       = VArr stored
       /\ length stored = 2%nat.
Proof.
  split; [split; reflexivity |].
  destruct (sequential_checkouts_all_recorded Demo.blob_cfg
              [ (Demo.at_ms 1714557600000, Demo.cart_of (VNum 2%float));
                (Demo.at_ms 1714557600001, Demo.cart_of (VNum 1%float)) ]
              Demo.shop [])
    as (stored & Hstored & Hlen & _).
  - reflexivity.
  - reflexivity.
  - repeat constructor; cbn; intuition discriminate.
  - vm_compute. repeat constructor; eexists; reflexivity.
  - exists stored. split; assumption.
Defined.

(** C2 as worded fails.  On the blob store two checkouts whose reads are
    both served before either write are both answered with success, and
    the ledger ends with one order, the first one overwritten; and two
    checkouts handled one after the other within the same millisecond
    are both recorded under the same identifier. *)
Lemma interleaved_checkouts_lose_an_order :
  map answered
    (snd (run Demo.blob_cfg Demo.interleaved (Demo.shop, Demo.two_arrivals)))
  = [ Some (Reply 200 (placed_body (Demo.at_ms 1714557600040)));
      Some (Reply 200 (placed_body (Demo.at_ms 1714557600041))) ]
  /\ ids (ledger Demo.blob_cfg
            (fst (run Demo.blob_cfg Demo.interleaved
                    (Demo.shop, Demo.two_arrivals))))
     = [ VStr "ORD-1714557600041" ]
  /\ ids (ledger Demo.local_cfg
            (snd (place_all Demo.local_cfg
                    [ (Demo.at_ms 1714557600000, Demo.cart_of (VNum 2%float));
                      (Demo.at_ms 1714557600000, Demo.cart_of (VNum 1%float)) ]
                    Demo.shop)))
     = [ VStr "ORD-1714557600000"; VStr "ORD-1714557600000" ].
Proof. vm_compute. repeat split. Qed.

Example one_by_one_keeps_both :
  ids (ledger Demo.blob_cfg
         (fst (run Demo.blob_cfg Demo.one_by_one
                 (Demo.shop, Demo.two_arrivals))))
  = [ VStr "ORD-1714557600040"; VStr "ORD-1714557600120" ].
Proof. vm_compute. reflexivity. Qed.

(* --------------------------------------------------------------------- *)
(** ** More of the gateway *)
(* --------------------------------------------------------------------- *)

(** X1. A write through the gateway of anything but [undefined] that
    reaches the store is what the next read of that collection returns
    (as JSON text gives it back), and it leaves the other collection and
    the catalog as they were.  A write of [undefined], for which there is
    no JSON text, changes nothing in either store. *)
Theorem gateway_write_then_read (cfg : config) (w : world) (data : value) :
  (data <> VUndefined ->
   writes_land cfg w = true ->
   (fst (writeOrders cfg data w) = Ok tt
    /\ ledger cfg (snd (writeOrders cfg data w)) = json_clean data
    /\ directory cfg (snd (writeOrders cfg data w)) = directory cfg w
    /\ catalog (snd (writeOrders cfg data w)) = catalog w)
   /\ (fst (writeAdmins cfg data w) = Ok tt
       /\ directory cfg (snd (writeAdmins cfg data w)) = json_clean data
       /\ ledger cfg (snd (writeAdmins cfg data w)) = ledger cfg w
       /\ catalog (snd (writeAdmins cfg data w)) = catalog w))
  /\ snd (writeOrders cfg VUndefined w) = w
  /\ snd (writeAdmins cfg VUndefined w) = w.
Proof.
  split.
  - intros Hdata Hw.
    assert (Htext : has_json_text data = true)
      by (destruct data; try reflexivity; contradiction).
    gateway. rewrite Htext.
    destruct (USE_BLOB cfg), (blob_sdk cfg); cbn in *; rewrite Hw; cbn;
      rewrite ?Hw; repeat split;
      try (destruct (admins_file w); reflexivity);
      try (destruct (orders_file w); reflexivity);
      try (destruct (products_file w); destruct (fs_writable w); reflexivity);
      try (destruct (admins_blob w); reflexivity);
      try (destruct (orders_blob w); reflexivity).
  - gateway. destruct (USE_BLOB cfg), (blob_sdk cfg); split; reflexivity.
Qed.

(** X2. Reading a collection changes nothing that a later read of the
    ledger, the directory or the catalog returns; the world is left as it
    was except that a missing data file is created holding the empty
    array. *)
Theorem gateway_reads_repeat (cfg : config) (w : world) :
  (ledger cfg (snd (readOrders cfg w)) = ledger cfg w
   /\ directory cfg (snd (readOrders cfg w)) = directory cfg w
   /\ catalog (snd (readOrders cfg w)) = catalog w
   /\ (snd (readOrders cfg w) = w
       \/ (orders_file w = FileAbsent
           /\ snd (readOrders cfg w)
              = set_file w ORDERS_FILE (FileHolds (VArr [])))))
  /\ (directory cfg (snd (readAdmins cfg w)) = directory cfg w
      /\ ledger cfg (snd (readAdmins cfg w)) = ledger cfg w
      /\ catalog (snd (readAdmins cfg w)) = catalog w
      /\ (snd (readAdmins cfg w) = w
          \/ (admins_file w = FileAbsent
              /\ snd (readAdmins cfg w)
                 = set_file w ADMINS_FILE (FileHolds (VArr []))))).
Proof.
  gateway.
  destruct (USE_BLOB cfg), (blob_sdk cfg); cbn;
    try (repeat split; auto; fail);
    destruct (orders_file w) eqn:Ho, (admins_file w) eqn:Ha,
      (products_file w) eqn:Hp, (fs_writable w) eqn:Hw;
    cbn; rewrite ?Ho, ?Ha, ?Hp, ?Hw; cbn; repeat split; auto.
Qed.

(** X3. The gateway keeps to the backend chosen at start-up.  With the
    blob store in use no read or write touches a data file; without it
    (no token, or the SDK failed to load) no read or write touches a
    blob. *)
Theorem gateway_keeps_to_its_backend (cfg : config) (w : world)
  (data : value) :
  let files (x : world) := (products_file x, orders_file x, admins_file x) in
  let blobs (x : world) := (orders_blob x, admins_blob x) in
  (blobPut cfg = true ->
   files (snd (writeOrders cfg data w)) = files w
   /\ files (snd (writeAdmins cfg data w)) = files w
   /\ snd (readOrders cfg w) = w
   /\ snd (readAdmins cfg w) = w)
  /\ (blobPut cfg = false ->
      blobs (snd (writeOrders cfg data w)) = blobs w
      /\ blobs (snd (writeAdmins cfg data w)) = blobs w
      /\ blobs (snd (readOrders cfg w)) = blobs w
      /\ blobs (snd (readAdmins cfg w)) = blobs w).
Proof.
  gateway. cbv zeta.
  destruct (USE_BLOB cfg), (blob_sdk cfg), (has_json_text data); cbn;
    split; intros H;
    try discriminate H; repeat split;
    try (destruct (blob_writable w); reflexivity);
    try (destruct (fs_writable w); reflexivity);
    try (destruct (orders_file w); destruct (fs_writable w); reflexivity);
    destruct (admins_file w); destruct (fs_writable w); reflexivity.
Qed.

Lemma gateway_keeps_to_its_backend_witness :
  blobPut Demo.blob_cfg = true
  /\ (products_file (snd (writeOrders Demo.blob_cfg (VArr []) Demo.shop)),
      orders_file (snd (writeOrders Demo.blob_cfg (VArr []) Demo.shop)),
      admins_file (snd (writeOrders Demo.blob_cfg (VArr []) Demo.shop)))
     = (products_file Demo.shop, orders_file Demo.shop,
        admins_file Demo.shop).
Proof.
  split; [reflexivity |].
  exact (proj1 (proj1 (gateway_keeps_to_its_backend Demo.blob_cfg Demo.shop
                         (VArr [])) eq_refl)).
Defined.

Lemma gateway_write_then_read_witness :
  writes_land Demo.local_cfg Demo.shop = true
  /\ ledger Demo.local_cfg
       (snd (writeOrders Demo.local_cfg (VArr [Demo.hosted_order]) Demo.shop))
     = json_clean (VArr [Demo.hosted_order]).
Proof.
  split; [reflexivity |].
  assert (Hdata : VArr [Demo.hosted_order] <> VUndefined) by discriminate.
  exact (proj1 (proj2 (proj1 (proj1 (gateway_write_then_read Demo.local_cfg
                                       Demo.shop (VArr [Demo.hosted_order]))
                                Hdata eq_refl)))).
Defined.

(* --------------------------------------------------------------------- *)
(** ** What a checkout leaves alone *)
(* --------------------------------------------------------------------- *)

Lemma read_products_keeps_reads (cfg : config) (w : world) :
  let w1 := snd (readJson PRODUCTS_FILE (VArr []) w) in
  ledger cfg w1 = ledger cfg w
  /\ directory cfg w1 = directory cfg w
  /\ catalog w1 = catalog w.
Proof.
  gateway. cbn [file_of]. cbv zeta.
  destruct (products_file w) eqn:Hp; cbn; rewrite ?Hp; cbn;
    try (repeat split; reflexivity).
  destruct (fs_writable w) eqn:Hw; cbn; rewrite ?Hp, ?Hw; cbn;
    destruct (USE_BLOB cfg && (USE_BLOB cfg && blob_sdk cfg));
    repeat split;
    try (destruct (orders_file w); reflexivity);
    destruct (admins_file w); reflexivity.
Qed.

Lemma read_orders_keeps_reads (cfg : config) (w : world) :
  let w1 := snd (readOrders cfg w) in
  ledger cfg w1 = ledger cfg w
  /\ directory cfg w1 = directory cfg w
  /\ catalog w1 = catalog w.
Proof.
  gateway. cbv zeta.
  destruct (USE_BLOB cfg), (blob_sdk cfg); cbn;
    try (repeat split; reflexivity);
    destruct (orders_file w) eqn:Ho, (admins_file w) eqn:Ha,
      (products_file w) eqn:Hp, (fs_writable w) eqn:Hw;
    cbn; rewrite ?Ho, ?Ha, ?Hp, ?Hw; cbn; repeat split; reflexivity.
Qed.

Lemma write_orders_keeps_reads (cfg : config) (data : value) (w : world) :
  let r := writeOrders cfg data w in
  directory cfg (snd r) = directory cfg w
  /\ catalog (snd r) = catalog w
  /\ (forall e, fst r = Throw e -> snd r = w).
Proof.
  gateway. cbv zeta.
  destruct (USE_BLOB cfg), (blob_sdk cfg), (has_json_text data); cbn;
    try destruct (blob_writable w) eqn:Hb;
    try destruct (fs_writable w) eqn:Hw; cbn; rewrite ?Hw;
    repeat split; try discriminate; try reflexivity;
    try (destruct (admins_file w); reflexivity);
    try (destruct (products_file w); reflexivity);
    try (destruct (admins_blob w); reflexivity).
Qed.

Section CheckoutLeavesAlone.
Context {RT : Runtime}.

Lemma checkout_prepare_world (body : value) (w w1 : world) (p : prepared) :
  checkout_prepare body w = (p, w1) ->
  w1 = w \/ w1 = snd (readJson PRODUCTS_FILE (VArr []) w).
Proof.
  unfold checkout_prepare.
  destruct (request_fields body) as [cartItems customer].
  destruct cartItems as [| | | | | cart |];
    try (intros H; injection H as _ <-; auto; fail).
  destruct cart as [| item rest]; [intros H; injection H as _ <-; auto |].
  destruct (customer_incomplete customer);
    [intros H; injection H as _ <-; auto |].
  destruct (readJson PRODUCTS_FILE (VArr []) w) as [ps w'].
  destruct (build_product_map ps) as [pm | e];
    [| intros H; injection H as _ <-; auto].
  destruct (resolve_items pm (item :: rest) 0%float []) as [[t its] | e];
    [| intros H; injection H as _ <-; auto].
  destruct its; intros H; injection H as _ <-; auto.
Qed.

(** X4. A checkout never changes the admin directory or the catalog.
    It leaves the ledger exactly as it was when it is answered with a
    status other than 200, and whenever it did not get as far as handing
    an order to [sendOrderConfirmationEmail]; with no mail transport
    configured that is every checkout not answered with success. *)
Theorem unplaced_checkout_writes_nothing (cfg : config) (clk : clock)
  (body : value) (w : world) :
  directory cfg (after (checkout cfg clk body w)) = directory cfg w
  /\ catalog (after (checkout cfg clk body w)) = catalog w
  /\ (notified (checkout cfg clk body w) = None ->
      ledger cfg (after (checkout cfg clk body w)) = ledger cfg w)
  /\ (forall (st : Z) (b : value),
         response (checkout cfg clk body w) = Reply st b ->
         st <> 200%Z ->
         ledger cfg (after (checkout cfg clk body w)) = ledger cfg w)
  /\ (mail_configured cfg = false ->
      (forall b, response (checkout cfg clk body w) <> Reply 200 b) ->
      ledger cfg (after (checkout cfg clk body w)) = ledger cfg w).
Proof.
  unfold checkout.
  destruct (checkout_prepare body w) as [p w1] eqn:Hprep.
  assert (H1 : ledger cfg w1 = ledger cfg w
               /\ directory cfg w1 = directory cfg w
               /\ catalog w1 = catalog w).
  { destruct (checkout_prepare_world _ _ _ _ Hprep) as [-> | ->];
      [auto | apply read_products_keeps_reads]. }
  destruct H1 as (Hl1 & Hd1 & Hc1).
  destruct p as [r | total items customer].
  { cbn. split; [exact Hd1 |]. split; [exact Hc1 |].
    split; [intros _; exact Hl1 |]. split; intros; exact Hl1. }
  unfold checkout_commit.
  destruct (read_orders_keeps_reads cfg w1) as (Hl2 & Hd2 & Hc2).
  destruct (readOrders cfg w1) as [orders w2]. cbn [snd] in *.
  destruct (checkout_append clk total items customer orders)
    as [[order orders'] | e].
  2: { cbn. split; [congruence |]. split; [congruence |].
       split; [intros _; congruence |]. split; intros; congruence. }
  unfold checkout_write, sendOrderConfirmationEmail.
  destruct (write_orders_keeps_reads cfg orders' w2) as (Hd3 & Hc3 & Hthrow).
  destruct (writeOrders cfg orders' w2) as [[[] | e] w3]; cbn [fst snd] in *.
  - destruct (mail_configured cfg) eqn:Hmail; cbn [negb].
    + match goal with
      | |- context [match ?m with Ok _ => _ | Throw _ => _ end] =>
          destruct m as [[] | e]
      end; cbn;
        (split; [congruence |]); (split; [congruence |]);
        (split; [intros H; discriminate H |]);
        (split; [| intros H; discriminate H]);
        intros st b H; try discriminate H;
        injection H as <- <-; intros Hne; contradiction.
    + cbn. split; [congruence |]. split; [congruence |].
      split; [intros H; discriminate H |]. split.
      * intros st b H. injection H as <- <-. intros Hne. contradiction.
      * intros _ Hno. exfalso. exact (Hno _ eq_refl).
  - cbn. rewrite (Hthrow e eq_refl).
    split; [congruence |]. split; [congruence |].
    split; [intros _; congruence |]. split; intros; congruence.
Qed.
End CheckoutLeavesAlone.

Lemma unplaced_checkout_writes_nothing_witness :
  (forall b,
      response (checkout Demo.blob_cfg (Demo.at_ms 1714557600000)
                  (Demo.cart_of (VNum 2%float)) Demo.read_only_shop)
      <> Reply 200 b)
  /\ ledger Demo.blob_cfg
       (after (checkout Demo.blob_cfg (Demo.at_ms 1714557600000)
                 (Demo.cart_of (VNum 2%float)) Demo.read_only_shop))
     = ledger Demo.blob_cfg Demo.read_only_shop.
Proof.
  assert (H : forall b,
             response (checkout Demo.blob_cfg (Demo.at_ms 1714557600000)
                         (Demo.cart_of (VNum 2%float)) Demo.read_only_shop)
             <> Reply 200 b)
    by (intros b; vm_compute; discriminate).
  split; [exact H |].
  exact (proj2 (proj2 (proj2 (proj2
           (unplaced_checkout_writes_nothing Demo.blob_cfg
              (Demo.at_ms 1714557600000)
              (Demo.cart_of (VNum 2%float)) Demo.read_only_shop))))
           eq_refl H).
Defined.

(** With a mail transport an ordinary order is written, its mail built
    and the checkout answered; a customer name that has no string to
    give makes the building of the mail throw, after the order was
    written. *)
Example mail_failure_follows_the_write :
  response (checkout Demo.mail_cfg (Demo.at_ms 1714557600000)
              (Demo.cart_of (VNum 2%float)) Demo.shop)
  = Reply 200 (placed_body (Demo.at_ms 1714557600000))
  /\ response
       (checkout Demo.mail_cfg (Demo.at_ms 1714557600000)
          (VObj [ ("cartItems",
                    VArr [ VObj [ ("productId", VStr "p1");
                                  ("quantity", VNum 2%float) ] ]);
                  ("customer",
                    VObj [ ("name", VObj [ ("toString", VNum 1%float) ]);
                           ("email", VStr "a@x.com");
                           ("address", VStr "1 Main St") ]) ])
          Demo.shop)
     = Unhandled TypeError
  /\ elements
       (ledger Demo.mail_cfg
          (after
             (checkout Demo.mail_cfg (Demo.at_ms 1714557600000)
                (VObj [ ("cartItems",
                          VArr [ VObj [ ("productId", VStr "p1");
                                        ("quantity", VNum 2%float) ] ]);
                        ("customer",
                          VObj [ ("name", VObj [ ("toString", VNum 1%float) ]);
                                 ("email", VStr "a@x.com");
                                 ("address", VStr "1 Main St") ]) ])
                Demo.shop)))
     <> elements (ledger Demo.mail_cfg Demo.shop).
Proof. vm_compute. repeat split. discriminate. Qed.

(* --------------------------------------------------------------------- *)
(** ** An identifier listed twice in the catalog *)
(* --------------------------------------------------------------------- *)

Section CatalogDuplicates.
Context {RT : Runtime}.

(** X5. When the catalog lists an identifier more than once, the entry
    listed last is the one a cart entry with that (string) identifier
    resolves to; when it lists it nowhere, the lookup is [undefined]. *)
Theorem later_catalog_entry_wins (ps : list value) (pm : jsmap value)
  (id : string) :
  build_product_map (VArr ps) = Ok pm ->
  lookup_product pm (VStr id)
  = match find (fun p => same_value_zero (prop p "id") (VStr id)) (rev ps) with
    | Some p => p
    | None => VUndefined
    end.
Proof.
  cbn [build_product_map].
  destruct (product_pairs ps) as [pairs |] eqn:E; [| discriminate].
  cbn [bind]. intros H. injection H as <-.
  unfold lookup_product.
  rewrite map_of_pairs_last, (product_pairs_returns ps pairs E).
  rewrite <- map_rev, find_map_pair. cbn [fst].
  destruct (find _ (rev ps)); reflexivity.
Qed.
End CatalogDuplicates.

Lemma later_catalog_entry_wins_witness :
  build_product_map
    (VArr [ VObj [ ("id", VStr "p1"); ("price", VNum 10%float) ];
            VObj [ ("id", VStr "p2"); ("price", VNum 7%float) ];
            VObj [ ("id", VStr "p1"); ("price", VNum 12%float) ] ])
  = Ok [ (VStr "p1", VObj [ ("id", VStr "p1"); ("price", VNum 12%float) ]);
         (VStr "p2", VObj [ ("id", VStr "p2"); ("price", VNum 7%float) ]) ]
  /\ lookup_product
       [ (VStr "p1", VObj [ ("id", VStr "p1"); ("price", VNum 12%float) ]);
         (VStr "p2", VObj [ ("id", VStr "p2"); ("price", VNum 7%float) ]) ]
       (VStr "p1")
     = VObj [ ("id", VStr "p1"); ("price", VNum 12%float) ].
Proof.
  assert (H : build_product_map
                (VArr [ VObj [ ("id", VStr "p1"); ("price", VNum 10%float) ];
                        VObj [ ("id", VStr "p2"); ("price", VNum 7%float) ];
                        VObj [ ("id", VStr "p1"); ("price", VNum 12%float) ] ])
              = Ok [ (VStr "p1",
                       VObj [ ("id", VStr "p1"); ("price", VNum 12%float) ]);
                     (VStr "p2",
                       VObj [ ("id", VStr "p2"); ("price", VNum 7%float) ]) ])
    by reflexivity.
  split; [exact H |].
  rewrite (later_catalog_entry_wins _ _ "p1" H). reflexivity.
Defined.

(* --------------------------------------------------------------------- *)
(** ** Escaping *)
(* --------------------------------------------------------------------- *)

Lemma string_app_assoc (a b c : string) :
  ((a ++ b) ++ c)%string = (a ++ b ++ c)%string.
Proof.
  induction a as [| x a IH]; [reflexivity |].
  cbn [String.append]. rewrite IH. reflexivity.
Qed.

Lemma replace_all_app (c : ascii) (by_ a b : string) :
  replace_all c by_ (a ++ b)%string
  = (replace_all c by_ a ++ replace_all c by_ b)%string.
Proof.
  induction a as [| x a IH]; [reflexivity |].
  cbn [String.append replace_all]. rewrite IH.
  destruct (Ascii.eqb x c); [| reflexivity].
  symmetry. apply string_app_assoc.
Qed.

Lemma occurs_app (c : ascii) (a b : string) :
  occurs c (a ++ b)%string = occurs c a || occurs c b.
Proof.
  induction a as [| x a IH]; [reflexivity |].
  cbn [String.append occurs]. rewrite IH, orb_assoc. reflexivity.
Qed.

(** The four passes come to escaping every character on its own: no
    entity written by an earlier pass is touched by a later one. *)
Lemma four_passes_escape_each (s : string) :
  replace_all "034"%char "&quot;"
    (replace_all ">"%char "&gt;"
       (replace_all "<"%char "&lt;" (replace_all "&"%char "&amp;" s)))
  = escape_each s.
Proof.
  induction s as [| x s IH]; [reflexivity |].
  cbn [replace_all escape_each]. unfold escape_char.
  destruct (Ascii.eqb_spec x "&"%char) as [-> | Hamp].
  - rewrite !replace_all_app, IH. reflexivity.
  - cbn [replace_all].
    destruct (Ascii.eqb_spec x "<"%char) as [-> | Hlt].
    + rewrite !replace_all_app, IH. reflexivity.
    + cbn [replace_all].
      destruct (Ascii.eqb_spec x ">"%char) as [-> | Hgt].
      * rewrite !replace_all_app, IH. reflexivity.
      * cbn [replace_all].
        destruct (Ascii.eqb_spec x "034"%char) as [-> | Hq].
        -- rewrite IH. reflexivity.
        -- rewrite IH. reflexivity.
Qed.

Lemma escape_each_clean (c : ascii) (s : string) :
  c = "<"%char \/ c = ">"%char \/ c = "034"%char ->
  occurs c (escape_each s) = false.
Proof.
  intros Hc. induction s as [| x s IH]; [reflexivity |].
  cbn [escape_each]. rewrite occurs_app, IH, orb_false_r.
  unfold escape_char.
  destruct (Ascii.eqb_spec x "&"%char) as [-> | Hamp];
    [destruct Hc as [-> | [-> | ->]]; reflexivity |].
  destruct (Ascii.eqb_spec x "<"%char) as [-> | Hlt];
    [destruct Hc as [-> | [-> | ->]]; reflexivity |].
  destruct (Ascii.eqb_spec x ">"%char) as [-> | Hgt];
    [destruct Hc as [-> | [-> | ->]]; reflexivity |].
  destruct (Ascii.eqb_spec x "034"%char) as [-> | Hq];
    [destruct Hc as [-> | [-> | ->]]; reflexivity |].
  cbn [occurs]. rewrite orb_false_r.
  destruct Hc as [-> | [-> | ->]]; apply Ascii.eqb_neq; assumption.
Qed.

Section EscapingTheorems.
Context {RT : Runtime}.

(** X6. [escapeHtml] gives the empty string for [null] and [undefined];
    for anything else it converts to a string, throwing where that
    conversion throws, and gives the text with every [&], [<], [>] and
    double quote replaced by its entity, each character on its own (the
    [&] of an entity is not escaped a second time), so that no [<], [>]
    or double quote is left in what it returns. *)
Theorem escapeHtml_leaves_no_markup (str : value) :
  (nullish str = true -> escapeHtml str = Ok "")
  /\ (nullish str = false ->
      escapeHtml str = (text <- ToString str ;; Ok (escape_each text)))
  /\ (forall out : string,
         escapeHtml str = Ok out ->
         occurs "<"%char out = false
         /\ occurs ">"%char out = false
         /\ occurs "034"%char out = false).
Proof.
  unfold escapeHtml. destruct (nullish str).
  - split; [reflexivity |]. split; [discriminate |].
    intros out H. injection H as <-. repeat split.
  - split; [discriminate |].
    destruct (ToString str) as [text | e]; cbn [bind].
    + rewrite four_passes_escape_each. split; [reflexivity |].
      intros out H. injection H as <-.
      repeat split; apply escape_each_clean; auto.
    + split; [reflexivity | discriminate].
Qed.
End EscapingTheorems.

Lemma escapeHtml_leaves_no_markup_witness :
  nullish (VStr "<b>R&D</b>") = false
  /\ escapeHtml (VStr "<b>R&D</b>") = Ok "&lt;b&gt;R&amp;D&lt;/b&gt;".
Proof.
  split; [reflexivity |].
  rewrite (proj1 (proj2 (escapeHtml_leaves_no_markup (VStr "<b>R&D</b>")))
             eq_refl).
  reflexivity.
Defined.

(* --------------------------------------------------------------------- *)
(** ** The admin routes: who gets in *)
(* --------------------------------------------------------------------- *)

(** X7. In production without [ENABLE_ADMIN=true], [blockAdminRoute]
    lets a request through exactly when it is local, and a request to
    [localhost] or [127.0.0.1] is local whatever port the [Host] header
    names; every other request gets a 404 and never reaches the handler. *)
Theorem admin_routes_hidden_unless_local (e : admin_env) (req : request)
  (port : string) :
  NODE_ENV e = Some "production" ->
  ENABLE_ADMIN e <> Some "true" ->
  (blockAdminRoute e req = Next <-> isLocalRequest req = true)
  /\ (isLocalRequest req = false ->
      exists b : value, blockAdminRoute e req = Stop (Reply 404 b))
  /\ isLocalRequest
       {| req_hostname := None;
          req_host := Some ("localhost:" ++ port)%string;
          req_path := req_path req; req_xhr := req_xhr req;
          req_accept := req_accept req |} = true
  /\ isLocalRequest
       {| req_hostname := None;
          req_host := Some ("127.0.0.1:" ++ port)%string;
          req_path := req_path req; req_xhr := req_xhr req;
          req_accept := req_accept req |} = true.
Proof.
  intros Hprod Hadmin.
  assert (Hoff : ADMIN_ENABLED e = false).
  { unfold ADMIN_ENABLED. rewrite Hprod. cbn.
    destruct (ENABLE_ADMIN e) as [x |]; [| reflexivity]. cbn.
    destruct (String.eqb_spec x "true") as [-> | _];
      [contradiction | reflexivity]. }
  split.
  - unfold blockAdminRoute. rewrite Hoff. cbn [orb].
    destruct (isLocalRequest req).
    + split; reflexivity.
    + split; [| discriminate].
      destruct (_ || _); discriminate.
  - split; [| split; reflexivity].
    intros Hfar. unfold blockAdminRoute. rewrite Hoff, Hfar. cbn [orb].
    destruct (_ || _); eexists; reflexivity.
Qed.

Lemma admin_routes_hidden_unless_local_witness :
  blockAdminRoute
    {| ENABLE_ADMIN := None; NODE_ENV := Some "production" |}
    {| req_hostname := Some "shop.example"; req_host := Some "localhost:3000";
       req_path := "/api/orders"; req_xhr := false; req_accept := None |}
  = Stop (Reply 404 (error_body "Not found."))
  /\ (blockAdminRoute
        {| ENABLE_ADMIN := None; NODE_ENV := Some "production" |}
        {| req_hostname := Some "shop.example";
           req_host := Some "localhost:3000";
           req_path := "/api/orders"; req_xhr := false; req_accept := None |}
      = Next
      <-> isLocalRequest
            {| req_hostname := Some "shop.example";
               req_host := Some "localhost:3000";
               req_path := "/api/orders"; req_xhr := false;
               req_accept := None |} = true).
Proof.
  split; [reflexivity |].
  apply (admin_routes_hidden_unless_local
           {| ENABLE_ADMIN := None; NODE_ENV := Some "production" |}
           {| req_hostname := Some "shop.example";
              req_host := Some "localhost:3000";
              req_path := "/api/orders"; req_xhr := false;
              req_accept := None |} "").
  - reflexivity.
  - discriminate.
Defined.

Lemma read_admins_keeps_reads (cfg : config) (w : world) :
  let w1 := snd (readAdmins cfg w) in
  directory cfg w1 = directory cfg w
  /\ ledger cfg w1 = ledger cfg w
  /\ catalog w1 = catalog w.
Proof.
  gateway. cbv zeta.
  destruct (USE_BLOB cfg), (blob_sdk cfg); cbn;
    try (repeat split; reflexivity);
    destruct (orders_file w) eqn:Ho, (admins_file w) eqn:Ha,
      (products_file w) eqn:Hp, (fs_writable w) eqn:Hw;
    cbn; rewrite ?Ho, ?Ha, ?Hp, ?Hw; cbn; repeat split; reflexivity.
Qed.

Section SignIn.
Context {RT : Runtime}.

(** The world a login leaves is the one its read of the directory
    leaves, or the one it found. *)
Lemma login_world (cfg : config) (body : value) (s : session) (w : world) :
  admin_after (login cfg body s w) = w
  \/ admin_after (login cfg body s w) = snd (readAdmins cfg w).
Proof.
  unfold login. destruct (credentials body) as [email password].
  destruct (_ || _); [left; reflexivity |].
  destruct (readAdmins cfg w) as [admins w1]. cbn [snd]. right.
  destruct (find_admin admins email) as [admin | e]; [| reflexivity].
  destruct (negb (truthy admin)); [reflexivity |].
  destruct (compare_password password _) as [[|] | e]; reflexivity.
Qed.

Lemma login_session (cfg : config) (body : value) (s : session) (w : world) :
  admin_session (login cfg body s w) = s
  \/ (exists b, admin_response (login cfg body s w) = Reply 200 b)
  \/ (exists b, admin_response (login cfg body s w) = Reply 500 b).
Proof.
  unfold login. destruct (credentials body) as [email password].
  destruct (_ || _); [left; reflexivity |].
  destruct (readAdmins cfg w) as [admins w1].
  destruct (find_admin admins email) as [admin | e]; [| left; reflexivity].
  destruct (negb (truthy admin)); [left; reflexivity |].
  destruct (compare_password password _) as [[|] | e];
    try (left; reflexivity).
  right. cbn. destruct (save_fails s); eauto.
Qed.

(** X8. A login never writes: whatever it is answered, the admin
    directory, the ledger and the catalog read afterwards are what they
    were; and unless it gets as far as establishing the session (answer
    200, or 500 when saving the session fails) the session is left as it
    was. *)
Theorem login_never_writes (cfg : config) (body : value) (s : session)
  (w : world) :
  directory cfg (admin_after (login cfg body s w)) = directory cfg w
  /\ ledger cfg (admin_after (login cfg body s w)) = ledger cfg w
  /\ catalog (admin_after (login cfg body s w)) = catalog w
  /\ ((forall b, admin_response (login cfg body s w) <> Reply 200 b) ->
      (forall b, admin_response (login cfg body s w) <> Reply 500 b) ->
      admin_session (login cfg body s w) = s).
Proof.
  destruct (read_admins_keeps_reads cfg w) as (Hd & Hl & Hc).
  assert (Hsame : directory cfg (admin_after (login cfg body s w))
                  = directory cfg w
                  /\ ledger cfg (admin_after (login cfg body s w))
                     = ledger cfg w
                  /\ catalog (admin_after (login cfg body s w)) = catalog w).
  { destruct (login_world cfg body s w) as [H | H]; rewrite H; auto. }
  destruct Hsame as (A & B & C).
  split; [exact A |]. split; [exact B |]. split; [exact C |].
  intros H200 H500.
  destruct (login_session cfg body s w) as [H | [[b H] | [b H]]];
    [exact H | exfalso; exact (H200 b H) | exfalso; exact (H500 b H)].
Qed.
End SignIn.

Lemma login_never_writes_witness :
  (forall b,
      admin_response
        (login Demo.local_cfg (Demo.login_as "ada@shop.example" "guess")
           Demo.signed_out Demo.staffed_shop) <> Reply 200 b)
  /\ admin_session
       (login Demo.local_cfg (Demo.login_as "ada@shop.example" "guess")
          Demo.signed_out Demo.staffed_shop)
     = Demo.signed_out.
Proof.
  assert (H200 : forall b,
             admin_response
               (login Demo.local_cfg
                  (Demo.login_as "ada@shop.example" "guess")
                  Demo.signed_out Demo.staffed_shop) <> Reply 200 b)
    by (intros b; vm_compute; discriminate).
  split; [exact H200 |].
  apply (proj2 (proj2 (proj2 (login_never_writes Demo.local_cfg
                                (Demo.login_as "ada@shop.example" "guess")
                                Demo.signed_out Demo.staffed_shop)))).
  - exact H200.
  - intros b. vm_compute. discriminate.
Defined.

(* --------------------------------------------------------------------- *)
(** ** Signing up, then logging in *)
(* --------------------------------------------------------------------- *)

Lemma read_admins_keeps_landing (cfg : config) (w : world) :
  writes_land cfg (snd (readAdmins cfg w)) = writes_land cfg w.
Proof.
  gateway.
  destruct (USE_BLOB cfg), (blob_sdk cfg); cbn; try reflexivity;
    destruct (admins_file w); try reflexivity;
    destruct (fs_writable w) eqn:Hw; cbn; rewrite ?Hw; reflexivity.
Qed.

Section SignupThenLogin.
Context {RT : Runtime}.

Lemma login_right_password (cfg : config) (s : session) (w : world)
  (body : value) (admins : list value) (e p h : string) (a : value) :
  directory cfg w = VArr admins ->
  directory_ok admins ->
  credentials body = (VStr e, VStr p) ->
  e <> "" -> p <> "" ->
  In a admins ->
  email_key a = Some (toLowerCase e) ->
  prop a "passwordHash" = VStr h ->
  bcrypt_compare p h = true ->
  login cfg body s w = establish (prop a "id") s (snd (readAdmins cfg w)).
Proof.
  intros Hdir [Hwf Hnd] Hcred He Hp Hin Hkey Hhash Hcmp. unfold login.
  rewrite Hcred, (truthy_string e He), (truthy_string p Hp). cbn [negb orb].
  unfold directory in Hdir.
  destruct (readAdmins cfg w) as [v w1]. cbn [fst snd] in *. subst v.
  cbn [find_admin]. rewrite (find_by_email_first admins e Hwf).
  destruct (same_email_some admins e) as (a' & Hfind & Hin' & Hkey').
  { rewrite <- Hkey. apply in_map. exact Hin. }
  assert (a' = a) as ->.
  { apply (NoDup_map_eq email_key admins); congruence. }
  rewrite Hfind. cbn [bind].
  assert (Hobj : is_object a = true) by (apply email_key_object; congruence).
  destruct a; try discriminate. cbn [truthy negb].
  rewrite Hhash. cbn [compare_password]. rewrite Hcmp. reflexivity.
Qed.

(** What a signup answered with success has done. *)
Lemma signup_success (cfg : config) (clk : clock) (salt : string)
  (body : value) (s : session) (w : world) (admins : list value)
  (name : value) (e p : string) (b : value) :
  directory cfg w = VArr admins ->
  directory_ok admins ->
  signup_fields body = (name, VStr e, VStr p) ->
  writes_land cfg w = true ->
  admin_response (signup cfg clk salt body s w) = Reply 200 b ->
  p <> ""
  /\ find (same_email e) admins = None
  /\ adminUserId (admin_session (signup cfg clk salt body s w))
     = VStr ("admin-" ++ decimal (now clk))
  /\ directory cfg (admin_after (signup cfg clk salt body s w))
     = VArr (map json_clean
               (admins ++ [make_admin clk name (VStr e) (bcrypt_hash p salt)])).
Proof.
  intros Hdir Hok Hfields Hland.
  pose proof (read_admins_keeps_landing cfg w) as Hland1.
  unfold signup. rewrite Hfields. unfold directory in Hdir.
  destruct (readAdmins cfg w) as [v w1]. cbn [fst snd] in *. subst v.
  cbn [find_admin]. rewrite (find_by_email_first admins e (proj1 Hok)).
  cbn [bind].
  destruct (negb (truthy name) || negb (truthy (VStr e))
            || negb (truthy (VStr p))) eqn:Hmissing; [discriminate |].
  destruct (find (same_email e) admins) as [a |] eqn:Hfind.
  { apply find_some in Hfind. destruct Hfind as [Hin _].
    pose proof (email_key_object a
                  (proj1 (Forall_forall _ admins) (proj1 Hok) a Hin)) as Ho.
    destruct a; discriminate. }
  cbn [truthy hash_password push].
  rewrite Hland in Hland1.
  destruct (write_admins_lands cfg w1
              (VArr (admins ++ [make_admin clk name (VStr e)
                                  (bcrypt_hash p salt)])) eq_refl Hland1)
    as (w2 & Hwrite & Hdir2 & _ & _).
  rewrite Hwrite. intros _. cbn.
  repeat split; try assumption.
  intros ->. apply orb_false_elim in Hmissing.
  destruct Hmissing as [_ Hp]. discriminate Hp.
Qed.

(** X9. After a signup that was answered with success on a store that
    takes the write, the session passes [requireAdminApi]; a login with
    the same password and an email equal to the signup's once both are
    lowercased finds the new account, provided [bcrypt.compare] accepts
    the password against its own hash: the session then carries the
    account's identifier, and the answer is the success response unless
    saving the session fails.  After a logout the session no longer
    passes. *)
Theorem signup_then_login (cfg : config) (clk : clock) (salt : string)
  (body again : value) (s s' : session) (w : world) (admins : list value)
  (name : value) (e e' p : string) (b : value) :
  directory cfg w = VArr admins ->
  directory_ok admins ->
  signup_fields body = (name, VStr e, VStr p) ->
  writes_land cfg w = true ->
  admin_response (signup cfg clk salt body s w) = Reply 200 b ->
  credentials again = (VStr e', VStr p) ->
  e' <> "" ->
  toLowerCase e' = toLowerCase e ->
  bcrypt_compare p (bcrypt_hash p salt) = true ->
  let signed := signup cfg clk salt body s w in
  let logged := login cfg again s' (admin_after signed) in
  requireAdminApi (admin_session signed) = Next
  /\ adminUserId (admin_session logged)
     = VStr ("admin-" ++ decimal (now clk))
  /\ (save_fails s' = false ->
      admin_response logged = Reply 200 (VObj [("success", VBool true)]))
  /\ requireAdminApi (admin_session logged) = Next
  /\ requireAdminApi (snd (logout (admin_session logged)))
     = Stop (Reply 401 (error_body "Not authenticated as admin.")).
Proof.
  intros Hdir Hok Hfields Hland Hresp Hcred He' Hlower Hcmp. cbv zeta.
  destruct (signup_success cfg clk salt body s w admins name e p b
              Hdir Hok Hfields Hland Hresp)
    as (Hp & Hfresh & Hid & Hdir').
  set (admin := make_admin clk name (VStr e) (bcrypt_hash p salt)) in *.
  assert (Hok' : directory_ok (map json_clean (admins ++ [admin]))).
  { apply (directory_ok_extended admins admin e Hok); [reflexivity | exact Hfresh]. }
  assert (Hkey : email_key (json_clean admin) = Some (toLowerCase e')).
  { rewrite email_key_clean; [rewrite Hlower; reflexivity | discriminate]. }
  assert (Hin : In (json_clean admin) (map json_clean (admins ++ [admin]))).
  { apply in_map, in_or_app. right. left. reflexivity. }
  assert (Hhash : prop (json_clean admin) "passwordHash"
                  = VStr (bcrypt_hash p salt)).
  { unfold admin, make_admin.
    rewrite (json_clean_prop _ "passwordHash" (VStr (bcrypt_hash p salt)));
      [reflexivity | reflexivity | discriminate]. }
  assert (Hidc : prop (json_clean admin) "id"
                 = VStr ("admin-" ++ decimal (now clk))).
  { apply id_survives_json. reflexivity. }
  rewrite (login_right_password cfg s' _ again _ e' p (bcrypt_hash p salt)
             (json_clean admin) Hdir' Hok' Hcred He' Hp Hin Hkey Hhash Hcmp).
  rewrite Hidc. unfold requireAdminApi. rewrite Hid. cbn.
  repeat split. intros ->. reflexivity.
Qed.
End SignupThenLogin.

Lemma signup_then_login_witness :
  admin_response
    (signup Demo.local_cfg (Demo.at_ms 1714557600000) "NaCl"
       (Demo.signup_as "Eve" "eve@shop.example" "open sesame")
       Demo.signed_out Demo.staffed_shop)
  = Reply 200 (VObj [("success", VBool true)])
  /\ admin_response
       (login Demo.local_cfg (Demo.login_as "Eve@Shop.Example" "open sesame")
          Demo.signed_out
          (admin_after
             (signup Demo.local_cfg (Demo.at_ms 1714557600000) "NaCl"
                (Demo.signup_as "Eve" "eve@shop.example" "open sesame")
                Demo.signed_out Demo.staffed_shop)))
     = Reply 200 (VObj [("success", VBool true)]).
Proof.
  assert (Hresp :
            admin_response
              (signup Demo.local_cfg (Demo.at_ms 1714557600000) "NaCl"
                 (Demo.signup_as "Eve" "eve@shop.example" "open sesame")
                 Demo.signed_out Demo.staffed_shop)
            = Reply 200 (VObj [("success", VBool true)]))
    by (vm_compute; reflexivity).
  split; [exact Hresp |].
  assert (Hok : directory_ok [Demo.hosted_admin]).
  { split; repeat constructor; [discriminate | intros []]. }
  refine (proj1 (proj2 (proj2
            (signup_then_login Demo.local_cfg (Demo.at_ms 1714557600000)
               "NaCl" (Demo.signup_as "Eve" "eve@shop.example" "open sesame")
               (Demo.login_as "Eve@Shop.Example" "open sesame")
               Demo.signed_out Demo.signed_out Demo.staffed_shop
               [Demo.hosted_admin] (VStr "Eve") "eve@shop.example"
               "Eve@Shop.Example" "open sesame" _
               eq_refl Hok eq_refl eq_refl Hresp eq_refl _ eq_refl eq_refl)))
            eq_refl).
  discriminate.
Defined.

(* --------------------------------------------------------------------- *)
(** ** JSON text, twice *)
(* --------------------------------------------------------------------- *)

Lemma json_clean_defined (v : value) : json_clean v <> VUndefined.
Proof.
  destruct v; cbn; try discriminate.
  destruct (is_finite n); discriminate.
Qed.

Lemma json_clean_object (props : list (string * value)) :
  json_clean (VObj props) = VObj (clean_props props).
Proof. reflexivity. Qed.

Lemma clean_props_cons (k : string) (x : value)
  (rest : list (string * value)) :
  x <> VUndefined ->
  clean_props ((k, x) :: rest) = (k, json_clean x) :: clean_props rest.
Proof. destruct x; try reflexivity. contradiction. Qed.

(** What came back from JSON text goes through JSON text unchanged. *)
Lemma json_clean_idempotent (v : value) :
  json_clean (json_clean v) = json_clean v.
Proof.
  revert v. fix json_clean_idempotent 1. intros v.
  destruct v as [| | b | n | s | elems | props]; try reflexivity.
  - cbn [json_clean]. destruct (is_finite n) eqn:Hf; [| reflexivity].
    destruct (is_zero n) eqn:Hz; [reflexivity |].
    cbn [json_clean]. rewrite Hf, Hz. reflexivity.
  - cbn [json_clean]. f_equal.
    induction elems as [| x elems IH]; [reflexivity |].
    cbn [map]. rewrite (json_clean_idempotent x), IH. reflexivity.
  - rewrite !json_clean_object. f_equal.
    induction props as [| [k x] props IH]; [reflexivity |].
    assert (Hx := json_clean_idempotent x).
    destruct x; try exact IH;
      (rewrite clean_props_cons by discriminate;
       rewrite clean_props_cons by apply json_clean_defined;
       rewrite IH, Hx; reflexivity).
Qed.

(* --------------------------------------------------------------------- *)
(** ** The import against the export *)
(* --------------------------------------------------------------------- *)

Section Pulling.
Context {RT : Runtime}.
Variable stringify : value -> string.

(** X10. When the import does not get to its [fetch] (it runs on Vercel,
    or [PRODUCTION_URL] is unset or made of slashes only, or the secret is
    unset or empty) it answers 400, whatever the origin would have sent,
    and leaves the world as it was. *)
Theorem import_refuses_before_fetching (cfg : config)
  (fetched : result http_response) (w : world) :
  reaches_fetch cfg = false ->
  exists msg : string,
    sync_from_production cfg fetched w = (Reply 400 (error_body msg), w).
Proof.
  unfold reaches_fetch, sync_from_production.
  destruct (strict_eq (env (VERCEL cfg)) (VStr "1")); [eauto |].
  destruct (strip_trailing_slashes _ =? "")%string;
    destruct (truthy (env (DASHBOARD_SYNC_SECRET cfg)));
    cbn [negb andb orb]; intros H; try discriminate H; eauto.
Qed.

Lemma export_serves (cfg : config) (secret : string) (w : world) :
  DASHBOARD_SYNC_SECRET cfg = Some secret ->
  secret <> "" ->
  dashboard_sync cfg (VStr secret) None w
  = (Reply 200 (VObj [ ("orders", js_or (ledger cfg w) (VArr []));
                       ("admins",
                         js_or (directory cfg (snd (readOrders cfg w)))
                           (VArr [])) ]),
     snd (readAdmins cfg (snd (readOrders cfg w)))).
Proof.
  intros Hs Hne. unfold dashboard_sync, ledger, directory. rewrite Hs.
  assert (Ht : truthy (VStr secret) = true).
  { cbn. destruct (String.eqb_spec secret ""); [contradiction | reflexivity]. }
  cbn [env]. unfold js_or at 1. rewrite Ht. cbn [strict_eq].
  rewrite String.eqb_refl. cbn [negb orb].
  destruct (readOrders cfg w) as [orders w1].
  cbn [fst snd]. destruct (readAdmins cfg w1) as [admins w2]. reflexivity.
Qed.

Lemma export_refuses (cfg : config) (supplied : string) (w : world) :
  supplied <> "" ->
  DASHBOARD_SYNC_SECRET cfg <> Some supplied ->
  dashboard_sync cfg (VStr supplied) None w
  = (Reply 401 (error_body "Unauthorized"), w).
Proof.
  intros Hne Hdiff. unfold dashboard_sync.
  assert (Ht : truthy (VStr supplied) = true).
  { cbn. destruct (String.eqb_spec supplied ""); [contradiction | reflexivity]. }
  unfold js_or at 1. rewrite Ht.
  destruct (DASHBOARD_SYNC_SECRET cfg) as [own |]; [| reflexivity].
  cbn [env strict_eq].
  destruct (String.eqb_spec supplied own) as [-> | _];
    [exfalso; apply Hdiff; reflexivity |].
  rewrite orb_true_r. reflexivity.
Qed.

Lemma reaches_fetch_runs (cfg : config) (fetched : result http_response)
  (w : world) :
  reaches_fetch cfg = true ->
  sync_from_production cfg fetched w
  = match fetched with
    | Throw e => (sync_failed e, w)
    | Ok resp =>
        if negb (ok resp)
        then match text resp with
             | Throw e => (sync_failed e, w)
             | Ok t =>
                 (Reply (status resp) (error_body (or_text t "Sync failed")),
                  w)
             end
        else
          match json resp with
          | Throw e => (sync_failed e, w)
          | Ok data =>
              match get data "orders" with
              | Throw e => (sync_failed e, w)
              | Ok fetched_orders =>
                  let orders := array_or_empty fetched_orders in
                  let admins := array_or_empty (prop data "admins") in
                  match writeOrders cfg orders w with
                  | (Throw e, w1) => (sync_failed e, w1)
                  | (Ok _, w1) =>
                      match writeAdmins cfg admins w1 with
                      | (Throw e, w2) => (sync_failed e, w2)
                      | (Ok _, w2) =>
                          (Reply 200
                             (VObj [ ("success", VBool true);
                                     ("orders",
                                       VNum (num_of_nat
                                               (length (elements orders))));
                                     ("admins",
                                       VNum (num_of_nat
                                               (length (elements admins)))) ]),
                           w2)
                      end
                  end
              end
          end
    end.
Proof.
  unfold reaches_fetch, sync_from_production. intros H.
  apply andb_prop in H. destruct H as [H Hsecret].
  apply andb_prop in H. destruct H as [Hvercel Hurl].
  apply negb_true_iff in Hvercel, Hurl.
  rewrite Hvercel, Hurl, Hsecret. reflexivity.
Qed.

(** X11. With the same non-empty secret on both sides, an import that
    gets to its [fetch], run against the export of an origin whose ledger
    and directory are arrays, on a store that takes the writes, answers
    with success and the two counts, and leaves the destination with the
    origin's ledger and directory as JSON text gives them back; the
    origin's collections are what they were. *)
Theorem pull_copies_the_origin (origin dest : config) (wo wd : world)
  (secret : string) (L D : list value) :
  DASHBOARD_SYNC_SECRET origin = Some secret ->
  DASHBOARD_SYNC_SECRET dest = Some secret ->
  secret <> "" ->
  reaches_fetch dest = true ->
  ledger origin wo = VArr L ->
  directory origin wo = VArr D ->
  writes_land dest wd = true ->
  exists wo' wd' : world,
    pull stringify origin dest wo wd
    = (Reply 200 (VObj [ ("success", VBool true);
                         ("orders", VNum (num_of_nat (length L)));
                         ("admins", VNum (num_of_nat (length D))) ]),
       wo', wd')
    /\ ledger dest wd' = json_clean (VArr L)
    /\ directory dest wd' = json_clean (VArr D)
    /\ ledger origin wo' = VArr L
    /\ directory origin wo' = VArr D.
Proof.
  intros Hso Hsd Hne Hreach HL HD Hland. unfold pull.
  rewrite Hsd. cbn [env]. rewrite (export_serves origin secret wo Hso Hne).
  destruct (read_orders_keeps_reads origin wo) as (Hl1 & Hd1 & _).
  destruct (read_admins_keeps_reads origin (snd (readOrders origin wo)))
    as (Hd2 & Hl2 & _).
  rewrite Hd1, HL, HD. cbn [js_or truthy served].
  rewrite (reaches_fetch_runs dest _ wd Hreach), Hreach.
  cbn [ok status json text negb Z.leb Z.compare andb].
  change (json_clean (VObj [("orders", VArr L); ("admins", VArr D)]))
    with (VObj [("orders", VArr (map json_clean L));
                ("admins", VArr (map json_clean D))]).
  cbn [get nullish prop assoc String.eqb Ascii.eqb Bool.eqb array_or_empty
         isArray elements].
  destruct (write_orders_lands dest wd (VArr (map json_clean L)) eq_refl Hland)
    as (w1 & Hw1 & Hledger1 & _ & Hland1).
  destruct (write_admins_lands dest w1 (VArr (map json_clean D)) eq_refl Hland1)
    as (w2 & Hw2 & Hdir2 & Hledger2 & _).
  rewrite Hw1, Hw2, !length_map.
  exists (snd (readAdmins origin (snd (readOrders origin wo)))), w2.
  split; [reflexivity |].
  split; [rewrite Hledger2, Hledger1; apply (json_clean_idempotent (VArr L)) |].
  split; [rewrite Hdir2; apply (json_clean_idempotent (VArr D)) |].
  split; congruence.
Qed.

(** X12. When the dashboard's secret is not the origin's, the import
    answers with the origin's 401 and the text of its body as the error,
    and neither side's world changes. *)
Theorem pull_with_wrong_secret (origin dest : config) (wo wd : world)
  (secret : string) :
  DASHBOARD_SYNC_SECRET dest = Some secret ->
  DASHBOARD_SYNC_SECRET origin <> Some secret ->
  reaches_fetch dest = true ->
  pull stringify origin dest wo wd
  = (Reply 401
       (error_body (or_text (stringify (error_body "Unauthorized"))
                      "Sync failed")),
     wo, wd).
Proof.
  intros Hsd Hdiff Hreach. unfold pull. rewrite Hsd. cbn [env].
  assert (Hne : secret <> "").
  { intros ->. unfold reaches_fetch in Hreach. rewrite Hsd in Hreach.
    cbn in Hreach. rewrite andb_false_r in Hreach. discriminate. }
  rewrite (export_refuses origin secret wo Hne Hdiff). cbn [served].
  rewrite (reaches_fetch_runs dest _ wd Hreach), Hreach. reflexivity.
Qed.
End Pulling.

Lemma import_refuses_before_fetching_witness :
  exists msg : string,
    sync_from_production Demo.hosted_cfg (Ok Demo.export_response) Demo.shop
    = (Reply 400 (error_body msg), Demo.shop).
Proof.
  apply (import_refuses_before_fetching Demo.hosted_cfg). reflexivity.
Defined.

Lemma pull_copies_the_origin_witness :
  exists wo' wd' : world,
    pull Demo.json_text Demo.hosted_cfg Demo.dashboard_cfg Demo.hosted_shop
      Demo.shop
    = (Reply 200 (VObj [ ("success", VBool true);
                         ("orders", VNum 1%float);
                         ("admins", VNum 1%float) ]),
       wo', wd')
    /\ ledger Demo.dashboard_cfg wd' = VArr [Demo.hosted_order]
    /\ directory Demo.dashboard_cfg wd' = VArr [Demo.hosted_admin].
Proof.
  assert (HL : ledger Demo.hosted_cfg Demo.hosted_shop
               = VArr [Demo.hosted_order]) by (vm_compute; reflexivity).
  assert (HD : directory Demo.hosted_cfg Demo.hosted_shop
               = VArr [Demo.hosted_admin]) by (vm_compute; reflexivity).
  assert (Hreach : reaches_fetch Demo.dashboard_cfg = true)
    by (vm_compute; reflexivity).
  assert (Hland : writes_land Demo.dashboard_cfg Demo.shop = true)
    by (vm_compute; reflexivity).
  assert (Hne : "s3cret"%string <> ""%string) by discriminate.
  destruct (pull_copies_the_origin Demo.json_text Demo.hosted_cfg
              Demo.dashboard_cfg Demo.hosted_shop Demo.shop "s3cret"
              [Demo.hosted_order] [Demo.hosted_admin]
              (eq_refl _) (eq_refl _) Hne Hreach HL HD Hland)
    as (wo' & wd' & Hpull & Hledger & Hdirectory & _).
  exists wo', wd'. split; [exact Hpull |]. split; assumption.
Defined.

Lemma pull_with_wrong_secret_witness :
  exists msg : string,
    pull Demo.json_text Demo.hosted_cfg Demo.stranger_cfg Demo.hosted_shop
      Demo.shop
    = (Reply 401 (error_body msg), Demo.hosted_shop, Demo.shop).
Proof.
  assert (Hreach : reaches_fetch Demo.stranger_cfg = true)
    by (vm_compute; reflexivity).
  assert (Hdiff : DASHBOARD_SYNC_SECRET Demo.hosted_cfg <> Some "guess"%string)
    by discriminate.
  eexists.
  exact (pull_with_wrong_secret Demo.json_text Demo.hosted_cfg
           Demo.stranger_cfg Demo.hosted_shop Demo.shop "guess"
           (eq_refl _) Hdiff Hreach).
Defined.

(* --------------------------------------------------------------------- *)
(** ** The sync script *)
(* --------------------------------------------------------------------- *)

Lemma set_file_writable (w : world) (p : file_path) (st : file_state) :
  fs_writable (set_file w p st) = fs_writable w.
Proof. destruct p; reflexivity. Qed.

Lemma array_or_empty_text (x : value) :
  has_json_text (array_or_empty x) = true.
Proof. destruct x; reflexivity. Qed.

(** X13. When the script prints its count of what it synced, the two
    files hold the arrays of the fetched document, as JSON text gives
    them back, and the counts are their lengths. *)
Theorem script_synced_means_written (cfg : config)
  (fetched : result http_response) (w w' : world) (n m : nat) :
  sync_script cfg fetched w = (Synced n m, w') ->
  exists (res : http_response) (data : value),
    fetched = Ok res
    /\ json res = Ok data
    /\ orders_file w'
       = FileHolds (json_clean (array_or_empty (prop data "orders")))
    /\ admins_file w'
       = FileHolds (json_clean (array_or_empty (prop data "admins")))
    /\ n = length (elements (array_or_empty (prop data "orders")))
    /\ m = length (elements (array_or_empty (prop data "admins"))).
Proof.
  unfold sync_script.
  destruct (_ || _); [discriminate |].
  destruct fetched as [res | e]; [| discriminate].
  destruct (negb (ok res)); [discriminate |].
  destruct (json res) as [data | e] eqn:Hjson; [| discriminate].
  destruct (get data "orders") as [fetched_orders | e] eqn:Hget;
    [| discriminate].
  assert (Hprop : fetched_orders = prop data "orders").
  { unfold get in Hget. destruct (nullish data); [discriminate |].
    injection Hget as <-. reflexivity. }
  subst fetched_orders. unfold writeFileSync.
  rewrite !array_or_empty_text. cbn [andb].
  destruct (fs_writable w) eqn:Hw; [| discriminate].
  rewrite set_file_writable, Hw. intros H. injection H as <- <- <-.
  exists res, data. repeat split; assumption.
Qed.

Lemma script_synced_means_written_witness :
  orders_file
    (snd (sync_script Demo.dashboard_cfg (Ok Demo.export_response) Demo.shop))
  = FileHolds (VArr [Demo.hosted_order]).
Proof.
  assert (Hrun : sync_script Demo.dashboard_cfg (Ok Demo.export_response)
                   Demo.shop
                 = (Synced 1 1,
                    snd (sync_script Demo.dashboard_cfg
                           (Ok Demo.export_response) Demo.shop)))
    by (vm_compute; reflexivity).
  destruct (script_synced_means_written Demo.dashboard_cfg
              (Ok Demo.export_response) Demo.shop _ 1 1 Hrun)
    as (res & data & Hres & Hjson & Horders & _).
  injection Hres as <-. injection Hjson as <-. exact Horders.
Defined.

(** X14. On a disk that takes no writes the script exits with 1 and
    leaves every file as it was. *)
Theorem script_reports_a_failed_write (cfg : config)
  (fetched : result http_response) (w : world) :
  fs_writable w = false ->
  sync_script cfg fetched w = (Exit1, w).
Proof.
  intros Hw. unfold sync_script.
  destruct (_ || _); [reflexivity |].
  destruct fetched as [res | e]; [| reflexivity].
  destruct (negb (ok res)); [reflexivity |].
  destruct (json res) as [data | e]; [| reflexivity].
  destruct (get data "orders") as [fetched_orders | e]; [| reflexivity].
  unfold writeFileSync. rewrite Hw, andb_false_r. reflexivity.
Qed.

Lemma script_reports_a_failed_write_witness :
  sync_script Demo.dashboard_cfg (Ok Demo.export_response)
    Demo.read_only_shop
  = (Exit1, Demo.read_only_shop).
Proof.
  apply (script_reports_a_failed_write Demo.dashboard_cfg). reflexivity.
Defined.

Section ScriptAndRoute.
Context {RT : Runtime}.

(** X15. Off Vercel, with the files behind the gateway and a disk that
    takes the writes, the script and the import route leave the same
    world; when the script prints its counts the route answers success
    with the same counts, and when the script exits with 1 the route's
    answer is no success. *)
Theorem script_agrees_with_route (cfg : config)
  (fetched : result http_response) (w : world) :
  strict_eq (env (VERCEL cfg)) (VStr "1") = false ->
  blobPut cfg = false ->
  fs_writable w = true ->
  snd (sync_script cfg fetched w) = snd (sync_from_production cfg fetched w)
  /\ (forall n m : nat,
         fst (sync_script cfg fetched w) = Synced n m ->
         fst (sync_from_production cfg fetched w)
         = Reply 200 (VObj [ ("success", VBool true);
                             ("orders", VNum (num_of_nat n));
                             ("admins", VNum (num_of_nat m)) ]))
  /\ (fst (sync_script cfg fetched w) = Exit1 ->
      forall rest : list (string * value),
        fst (sync_from_production cfg fetched w)
        <> Reply 200 (VObj (("success", VBool true) :: rest))).
Proof.
  intros Hvercel Hput Hw.
  unfold sync_script, sync_from_production. rewrite Hvercel.
  destruct (_ || _).
  { cbn. repeat split; [discriminate | intros _ rest; discriminate]. }
  destruct fetched as [res | e].
  2: { cbn. repeat split; [discriminate | intros _ rest; discriminate]. }
  destruct (negb (ok res)).
  { destruct (text res);
      cbn; repeat split; try discriminate; intros _ rest; discriminate. }
  destruct (json res) as [data | e].
  2: { cbn. repeat split; [discriminate | intros _ rest; discriminate]. }
  destruct (get data "orders") as [fetched_orders | e].
  2: { cbn. repeat split; [discriminate | intros _ rest; discriminate]. }
  unfold writeOrders, writeAdmins, writeJson, writeFileSync.
  rewrite !array_or_empty_text. cbn [andb].
  rewrite Hput, andb_false_r, Hw, set_file_writable, Hw. cbn [fst snd].
  repeat split.
  - intros n m H. injection H as <- <-. reflexivity.
  - discriminate.
Qed.
End ScriptAndRoute.

Lemma script_agrees_with_route_witness :
  snd (sync_script Demo.dashboard_cfg (Ok Demo.export_response) Demo.shop)
  = snd (sync_from_production Demo.dashboard_cfg (Ok Demo.export_response)
           Demo.shop).
Proof.
  assert (Hvercel : strict_eq (env (VERCEL Demo.dashboard_cfg)) (VStr "1")
                    = false) by reflexivity.
  assert (Hput : blobPut Demo.dashboard_cfg = false) by reflexivity.
  assert (Hw : fs_writable Demo.shop = true) by reflexivity.
  exact (proj1 (script_agrees_with_route Demo.dashboard_cfg
                  (Ok Demo.export_response) Demo.shop Hvercel Hput Hw)).
Defined.

(* --------------------------------------------------------------------- *)
(** ** The dashboard's aggregation and the server's *)
(* --------------------------------------------------------------------- *)

Lemma map_update_present {V : Type} (m : jsmap V) (k : value) (c : V)
  (f : V -> result V) :
  map_get m k = Some c ->
  map_update m k f = (c' <- f c ;; Ok (map_set m k c')).
Proof.
  induction m as [| [k' v] m IH]; [discriminate |].
  cbn [map_get map_update map_set].
  destruct (same_value_zero k' k).
  - intros H. injection H as ->. reflexivity.
  - intros H. rewrite (IH H). destruct (f c); reflexivity.
Qed.

Lemma map_update_just_set {V : Type} (m : jsmap V) (s : string) (v : V)
  (f : V -> result V) :
  map_get m (VStr s) = None ->
  map_update (map_set m (VStr s) v) (VStr s) f
  = (v' <- f v ;; Ok (map_set m (VStr s) v')).
Proof.
  induction m as [| [k' v'] m IH]; cbn [map_get map_update map_set].
  - intros _. cbn. rewrite String.eqb_refl. destruct (f v); reflexivity.
  - destruct (same_value_zero k' (VStr s)) eqn:E; [discriminate |].
    intros H. cbn [map_update]. rewrite E, (IH H).
    destruct (f v); reflexivity.
Qed.

Section TwoAggregations.
Context {RT : Runtime}.

Lemma guarded_or_empty (order : value) (f : string) :
  js_or (guarded_field order f) (VStr "")
  = js_or (customer_field order f) (VStr "").
Proof.
  unfold guarded_field, customer_field, get_opt, js_or.
  destruct (prop order "customer") as [| | b | n | s | l | ps]; cbn;
    try reflexivity.
  - destruct b; reflexivity.
  - destruct (truthy_num n) eqn:Hn; cbn; rewrite ?Hn; reflexivity.
  - destruct (s =? "")%string eqn:Hs; cbn; rewrite ?Hs; reflexivity.
Qed.

Lemma dashboard_fresh_is_fresh (email order : value) :
  dashboard_fresh email order = fresh email order.
Proof.
  unfold dashboard_fresh, fresh. rewrite !guarded_or_empty. reflexivity.
Qed.

Lemma dashboard_backfill_is_backfill (current order : value) (f : string) :
  dashboard_backfill current order f = backfill current order f.
Proof.
  unfold dashboard_backfill, backfill, customer_field, get_opt.
  destruct (truthy current); [reflexivity |]. cbn [negb andb].
  destruct (prop order "customer") as [| | b | n | s | l | ps]; cbn;
    try reflexivity.
  - destruct b; reflexivity.
  - destruct (truthy_num n) eqn:Hn; cbn; rewrite ?Hn; reflexivity.
  - destruct (s =? "")%string eqn:Hs; cbn; rewrite ?Hs; reflexivity.
Qed.

Lemma dashboard_absorb_is_absorb (existing : customer) (order : value) :
  dashboard_absorb existing order = absorb existing order.
Proof.
  unfold dashboard_absorb, absorb.
  rewrite !dashboard_backfill_is_backfill. reflexivity.
Qed.

(** The two ways of reading the email of an order: both throw, or both
    give a falsy value, or both give the same string. *)
Lemma two_emails (order : value) :
  toLowerCase "" = ""%string ->
  email_is_text order = true ->
  (order_email order = Throw TypeError
   /\ dashboard_email order = Throw TypeError)
  \/ (exists e e' : value,
         order_email order = Ok e /\ dashboard_email order = Ok e'
         /\ truthy e = false /\ truthy e' = false)
  \/ (exists s : string,
         order_email order = Ok (VStr s)
         /\ dashboard_email order = Ok (VStr s)
         /\ truthy (VStr s) = true).
Proof.
  intros Hlower Htext.
  unfold email_is_text in Htext. unfold order_email, dashboard_email, get.
  destruct (nullish order); [left; split; reflexivity |].
  right. cbn [bind]. unfold get_opt.
  destruct (prop order "customer") as [| | b | n | s | l | ps] eqn:Hc;
    try (left; do 2 eexists; cbn; repeat split; reflexivity).
  - left. destruct b; do 2 eexists; cbn; repeat split; reflexivity.
  - left. cbn.
    destruct (truthy_num n) eqn:Hn; cbn; rewrite ?Hn;
      do 2 eexists; repeat split; reflexivity.
  - left. cbn.
    destruct (s =? "")%string eqn:Hs; cbn; rewrite ?Hs;
      do 2 eexists; repeat split; reflexivity.
  - cbn [nullish truthy]. revert Htext.
    destruct (prop (VObj ps) "email") as [| | b | n | s | l | qs];
      cbn [truthy opt_call_toLowerCase call_toLowerCase negb];
      try discriminate;
      try (intros _; left; do 2 eexists; repeat split; reflexivity).
    + intros Hb. apply negb_true_iff in Hb. rewrite Hb.
      left. do 2 eexists. repeat split; reflexivity.
    + intros Hn. apply negb_true_iff in Hn. rewrite Hn.
      left. do 2 eexists. repeat split; reflexivity.
    + intros _. destruct (String.eqb_spec s "") as [-> | Hs]; cbn [negb].
      * left. do 2 eexists. rewrite Hlower. repeat split; reflexivity.
      * destruct (truthy (VStr (toLowerCase s))) eqn:Ht.
        -- right. exists (toLowerCase s). repeat split; assumption.
        -- left. do 2 eexists. split; [reflexivity |].
           split; [reflexivity |]. split; assumption.
Qed.

Lemma two_loops (orders : list value) :
  toLowerCase "" = ""%string ->
  Forall (fun order => email_is_text order = true) orders ->
  forall byEmail : jsmap customer,
    dashboard_loop orders byEmail = aggregate_loop orders byEmail.
Proof.
  intros Hlower. induction 1 as [| order rest Horder _ IH]; intros byEmail.
  - reflexivity.
  - cbn [dashboard_loop aggregate_loop].
    destruct (two_emails order Hlower Horder)
      as [[-> ->] | [(e & e' & -> & -> & He & He')
                     | (s & -> & -> & Hs)]].
    + reflexivity.
    + cbn [bind]. rewrite He, He'. apply IH.
    + cbn [bind]. rewrite Hs. cbn [negb].
      destruct (map_get byEmail (VStr s)) as [c |] eqn:Hget.
      * rewrite (map_update_present _ _ c _ Hget),
          dashboard_absorb_is_absorb.
        destruct (absorb c order); cbn [bind]; [apply IH | reflexivity].
      * rewrite (map_update_just_set _ _ _ _ Hget),
          dashboard_absorb_is_absorb, dashboard_fresh_is_fresh.
        destruct (absorb _ order); cbn [bind]; [apply IH | reflexivity].
Qed.

(** X16. On orders whose customer email is a string or is falsy, the
    aggregation the dashboard runs in the browser gives the list the
    server's export aggregates, customer by customer and in the same
    order, and throws where it throws. *)
Theorem dashboard_aggregates_like_the_export (orders : list value) :
  toLowerCase "" = ""%string ->
  Forall (fun order => email_is_text order = true) orders ->
  aggregateCustomersFromOrders orders = aggregate orders.
Proof.
  intros Hlower Horders. unfold aggregateCustomersFromOrders, aggregate.
  rewrite (two_loops orders Hlower Horders). reflexivity.
Qed.

(** X17. An order whose customer has a truthy number where the email
    goes makes the dashboard's aggregation throw, while the server's
    export passes it over. *)
Theorem dashboard_throws_where_the_export_skips (order : value)
  (rest : list value) (n : float) :
  prop (prop order "customer") "email" = VNum n ->
  truthy_num n = true ->
  aggregateCustomersFromOrders (order :: rest) = Throw TypeError
  /\ aggregate (order :: rest) = aggregate rest.
Proof.
  intros He Hn.
  unfold aggregateCustomersFromOrders, aggregate.
  cbn [dashboard_loop aggregate_loop].
  unfold dashboard_email, order_email, get, get_opt.
  destruct order as [| | | | | | fields]; try discriminate He.
  cbn [nullish bind].
  destruct (prop (VObj fields) "customer") as [| | | | | | ps];
    try discriminate He.
  cbn [nullish truthy]. rewrite He. cbn [truthy]. rewrite Hn.
  split; reflexivity.
Qed.
End TwoAggregations.

Lemma dashboard_aggregates_like_the_export_witness :
  aggregateCustomersFromOrders [Demo.first_order; Demo.second_order]
  = aggregate [Demo.first_order; Demo.second_order].
Proof.
  apply dashboard_aggregates_like_the_export.
  - reflexivity.
  - repeat constructor.
Defined.

Lemma dashboard_throws_where_the_export_skips_witness :
  aggregateCustomersFromOrders [Demo.numbered_order; Demo.first_order]
  = Throw TypeError
  /\ aggregate [Demo.numbered_order; Demo.first_order]
     = aggregate [Demo.first_order].
Proof.
  assert (Hn : truthy_num 7%float = true) by (vm_compute; reflexivity).
  exact (dashboard_throws_where_the_export_skips Demo.numbered_order
           [Demo.first_order] 7%float (eq_refl _) Hn).
Defined.

(* --------------------------------------------------------------------- *)
(** ** The subtotal the storefront shows and the total of the order *)
(* --------------------------------------------------------------------- *)

Section ShownAndCharged.
Context {RT : Runtime}.

Lemma quantity_survives (q : float) :
  is_finite q = true -> truthy_num q = true ->
  json_clean (VNum q) = VNum q
  /\ ToNumber (VNum q) = Ok q
  /\ coerce_quantity (VNum q) = Ok q.
Proof.
  intros Hf Ht. unfold coerce_quantity.
  change (ToNumber (VNum q)) with (Ok q). cbn [json_clean bind].
  rewrite Hf, Ht. unfold truthy_num in Ht.
  apply negb_true_iff, orb_false_iff in Ht. destruct Ht as [-> _].
  repeat split; reflexivity.
Qed.

(** The two loops side by side: the storefront's [reduce] over the cart
    and the server's loop over the entries that were submitted. *)
Lemma sum_and_resolve (pm : jsmap value) (cart : list value) :
  Forall (as_listed pm) cart ->
  forall (entries : list value) (sum : float) (items : list value),
    cart_entries cart = Ok entries ->
    exists (t : float) (added : list value),
      cart_sum cart sum = Ok t
      /\ resolve_items pm (map json_clean entries) sum items
         = Ok (t, items ++ added)
      /\ length added = length cart.
Proof.
  induction 1 as [| item rest Hitem _ IH]; intros entries sum items Hentries.
  - injection Hentries as <-. exists sum, []. cbn. rewrite app_nil_r.
    repeat split.
  - destruct Hitem
      as ((id & Hid) & Hknown & (price & Hshown & Hprice) & q & Hq & Hf & Ht).
    assert (Hobj : nullish item = false)
      by (destruct item; try discriminate Hid; reflexivity).
    cbn [cart_entries] in Hentries. rewrite (get_ok _ _ Hobj) in Hentries.
    cbn [bind] in Hentries.
    destruct (cart_entries rest) as [entries' | e]; [| discriminate].
    cbn [bind] in Hentries. injection Hentries as <-.
    destruct (quantity_survives q Hf Ht) as (Hclean & Hnumber & Hcoerce).
    cbn [map cart_sum]. rewrite (get_ok _ _ Hobj). cbn [bind].
    set (entry := VObj [("productId", prop item "productId");
                        ("quantity", prop item "quantity");
                        ("size", prop item "size");
                        ("color", prop item "color")]).
    assert (Hpid : prop (json_clean entry) "productId" = VStr id).
    { unfold entry. rewrite (json_clean_prop _ "productId" (VStr id));
        [reflexivity | cbn; rewrite Hid; reflexivity | discriminate]. }
    assert (Hqty : prop (json_clean entry) "quantity" = VNum q).
    { unfold entry. rewrite (json_clean_prop _ "quantity" (VNum q));
        [exact Hclean | cbn; rewrite Hq; reflexivity | discriminate]. }
    rewrite Hshown. cbn [bind]. rewrite Hq, Hnumber. cbn [bind].
    cbn [resolve_items]. rewrite (get_ok (json_clean entry) "productId");
      [| reflexivity].
    cbn [bind]. rewrite Hpid, Hqty, <- Hid, Hknown, Hcoerce. cbn [negb bind].
    rewrite Hprice. cbn [bind].
    destruct (IH entries' (sum + price * q)%float
                (items ++ [line_item (json_clean entry)
                             (lookup_product pm (prop item "productId")) q
                             (price * q)%float])
                eq_refl)
      as (t & added & Hsum & Hresolve & Hlen).
    exists t, (line_item (json_clean entry)
                 (lookup_product pm (prop item "productId")) q
                 (price * q)%float :: added).
    split; [exact Hsum |]. split.
    + rewrite Hresolve, <- app_assoc. reflexivity.
    + cbn [length]. rewrite Hlen. reflexivity.
Qed.

Lemma submitted_fields (entries : list value) (customer : value) :
  customer <> VUndefined ->
  request_fields (json_clean (VObj [ ("cartItems", VArr entries);
                                     ("customer", customer) ]))
  = (VArr (map json_clean entries), json_clean customer).
Proof.
  intros Hdefined. unfold request_fields, js_or.
  change (truthy (json_clean (VObj [("cartItems", VArr entries);
                                    ("customer", customer)]))) with true.
  cbv iota.
  rewrite (json_clean_prop _ "cartItems" (VArr entries));
    [| reflexivity | discriminate].
  rewrite (json_clean_prop _ "customer" customer);
    [| reflexivity | exact Hdefined].
  reflexivity.
Qed.

(** X18. When every item of the cart names a product of the catalog by
    a string, has a price that converts to the number that product's
    price converts to, and a finite quantity other than zero, the
    subtotal the storefront shows is the total of the order the server
    makes of the submitted cart, and every item gets a line. *)
Theorem shown_subtotal_is_charged (cart : list value)
  (customer body : value) (w : world) (pm : jsmap value) :
  submitted cart customer = Ok body ->
  cart <> [] ->
  customer_incomplete (json_clean customer) = false ->
  build_product_map (catalog w) = Ok pm ->
  Forall (as_listed pm) cart ->
  exists (t : float) (items : list value),
    cartTotals cart = Ok t
    /\ fst (checkout_prepare body w) = Proceed t items (json_clean customer)
    /\ length items = length cart.
Proof.
  intros Hbody Hcart Hcustomer Hpm Hlisted. unfold submitted in Hbody.
  destruct (cart_entries cart) as [entries | e] eqn:Hentries;
    [| discriminate].
  cbn [bind] in Hbody.
  assert (Hdefined : customer <> VUndefined).
  { intros ->. discriminate Hcustomer. }
  assert (Hfields : request_fields body
                    = (VArr (map json_clean entries), json_clean customer)).
  { injection Hbody as <-. apply submitted_fields. exact Hdefined. }
  destruct (sum_and_resolve pm cart Hlisted entries 0%float [] Hentries)
    as (t & items & Hsum & Hresolve & Hlen).
  exists t, items. split; [exact Hsum |]. split; [| exact Hlen].
  unfold checkout_prepare. rewrite Hfields.
  destruct items as [| li items];
    [destruct cart; [contradiction | discriminate Hlen] |].
  destruct (map json_clean entries) as [| entry rest] eqn:Hmap.
  { cbn in Hresolve. discriminate Hresolve. }
  rewrite Hcustomer. unfold catalog in Hpm.
  destruct (readJson PRODUCTS_FILE (VArr []) w) as [ps w1].
  cbn [fst] in Hpm. rewrite Hpm, Hresolve. reflexivity.
Qed.
End ShownAndCharged.

Lemma shown_subtotal_is_charged_witness :
  exists items : list value,
    cartTotals Demo.basket = Ok 20%float
    /\ fst (checkout_prepare
              (json_clean
                 (VObj [ ("cartItems",
                           VArr [ VObj [ ("productId", VStr "p1");
                                         ("quantity", VNum 2%float);
                                         ("size", VStr "Medium");
                                         ("color", VStr "") ] ]);
                         ("customer", Demo.buyer) ]))
              Demo.shop)
       = Proceed 20%float items Demo.buyer.
Proof.
  assert (Hbody : submitted Demo.basket Demo.buyer
                  = Ok (json_clean
                          (VObj [ ("cartItems",
                                    VArr [ VObj [ ("productId", VStr "p1");
                                                  ("quantity", VNum 2%float);
                                                  ("size", VStr "Medium");
                                                  ("color", VStr "") ] ]);
                                  ("customer", Demo.buyer) ])))
    by reflexivity.
  assert (Hcart : Demo.basket <> []) by discriminate.
  assert (Hcustomer : customer_incomplete (json_clean Demo.buyer) = false)
    by reflexivity.
  assert (Hpm : build_product_map (catalog Demo.shop)
                = Ok [(VStr "p1",
                       VObj [ ("id", VStr "p1"); ("name", VStr "Linen Shirt");
                              ("category", VStr "tops");
                              ("price", VNum 10%float) ])])
    by reflexivity.
  assert (Hlisted :
            Forall (as_listed
                      [(VStr "p1",
                        VObj [ ("id", VStr "p1");
                               ("name", VStr "Linen Shirt");
                               ("category", VStr "tops");
                               ("price", VNum 10%float) ])])
              Demo.basket).
  { constructor; [| constructor]. split; [| split; [| split]].
    - exists "p1"%string. reflexivity.
    - reflexivity.
    - exists 10%float. split; vm_compute; reflexivity.
    - exists 2%float. repeat split; vm_compute; reflexivity. }
  destruct (shown_subtotal_is_charged Demo.basket Demo.buyer _ Demo.shop _
              Hbody Hcart Hcustomer Hpm Hlisted)
    as (t & items & Hsum & Hprepare & _).
  assert (Ht : cartTotals Demo.basket = Ok 20%float)
    by (vm_compute; reflexivity).
  rewrite Ht in Hsum. injection Hsum as <-.
  exists items. split; [reflexivity | exact Hprepare].
Defined.

(* --------------------------------------------------------------------- *)
(** ** The customers table and the customers card *)
(* --------------------------------------------------------------------- *)

Lemma keys_after_set {V W : Type} (m : jsmap V) (m' : jsmap W) (k : value)
  (v : V) (v' : W) :
  map fst m = map fst m' ->
  map fst (map_set m k v) = map fst (map_set m' k v').
Proof.
  revert m'. induction m as [| [a x] m IH]; intros [| [a' x'] m'] H;
    try discriminate H; [reflexivity |].
  cbn [map fst] in H. injection H as <- H. cbn [map_set].
  destruct (same_value_zero a k); cbn [map fst].
  - rewrite H. reflexivity.
  - rewrite (IH m' H). reflexivity.
Qed.

Section TableAndCard.
Context {RT : Runtime}.

Lemma called_email_is_order_email (order : value) :
  email_is_text_or_absent order = true ->
  called_email order = order_email order.
Proof.
  unfold email_is_text_or_absent, called_email, order_email, get, get_opt.
  destruct (nullish order); [reflexivity |]. cbn [bind].
  destruct (prop order "customer") as [| | b | n | s | l | ps];
    try reflexivity.
  cbn [nullish].
  destruct (prop (VObj ps) "email"); try discriminate; reflexivity.
Qed.

Lemma table_loop_is_aggregate_loop (orders : list value) :
  Forall (fun order => email_is_text_or_absent order = true) orders ->
  forall byEmail : jsmap customer,
    table_loop orders byEmail = aggregate_loop orders byEmail.
Proof.
  induction 1 as [| order rest Horder _ IH]; intros byEmail;
    [reflexivity |].
  cbn [table_loop aggregate_loop].
  rewrite (called_email_is_order_email order Horder).
  destruct (order_email order) as [email | e]; [| reflexivity].
  cbn [bind]. rewrite IH.
  destruct (negb (truthy email)); [reflexivity |].
  destruct (absorb _ order); cbn [bind]; [apply IH | reflexivity].
Qed.

(** X19. On orders whose customer email is a string, or is [undefined]
    or [null], the rows of the dashboard's customers table are the
    customers of the server's export, and the table throws where the
    export throws. *)
Theorem table_lists_the_export (orders : list value) :
  Forall (fun order => email_is_text_or_absent order = true) orders ->
  table_customers orders = aggregate orders.
Proof.
  intros Horders. unfold table_customers, aggregate.
  rewrite (table_loop_is_aggregate_loop orders Horders). reflexivity.
Qed.

Lemma map_get_tallies (m : jsmap customer) (k : value) :
  map_get (tallies m) k = option_map tally_of (map_get m k).
Proof.
  induction m as [| [k' c] m IH]; [reflexivity |].
  cbn [tallies map map_get fst snd].
  destruct (same_value_zero k' k); [reflexivity | exact IH].
Qed.

Lemma map_set_tallies (m : jsmap customer) (k : value) (c : customer) :
  map_set (tallies m) k (tally_of c) = tallies (map_set m k c).
Proof.
  induction m as [| [k' c'] m IH]; [reflexivity |].
  cbn [tallies map map_set fst snd].
  destruct (same_value_zero k' k); cbn [map fst snd]; [reflexivity |].
  f_equal. exact IH.
Qed.

(** The loop of [updateStats] keeps the count and the total of each
    customer the loop of the table keeps. *)
Lemma stats_loop_tallies (orders : list value) :
  forall byEmail : jsmap customer,
    stats_loop orders (tallies byEmail)
    = (m <- table_loop orders byEmail ;; Ok (tallies m)).
Proof.
  induction orders as [| order rest IH]; intros byEmail; [reflexivity |].
  cbn [stats_loop table_loop].
  destruct (called_email order) as [email | e]; [| reflexivity].
  cbn [bind]. destruct (negb (truthy email)); [apply IH |].
  rewrite map_get_tallies. unfold absorb.
  destruct (map_get byEmail email) as [c |]; cbn [option_map];
    cbn [tally_of fresh t_total t_count c_totalSpend c_orders];
    destruct (js_add _ (order_total order)) as [total | e];
    cbn [bind]; try reflexivity;
    rewrite <- IH, <- map_set_tallies; reflexivity.
Qed.

Lemma stats_loop_counts (orders : list value) :
  stats_loop orders []
  = (m <- table_loop orders [] ;; Ok (tallies m)).
Proof. exact (stats_loop_tallies orders []). Qed.

Lemma formatCurrency_number (n : float) :
  formatCurrency (VNum n) = Ok ("$" ++ toFixed2 n)%string.
Proof. reflexivity. Qed.

(** X20. When [updateStats] returns, the aggregation of the customers
    table returns too, and the customers card, if the page has one, was
    given the number of customers it aggregates; [updateStats] returns
    whenever that aggregation does and the revenue is a number; and it
    throws whenever that aggregation throws. *)
Theorem card_counts_the_table (page : stat_cards) (orders : list value) :
  (forall s : shown,
      updateStats page orders = Ok s ->
      exists customers : list customer,
        table_customers orders = Ok customers
        /\ shown_customers s
           = if customersEl page
             then Some (NumberToString (num_of_nat (length customers)))
             else None)
  /\ (forall (customers : list customer) (r : float),
         table_customers orders = Ok customers ->
         revenue orders (VNum 0%float) = Ok (VNum r) ->
         exists s : shown, updateStats page orders = Ok s)
  /\ (forall e : exn,
         table_customers orders = Throw e ->
         exists e' : exn, updateStats page orders = Throw e').
Proof.
  unfold updateStats, table_customers. rewrite stats_loop_counts.
  split; [| split].
  - intros s Hs.
    destruct (revenue orders (VNum 0%float)) as [total | e];
      [| discriminate Hs].
    cbn [bind] in Hs.
    destruct (table_loop orders []) as [m | e]; [| discriminate Hs].
    cbn [bind] in Hs. exists (map_values m). split; [reflexivity |].
    destruct (set_text (revenueEl page) (formatCurrency total))
      as [revenue_text | e]; [| discriminate Hs].
    cbn [bind] in Hs.
    destruct (set_text (ordersCountEl page) _) as [orders_text | e];
      [| discriminate Hs].
    cbn [bind] in Hs. rewrite formatCurrency_number in Hs.
    destruct (aovEl page), (customersEl page);
      cbn [set_text bind] in Hs; injection Hs as <-;
      cbn [shown_customers]; unfold tallies, map_values;
      rewrite ?length_map; reflexivity.
  - intros customers r Htable Hrevenue. rewrite Hrevenue. cbn [bind].
    destruct (table_loop orders []) as [m | e]; [| discriminate Htable].
    cbn [bind]. rewrite !formatCurrency_number.
    destruct (revenueEl page), (ordersCountEl page), (aovEl page),
      (customersEl page); cbn [set_text bind]; eexists; reflexivity.
  - intros e Htable.
    destruct (table_loop orders []) as [m | e0]; [discriminate Htable |].
    destruct (revenue orders (VNum 0%float)) as [total | e1];
      cbn [bind]; eexists; reflexivity.
Qed.
End TableAndCard.

Lemma table_lists_the_export_witness :
  table_customers [Demo.first_order; Demo.second_order]
  = aggregate [Demo.first_order; Demo.second_order].
Proof.
  apply table_lists_the_export. repeat constructor.
Defined.

Lemma card_counts_the_table_witness :
  exists (s : shown) (customers : list customer),
    updateStats {| revenueEl := true; ordersCountEl := true;
                   aovEl := true; customersEl := true |}
      [Demo.first_order; Demo.second_order] = Ok s
    /\ table_customers [Demo.first_order; Demo.second_order] = Ok customers
    /\ shown_customers s
       = Some (NumberToString (num_of_nat (length customers))).
Proof.
  destruct (card_counts_the_table
              {| revenueEl := true; ordersCountEl := true;
                 aovEl := true; customersEl := true |}
              [Demo.first_order; Demo.second_order]) as (Hcard & _ & _).
  destruct (updateStats {| revenueEl := true; ordersCountEl := true;
                           aovEl := true; customersEl := true |}
              [Demo.first_order; Demo.second_order]) as [s | e] eqn:Hs;
    [| vm_compute in Hs; discriminate Hs].
  destruct (Hcard s eq_refl) as (customers & Htable & Hshown).
  exists s, customers. repeat split; assumption.
Defined.

(* --------------------------------------------------------------------- *)
(** ** The guards after a login *)
(* --------------------------------------------------------------------- *)

Section Guards.
Context {RT : Runtime}.

(** X21. After a login with the right password the session passes the
    page guard and the API guard exactly when the account on file has a
    truthy identifier: for an account without one the login is answered
    with success, and the next request is redirected to the login page or
    answered 401. *)
Theorem guards_pass_when_the_account_has_an_id (cfg : config) (s : session)
  (w : world) (body : value) (admins : list value) (e p h : string)
  (a : value) :
  directory cfg w = VArr admins ->
  directory_ok admins ->
  credentials body = (VStr e, VStr p) ->
  e <> ""%string -> p <> ""%string ->
  In a admins ->
  email_key a = Some (toLowerCase e) ->
  prop a "passwordHash" = VStr h ->
  bcrypt_compare p h = true ->
  let logged := login cfg body s w in
  (save_fails s = false ->
   admin_response logged = Reply 200 (VObj [("success", VBool true)]))
  /\ requireAdminPage (admin_session logged)
     = (if truthy (prop a "id") then Next else Redirect "/admin/login")
  /\ requireAdminApi (admin_session logged)
     = (if truthy (prop a "id") then Next
        else Stop (Reply 401 (error_body "Not authenticated as admin."))).
Proof.
  intros Hdir Hok Hcred He Hp Hin Hkey Hhash Hcmp. cbv zeta.
  rewrite (login_right_password cfg s w body admins e p h a
             Hdir Hok Hcred He Hp Hin Hkey Hhash Hcmp).
  unfold establish, requireAdminPage, requireAdminApi.
  cbn [admin_response admin_session adminUserId].
  split; [intros ->; reflexivity |]. split; reflexivity.
Qed.
End Guards.

Lemma guards_pass_when_the_account_has_an_id_witness :
  admin_response
    (login Demo.local_cfg (Demo.login_as "ada@shop.example" "correct horse")
       Demo.signed_out Demo.unnumbered_shop)
  = Reply 200 (VObj [("success", VBool true)])
  /\ requireAdminPage
       (admin_session
          (login Demo.local_cfg
             (Demo.login_as "ada@shop.example" "correct horse")
             Demo.signed_out Demo.unnumbered_shop))
     = Redirect "/admin/login".
Proof.
  assert (Hok : directory_ok
                  [ VObj [ ("name", VStr "Ada");
                           ("email", VStr "Ada@Shop.example");
                           ("passwordHash",
                             VStr "$2a$10$NaCl$correct horse") ] ]).
  { split; repeat constructor; [discriminate | intros []]. }
  assert (He : "ada@shop.example"%string <> ""%string) by discriminate.
  assert (Hp : "correct horse"%string <> ""%string) by discriminate.
  assert (Hcmp : bcrypt_compare "correct horse" "$2a$10$NaCl$correct horse"
                 = true) by (vm_compute; reflexivity).
  destruct (guards_pass_when_the_account_has_an_id Demo.local_cfg
              Demo.signed_out Demo.unnumbered_shop
              (Demo.login_as "ada@shop.example" "correct horse")
              _ "ada@shop.example" "correct horse"
              "$2a$10$NaCl$correct horse" _
              (eq_refl _) Hok (eq_refl _) He Hp (or_introl (eq_refl _))
              (eq_refl _) (eq_refl _) Hcmp)
    as (Hresp & Hpage & _).
  split; [apply Hresp; reflexivity | exact Hpage].
Defined.
